(** * lapp_crawler: the slot reconciliation and extraction pipeline

    A shallow embedding of [dear_crawler.py], [singapore_crawler.py] and
    [lucky_number_updater.py], and the properties of the planners, the
    extractors, the publisher payloads, the state fetcher and the
    lucky-number backfill.

    Conventions of the embedding.
    - A value returned by [r.json()] is a [json]; Python's [None] and JSON's
      [null] are the same value, [JNull].
    - Text is a [string] of one-byte characters (code points 0..255), so the
      regular-expression classes [\d], [\s] and the case folding of
      [re.IGNORECASE] are the ones Python applies to those code points.
    - A Python exception is a value of [exn]; a computation that may raise
      returns a [result].
    - Every call that leaves the process (an HTTP request) is recorded in a
      [trace]; what the remote side answers is given by a [world], which may
      depend on everything sent so far.
    - The clock and the random generator are inputs. *)

From Stdlib Require Import ZArith QArith DecimalString Strings.Byte Ascii String.
From stdpp Require Import gmap strings list.

#[local] Set Warnings "-register-all".
#[local] Open Scope Z_scope.
#[local] Open Scope string_scope.
#[local] Open Scope list_scope.
#[local] Open Scope stdpp_scope.

(** ** Python values, exceptions and string primitives *)

Module Py.

Inductive json : Type :=
  | JNull
  | JBool (b : bool)
  | JInt (n : Z)
  | JFloat (q : Q)
  | JStr (s : string)
  | JArr (l : list json)
  | JObj (m : gmap string json).

Inductive exn : Type :=
  | AttributeError
  | TypeError
  | IndexError
  | KeyError (k : string)
  | ValueError (msg : string)
  | ConnectionError
  | HTTPError (status : Z)
  | JSONDecodeError
  | OtherError (msg : string).

Inductive result (A : Type) : Type :=
  | Ok (a : A)
  | Raise (e : exn).
Arguments Ok {A} a.
Arguments Raise {A} e.

#[export] Instance result_ret : MRet result := @Ok.
#[export] Instance result_bind : MBind result :=
  λ A B f m, match m with Ok a => f a | Raise e => Raise e end.

(** [d.get(k)]: only a dict has the method; a missing key gives [None]. *)
Definition get (d : json) (k : string) : result json :=
  match d with
  | JObj m => Ok (default JNull (m !! k))
  | _ => Raise AttributeError
  end.

(** [v == s] for a string [s]: only an equal string is equal to it. *)
Definition eq_str (v : json) (s : string) : bool :=
  match v with
  | JStr t => bool_decide (t = s)
  | _ => false
  end.

(** Truth value of a value in a condition. *)
Definition truthy (v : json) : bool :=
  match v with
  | JNull => false
  | JBool b => b
  | JInt n => negb (Z.eqb n 0)
  | JFloat q => negb (Qeq_bool q 0%Q)
  | JStr s => negb (bool_decide (s = ""))
  | JArr l => match l with [] => false | _ => true end
  | JObj m => negb (Nat.eqb (size m) 0)
  end.

(** [s[n:]] and [s[:n]] for [n >= 0]. *)
Fixpoint drop (n : nat) (s : string) : string :=
  match n, s with
  | O, _ => s
  | S n', String _ s' => drop n' s'
  | S _, EmptyString => EmptyString
  end.

Fixpoint take (n : nat) (s : string) : string :=
  match n, s with
  | S n', String c s' => String c (take n' s')
  | _, _ => EmptyString
  end.

(** [s[-k:]] for [k > 0]: the start index [len(s) - k] is clipped at 0. *)
Definition suffix (k : nat) (s : string) : string :=
  drop (String.length s - k) s.

(** [s[-1]]: indexing, unlike slicing, raises on the empty string. *)
Definition last_char (s : string) : result string :=
  match s with
  | EmptyString => Raise IndexError
  | _ => Ok (suffix 1 s)
  end.

(** [sep.join(parts)] *)
Fixpoint join (sep : string) (parts : list string) : string :=
  match parts with
  | [] => ""
  | [x] => x
  | x :: rest => x +:+ sep +:+ join sep rest
  end.

(** [a in b] for strings. *)
Fixpoint contains (a b : string) : bool :=
  String.prefix a b ||
  match b with
  | EmptyString => false
  | String _ b' => contains a b'
  end.

(** [str(n)] for an integer. *)
Definition str_int (n : Z) : string := NilZero.string_of_int (Z.to_int n).

(** Character classes of [re] on one-byte code points. *)
Definition is_digit (c : ascii) : bool :=
  let n := Ascii.nat_of_ascii c in (Nat.leb 48 n && Nat.leb n 57)%bool.

Definition is_space (c : ascii) : bool :=
  let n := Ascii.nat_of_ascii c in
  ((Nat.leb 9 n && Nat.leb n 13) || (Nat.leb 28 n && Nat.leb n 32)
   || Nat.eqb n 133 || Nat.eqb n 160)%bool.

Definition lower (c : ascii) : ascii :=
  let n := Ascii.nat_of_ascii c in
  if (Nat.leb 65 n && Nat.leb n 90)%bool then Ascii.ascii_of_nat (n + 32) else c.

Fixpoint all_digits (s : string) : bool :=
  match s with
  | EmptyString => true
  | String c s' => is_digit c && all_digits s'
  end.

(** The match object of a search: [m.start()] and the matched group. *)
Record re_match := { m_start : nat; m_group : string }.

Definition shift (m : re_match) : re_match :=
  {| m_start := S (m_start m); m_group := m_group m |}.

(** [re.search(r'\d{5}', s)]: the leftmost position at which five
    consecutive digits start. *)
Definition digits5_here (s : string) : bool :=
  (Nat.eqb (String.length (take 5 s)) 5 && all_digits (take 5 s))%bool.

Fixpoint search_d5 (s : string) : option re_match :=
  if digits5_here s then Some {| m_start := 0; m_group := take 5 s |}
  else match s with
       | EmptyString => None
       | String _ s' => shift <$> search_d5 s'
       end.

(** The greedy [\d+]-like span at the start of [s]. *)
Fixpoint span_digits (s : string) : string :=
  match s with
  | String c s' => if is_digit c then String c (span_digits s') else EmptyString
  | EmptyString => EmptyString
  end.

(** [\s*] at the start of [s]: what is left after the white space.  The
    next atom of the pattern is a letter, so the greedy choice is the only
    one that can match. *)
Fixpoint skip_spaces (s : string) : string :=
  match s with
  | String c s' => if is_space c then skip_spaces s' else s
  | EmptyString => EmptyString
  end.

(** A literal matched with [re.IGNORECASE] at the start of [s]: what is
    left after it. *)
Fixpoint match_literal (lit s : string) : option string :=
  match lit, s with
  | EmptyString, _ => Some s
  | String a lit', String b s' =>
      if Ascii.eqb (lower a) (lower b) then match_literal lit' s' else None
  | String _ _, EmptyString => None
  end.

(** [.*?(\d{4,})] at the start of [s]: the lazy [.*?] moves right one
    character at a time, never over a newline, until four or more digits
    start; the group then takes the whole run of digits. *)
Fixpoint lazy_then_digits (s : string) : option string :=
  if Nat.leb 4 (String.length (span_digits s)) then Some (span_digits s)
  else match s with
       | EmptyString => None
       | String c s' =>
           if Ascii.eqb c "010"%char then None else lazy_then_digits s'
       end.

(** [1st\s*Prize.*?(\d{4,})] anchored at the start of [s]: group 1. *)
Definition first_prize_here (s : string) : option string :=
  s1 ← match_literal "1st" s;
  s2 ← match_literal "Prize" (skip_spaces s1);
  lazy_then_digits s2.

(** [re.search(r"1st\s*Prize.*?(\d{4,})", s, re.IGNORECASE)]: group 1 of
    the leftmost match. *)
Fixpoint search_first_prize (s : string) : option string :=
  match first_prize_here s with
  | Some g => Some g
  | None =>
      match s with
      | EmptyString => None
      | String _ s' => search_first_prize s'
      end
  end.

(** A [datetime], and the two [strftime] formats the scripts use. *)
Record datetime := {
  year : nat; month : nat; day : nat; hour : Z; minute : Z
}.

Definition zero_pad (width : nat) (n : nat) : string :=
  let s := NilZero.string_of_uint (Nat.to_uint n) in
  String.concat "" (replicate (width - String.length s) "0") +:+ s.

(** [strftime("%Y-%m-%d")] *)
Definition strftime_date (t : datetime) : string :=
  zero_pad 4 (year t) +:+ "-" +:+ zero_pad 2 (month t) +:+ "-" +:+ zero_pad 2 (day t).

(** [strftime("/%Y/%m/")] *)
Definition strftime_path (t : datetime) : string :=
  "/" +:+ zero_pad 4 (year t) +:+ "/" +:+ zero_pad 2 (month t) +:+ "/".

(** [t + timedelta(hours=5, minutes=30)] on the fields the scripts read
    (seconds and microseconds pass through unchanged): the proleptic
    Gregorian calendar of [datetime], whose years end at 9999. *)
Definition is_leap (y : nat) : bool :=
  (Nat.eqb (y mod 4) 0 && (negb (Nat.eqb (y mod 100) 0) || Nat.eqb (y mod 400) 0))%bool.

Definition days_in_month (y m : nat) : nat :=
  match m with
  | 2 => if is_leap y then 29 else 28
  | 4 | 6 | 9 | 11 => 30
  | _ => 31
  end%nat.

Definition next_date (y m d : nat) : nat * nat * nat :=
  if Nat.ltb d (days_in_month y m) then (y, m, S d)
  else if Nat.ltb m 12 then (y, S m, 1%nat)
  else (S y, 1%nat, 1%nat).

Definition plus_5h30 (t : datetime) : result datetime :=
  let total := (hour t * 60 + minute t + 330)%Z in
  if (total <? 1440)%Z then
    Ok {| year := year t; month := month t; day := day t;
          hour := (total / 60)%Z; minute := (total mod 60)%Z |}
  else
    let '(y, m, d) := next_date (year t) (month t) (day t) in
    if (9999 <? Z.of_nat y)%Z then Raise (OtherError "date value out of range")
    else Ok {| year := y; month := m; day := d;
               hour := ((total - 1440) / 60)%Z; minute := ((total - 1440) mod 60)%Z |}.

End Py.

Import Py.

(** ** HTTP requests, the remote world and the trace of a run *)

Module Http.

Record response := {
  status_code : Z;
  text : string;
  content : list byte;
  json_body : option json   (* what [r.json()] parses; [None]: it raises *)
}.

Inductive request : Type :=
  | Get (url : string) (params : list (string * string))
  | PostJson (url : string) (payload : gmap string json)
  | PostMultipart (url : string)
      (files : list (string * (string * list byte * string)))
      (data : list (string * string)).

Definition trace := list request.

(** What the remote side does with a request, given all that was sent
    before: an exception of the transport (after its retries) or a
    response. *)
Definition world := trace → request → result response.

(** A computation that sends requests: the trace grows also when the
    computation ends in an exception. *)
Definition act (A : Type) : Type := trace → result A * trace.

#[export] Instance act_ret : MRet act := λ A a tr, (Ok a, tr).
#[export] Instance act_bind : MBind act :=
  λ A B f m tr,
    match m tr with
    | (Ok a, tr') => f a tr'
    | (Raise e, tr') => (Raise e, tr')
    end.

Definition lift {A} (r : result A) : act A := λ tr, (r, tr).

(** [try: body except Exception as e: handler e] *)
Definition catch {A} (body : act A) (handler : exn → act A) : act A :=
  λ tr,
    match body tr with
    | (Ok a, tr') => (Ok a, tr')
    | (Raise e, tr') => handler e tr'
    end.

(** [for x in xs: body x] *)
Fixpoint for_each {A} (xs : list A) (body : A → act unit) : act unit :=
  match xs with
  | [] => mret tt
  | x :: rest => body x ;; for_each rest body
  end.

Definition send (w : world) (rq : request) : act response :=
  λ tr, (w tr rq, tr ++ [rq]).

(** [r.raise_for_status()] *)
Definition raise_for_status (r : response) : result unit :=
  if ((400 <=? status_code r)%Z && (status_code r <? 600)%Z)%bool
  then Raise (HTTPError (status_code r))
  else Ok tt.

(** [r.json()] *)
Definition json_of (r : response) : result json :=
  match json_body r with
  | Some v => Ok v
  | None => Raise JSONDecodeError
  end.

Definition is_post (rq : request) : bool :=
  match rq with
  | Get _ _ => false
  | _ => true
  end.

End Http.

Import Http.

(** What both crawlers share: the slot names, the placeholder, the record
    used when nothing is known, and the body of a digit upsert. *)

Module Shared.

Definition placeholder : string := "-".

(** [{"date": today, "mor": "-", "day": "-", "evn": "-"}] *)
Definition fresh (today : string) : gmap string json :=
  <["evn" := JStr "-"]> (<["day" := JStr "-"]> (<["mor" := JStr "-"]>
    (<["date" := JStr today]> ∅))).

(** The loop of [api_get_today_state] over a list response:
    [for entry in data: if entry.get("date") == today: return entry]. *)
Fixpoint find_today (data : list json) (today : string) : result (option json) :=
  match data with
  | [] => Ok None
  | entry :: rest =>
      d ← get entry "date";
      if eq_str d today then Ok (Some entry) else find_today rest today
  end.

(** [payload = {...fresh...}; payload[slot] = value] *)
Definition payload_for (today slot value : string) : gmap string json :=
  <[slot := JStr value]> (fresh today).

End Shared.

Import Shared.

(** ** dear_crawler.py *)

Module Dear.

Record slot_config := { url : string; cfg_hour : Z }.

Definition SLOT_CONFIG : gmap string slot_config :=
  <["mor" := {| url := "https://lotterysambad.one/nagaland-state-lottery-result-1-pm/"; cfg_hour := 13 |}]>
  (<["day" := {| url := "https://lotterysambad.one/nagaland-state-lottery-result-6-00-pm/"; cfg_hour := 18 |}]>
  (<["evn" := {| url := "https://lotterysambad.one/nagaland-state-lottery-result-8-00-pm/"; cfg_hour := 20 |}]> ∅)).

Definition API_DEAR : string := "https://supervillain.pythonanywhere.com/api/dear/".
Definition API_FAX : string := "https://supervillain.pythonanywhere.com/api/fax/".
Definition API_GET_STATE : string := API_DEAR +:+ "last-three-digit/".

(** The libraries the script calls, as functions of their inputs:
    [reader.readtext(bytes, detail=0)]; [soup.find("img", ...)] on a page
    text, giving the [src] attribute of the tag found ([Some None]: a tag
    without [src]); the JPEG recompression done with PIL. *)
Record libs := {
  readtext : list byte → result (list string);
  find_img : string → option (option string);
  recompress : list byte → result (list byte)
}.

Record digits := { l1 : string; l2 : string; l3 : string }.

Inductive slot_outcome : Type :=
  | NoImage
  | SkippedOld
  | Uploaded
  | Failed (e : exn).

Definition api_get_today_state (w : world) (today : string) : act json :=
  catch
    (r ← send w (Get API_GET_STATE [("date", today)]);
     lift (raise_for_status r);;
     data ← lift (json_of r);
     match data with
     | JArr entries =>
         found ← lift (find_today entries today);
         match found with
         | Some entry => mret entry
         | None => mret (JObj (fresh today))
         end
     | _ => mret data
     end)
    (λ _, mret (JObj (fresh today))).

(** The [return] of [extract_digits]: the suffixes of the number found. *)
Definition digits_of_number (num : string) : result digits :=
  d1 ← last_char num;
  Ok {| l1 := d1; l2 := suffix 2 num; l3 := suffix 3 num |}.

(** The body of [extract_digits] after the OCR call. *)
Definition digits_of_fragments (results : list string) : result digits :=
  let full_text := join " " results in
  match search_d5 full_text with
  | None =>
      Raise (ValueError ("1st Prize not detected. OCR saw: " +:+ take 50 full_text))
  | Some m => digits_of_number (m_group m)
  end.

Definition extract_digits (lib : libs) (image_bytes : list byte) : result digits :=
  results ← readtext lib image_bytes;
  digits_of_fragments results.

Definition post_data (w : world) (lib : libs)
    (today slot : string) (dg : digits) (image_bytes : list byte) : act unit :=
  let endpoints := ["last-digit"; "last-two-digit"; "last-three-digit"] in
  let vals := [l1 dg; l2 dg; l3 dg] in
  for_each (zip endpoints vals)
    (λ '(ep, val),
       send w (PostJson (API_DEAR +:+ ep +:+ "/") (payload_for today slot val));;
       mret tt);;
  buf ← lift (recompress lib image_bytes);
  send w (PostMultipart API_FAX
            [("image", ("result.jpg", buf, "image/jpeg"))]
            [("type", "dear"); ("date", today); ("time", slot)]);;
  mret tt.

(** One of the three [if hour >= h and db.get(s) == "-": needed.append(s)];
    [and] does not evaluate its right operand when the left one is false. *)
Definition check_slot (db : json) (hour threshold : Z) (slot : string)
    (needed : list string) : result (list string) :=
  if (threshold <=? hour)%Z then
    v ← get db slot;
    Ok (if eq_str v "-" then needed ++ [slot] else needed)
  else Ok needed.

(** [now] is what the call of [get_now_ist()] inside the function returns. *)
Definition get_needed_slots (now : datetime) (db : json) : result (list string) :=
  let hour := hour now in
  needed ← check_slot db hour 13 "mor" [];
  needed ← check_slot db hour 18 "day" needed;
  check_slot db hour 20 "evn" needed.

(** The body of the loop of [main] for one slot. *)
Definition process_slot (w : world) (lib : libs) (ist_now : datetime)
    (today_str slot : string) : act slot_outcome :=
  catch
    (cfg ← lift (match SLOT_CONFIG !! slot with
                 | Some c => Ok c
                 | None => Raise (KeyError slot)
                 end);
     resp ← send w (Get (url cfg) []);
     match find_img lib (text resp) with
     | None => mret NoImage
     | Some None =>
         (* [date_path not in None] *)
         lift (Raise TypeError)
     | Some (Some img_url) =>
         let date_path := strftime_path ist_now in
         if negb (contains date_path img_url) then mret SkippedOld
         else
           img ← send w (Get img_url []);
           let img_data := content img in
           dg ← lift (extract_digits lib img_data);
           post_data w lib today_str slot dg img_data;;
           mret Uploaded
     end)
    (λ e, mret (Failed e)).

Fixpoint process_slots (w : world) (lib : libs) (ist_now : datetime)
    (today_str : string) (needed : list string) : act (list (string * slot_outcome)) :=
  match needed with
  | [] => mret []
  | slot :: rest =>
      o ← process_slot w lib ist_now today_str slot;
      os ← process_slots w lib ist_now today_str rest;
      mret ((slot, o) :: os)
  end.

(** [ist_now] is the clock read by [main], [planner_now] the one read
    inside [get_needed_slots].  With nothing needed [main] returns at
    once, which is the loop over the empty list. *)
Definition main (w : world) (lib : libs) (ist_now planner_now : datetime)
    : act (list (string * slot_outcome)) :=
  let today_str := strftime_date ist_now in
  db ← api_get_today_state w today_str;
  needed ← lift (get_needed_slots planner_now db);
  process_slots w lib ist_now today_str needed.

(** [utc_now] is what [datetime.now(timezone.utc)] returns. *)
Definition get_now_ist (utc_now : datetime) : result datetime := plus_5h30 utc_now.

End Dear.

(** ** singapore_crawler.py *)

Module Singapore.

Definition BASE_URL : string := "https://pxwell.co/today-result/".

Definition TIME_ORDER : list (string * string) :=
  [("12.30", "mor"); ("16.30", "day"); ("20.30", "evn")].

Definition API_BASE : string := "https://supervillain.pythonanywhere.com/api/singapore/".
Definition API_LAST_1 : string := API_BASE +:+ "last-digit/".
Definition API_LAST_2 : string := API_BASE +:+ "last-two-digit/".
Definition API_LAST_3 : string := API_BASE +:+ "last-three-digit/".
Definition API_FAX : string := "https://supervillain.pythonanywhere.com/api/fax/".
Definition API_GET_STATE : string := API_LAST_3.

(** The libraries the script calls: the [href]s selected on the listing
    page, the text of all pages of a PDF, and the JPEG of its first page. *)
Record libs := {
  select_pdf_links : string → list string;
  pdf_text : list byte → result string;
  pdf_jpeg : list byte → result (list byte)
}.

Record digits := { last_1 : string; last_2 : string; last_3 : string }.

Definition api_get_today_state (w : world) (today : string) : act json :=
  catch
    (r ← send w (Get API_GET_STATE [("date", today)]);
     if (status_code r =? 404)%Z then mret (JObj (fresh today))
     else
       lift (raise_for_status r);;
       data ← lift (json_of r);
       match data with
       | JArr entries =>
           found ← lift (find_today entries today);
           match found with
           | Some entry => mret entry
           | None => mret (JObj (fresh today))
           end
       | _ => mret data
       end)
    (λ _, mret (JObj (fresh today))).

(** The loop of [slots_to_crawl] over what is left of [TIME_ORDER]. *)
Fixpoint crawl_loop (order : list (string * string)) (db : json)
    (current_slot : string) (result : list string) : Py.result (list string) :=
  match order with
  | [] => Ok result
  | (_, slot) :: rest =>
      v ← get db slot;
      let result := if eq_str v "-" then result ++ [slot] else result in
      if bool_decide (slot = current_slot) then Ok result
      else crawl_loop rest db current_slot result
  end.

Definition slots_to_crawl (db : json) (current_slot : string) : Py.result (list string) :=
  crawl_loop TIME_ORDER db current_slot [].

(** The [return] of [extract_digits_from_pdf_bytes]: the suffixes of the
    number found. *)
Definition digits_of_number (num : string) : Py.result digits :=
  d1 ← last_char num;
  Ok {| last_1 := d1; last_2 := suffix 2 num; last_3 := suffix 3 num |}.

(** The body of [extract_digits_from_pdf_bytes] after the text is read. *)
Definition digits_of_text (text : string) : Py.result digits :=
  match search_first_prize text with
  | None => Raise (ValueError "1st Prize number not found in PDF")
  | Some num => digits_of_number num
  end.

Definition extract_digits_from_pdf_bytes (lib : libs) (pdf_bytes : list byte)
    : Py.result digits :=
  text ← pdf_text lib pdf_bytes;
  digits_of_text text.

Definition post_digit (w : world) (api today slot value : string) : act unit :=
  r ← send w (PostJson api (payload_for today slot value));
  lift (raise_for_status r).

Definition post_image (w : world) (lib : libs) (pdf_bytes : list byte)
    (today slot : string) : act unit :=
  img_bytes ← lift (pdf_jpeg lib pdf_bytes);
  r ← send w (PostMultipart API_FAX
                [("image", ("result.jpg", img_bytes, "image/jpeg"))]
                [("type", "singapore"); ("date", today); ("time", slot)]);
  lift (raise_for_status r).

(** The body of the last loop of [crawl_and_process] for one entry of
    [enumerate(TIME_ORDER)]. *)
Definition crawl_slot (w : world) (lib : libs) (today : string)
    (needed_slots pdf_links : list string) (i : nat) (slot : string) : act unit :=
  if negb (bool_decide (slot ∈ needed_slots)) then mret tt
  else
    match pdf_links !! i with
    | None => mret tt
    | Some pdf_url =>
        catch
          (pdf ← send w (Get pdf_url []);
           lift (raise_for_status pdf);;
           dg ← lift (extract_digits_from_pdf_bytes lib (content pdf));
           post_digit w API_LAST_1 today slot (last_1 dg);;
           post_digit w API_LAST_2 today slot (last_2 dg);;
           post_digit w API_LAST_3 today slot (last_3 dg);;
           post_image w lib (content pdf) today slot)
          (λ _, mret tt)
    end.

Definition crawl_and_process (w : world) (lib : libs) (ist_now : datetime)
    (current_slot : string) : act unit :=
  let today := strftime_date ist_now in
  db ← api_get_today_state w today;
  needed_slots ← lift (slots_to_crawl db current_slot);
  match needed_slots with
  | [] => mret tt
  | _ =>
      links ← catch
                (page ← send w (Get BASE_URL []);
                 lift (raise_for_status page);;
                 mret (Some (select_pdf_links lib (text page))))
                (λ _, mret None);
      match links with
      | None => mret tt
      | Some pdf_links =>
          for_each (zip (seq 0 (length TIME_ORDER)) TIME_ORDER)
            (λ '(i, (_, slot)), crawl_slot w lib today needed_slots pdf_links i slot)
      end
  end.

Definition detect_time_slot (now : datetime) : option string :=
  let current_total_minutes := (hour now * 60 + minute now)%Z in
  if (current_total_minutes <? 750)%Z then None
  else if (current_total_minutes <? 990)%Z then Some "mor"
  else if (current_total_minutes <? 1230)%Z then Some "day"
  else Some "evn".

(** [utc_now] is what [datetime.now(timezone.utc)] returns. *)
Definition get_now_ist (utc_now : datetime) : Py.result datetime := plus_5h30 utc_now.

(** The script's entry: [now_detect] is the IST clock read inside
    [detect_time_slot], [now_crawl] the one read by [crawl_and_process]. *)
Definition entry (w : world) (lib : libs) (now_detect now_crawl : datetime) : act unit :=
  match detect_time_slot now_detect with
  | None => mret tt
  | Some slot => crawl_and_process w lib now_crawl slot
  end.

End Singapore.

(** ** lucky_number_updater.py *)

Module Lucky.

Definition API_URL : string := "https://supervillain.pythonanywhere.com/api/luckyNumber/".
Definition TYPES : list string := ["singapore"; "dear"].

(** The random generator: [rand k] is the value of the [k]-th call of
    [random.randint(0, 9)] of the run; the state is the number of calls
    made so far. *)
Definition rng := nat → Z.

Definition generate_lucky_string (rand : rng) (pos : nat) : string * nat :=
  let digits := map (λ i, str_int (rand (pos + i)%nat)) (seq 0 4) in
  (join ", " digits, (pos + 4)%nat).

Definition check_if_exists (w : world) (lotto_type today_str : string) : act bool :=
  catch
    (response ← send w (Get API_URL [("type", lotto_type); ("date", today_str)]);
     if (status_code response =? 200)%Z then
       data ← lift (json_of response);
       lucky ← lift (get data "lucky");
       if truthy lucky then
         lucky' ← lift (get data "lucky");
         if negb (eq_str lucky' "") then mret true else mret false
       else mret false
     else mret false)
    (λ _, mret false).

(** [{"type": lotto_type, "date": today_str, "lucky": lucky, "active": True}] *)
Definition lucky_payload (lotto_type today_str lucky : string) : gmap string json :=
  <["active" := JBool true]> (<["lucky" := JStr lucky]>
    (<["date" := JStr today_str]> (<["type" := JStr lotto_type]> ∅))).

(** The loop of [update_numbers]; the state of the generator is threaded
    through it. *)
Fixpoint update_loop (w : world) (rand : rng) (today_str : string)
    (types : list string) (pos : nat) : act nat :=
  match types with
  | [] => mret pos
  | lotto_type :: rest =>
      found ← check_if_exists w lotto_type today_str;
      if (found : bool) then update_loop w rand today_str rest pos
      else
        let '(lucky, pos') := generate_lucky_string rand pos in
        catch
          (send w (PostJson API_URL (lucky_payload lotto_type today_str lucky));;
           mret tt)
          (λ _, mret tt);;
        update_loop w rand today_str rest pos'
  end.

Definition update_numbers (w : world) (rand : rng) (ist_now : datetime) : act nat :=
  let today_str := strftime_date ist_now in
  update_loop w rand today_str TYPES 0%nat.

(** [utc_now] is what [datetime.now(timezone.utc)] returns. *)
Definition get_now_ist (utc_now : datetime) : result datetime := plus_5h30 utc_now.

End Lucky.

(** * The vocabulary of the properties *)

(** A response with a JSON body, and the world that always gives the same
    answer. *)
Definition json_reply (status : Z) (v : json) : response :=
  {| status_code := status; text := ""; content := []; json_body := Some v |}.

Definition answering (r : result response) : world := λ _ _, r.

(** The declared slots, in declaration order, and the hour after which
    the cumulative planner considers each. *)
Definition declared_slots : list string := ["mor"; "day"; "evn"].

Definition eligibility : list (string * Z) := [("mor", 13); ("day", 18); ("evn", 20)].

(** The record's value for [slot] is the placeholder. *)
Definition holds_placeholder (m : gmap string json) (slot : string) : bool :=
  eq_str (default JNull (m !! slot)) placeholder.

(** [s] is the rightmost substring of length [k] of [num]. *)
Definition rightmost (k : nat) (num s : string) : Prop :=
  String.length s = k ∧ ∃ pre, num = pre +:+ s.

(** Five consecutive digits [g] start at index [i] of [s]. *)
Definition five_digits_at (s : string) (i : nat) (g : string) : Prop :=
  ∃ pre post, s = pre +:+ g +:+ post ∧ String.length pre = i
              ∧ String.length g = 5%nat ∧ all_digits g = true.

(** An OCR engine that reads the given fragments on every image. *)
Definition ocr_reading (fragments : list string) : Dear.libs :=
  {| Dear.readtext := λ _, Ok fragments;
     Dear.find_img := λ _, None;
     Dear.recompress := λ b, Ok b |}.

(** A run of exactly five digits: five consecutive digits with no digit
    right before and none right after. *)
Definition run_of_exactly_five (s : string) (i : nat) (g : string) : Prop :=
  ∃ pre post, s = pre +:+ g +:+ post ∧ String.length pre = i
    ∧ String.length g = 5%nat ∧ all_digits g = true
    ∧ (∀ pre' c, pre = pre' +:+ String c "" → is_digit c = false)
    ∧ (∀ c post', post = String c post' → is_digit c = false).

Definition non_success (r : response) : Prop :=
  (400 ≤ status_code r < 600)%Z.

Definition dated (today : string) (entry : json) : Prop :=
  ∃ m, entry = JObj m ∧ m !! "date" = Some (JStr today).

Definition dated_otherwise (today : string) (entry : json) : Prop :=
  ∃ m, entry = JObj m ∧ m !! "date" ≠ Some (JStr today).

(** What the claim asks of a state fetcher reading [api]. *)
Definition fetch_contract (fetch : world → string → act json) (api : string) : Prop :=
  ∀ (w : world) (today : string) (tr : trace),
    let rq := Get api [("date", today)] in
    ∃ v, fetch w today tr = (Ok v, tr ++ [rq])
      ∧ (∀ e, w tr rq = Raise e → v = JObj (fresh today))
      ∧ (∀ r, w tr rq = Ok r → non_success r → v = JObj (fresh today))
      ∧ (∀ r, w tr rq = Ok r → json_body r = None → v = JObj (fresh today))
      ∧ (∀ r data, w tr rq = Ok r → ¬ non_success r → json_body r = Some data →
           (∀ entries, data = JArr entries →
              (∀ pre entry post, entries = pre ++ entry :: post →
                 Forall (dated_otherwise today) pre → dated today entry → v = entry)
              ∧ (Forall (λ e, ¬ dated today e) entries → v = JObj (fresh today))
              ∧ (∀ pre entry post, entries = pre ++ entry :: post →
                   Forall (dated_otherwise today) pre → (∀ m, entry ≠ JObj m) →
                   v = JObj (fresh today)))
           ∧ ((∀ entries, data ≠ JArr entries) → v = data)).

(** What either fetcher does with a response that passed the status check. *)
Definition after_status (r : response) (today : string) : act json :=
  data ← lift (json_of r);
  match data with
  | JArr entries =>
      found ← lift (find_today entries today);
      match found with
      | Some entry => mret entry
      | None => mret (JObj (fresh today))
      end
  | _ => mret data
  end.

(** Two entries of a list response: yesterday's and today's. *)
Definition entry_yesterday : json :=
  JObj (<["date" := JStr "2026-02-02"]> (<["mor" := JStr "118"]> (<["day" := JStr "904"]>
    (<["evn" := JStr "377"]> ∅)))).

Definition entry_today : json :=
  JObj (<["date" := JStr "2026-02-03"]> (<["mor" := JStr "497"]> (<["day" := JStr "-"]>
    (<["evn" := JStr "-"]> ∅)))).

(** A payload with the full day-record shape where only [slot] carries the
    value [v]. *)
Definition target_only (today slot v : string) (p : gmap string json) : Prop :=
  p !! slot = Some (JStr v)
  ∧ (∀ s, s ∈ declared_slots → s ≠ slot → p !! s = Some (JStr "-"))
  ∧ p !! "date" = Some (JStr today)
  ∧ dom p = ({["date"; "mor"; "day"; "evn"]} : gset string).

(** Everything [post_data] sends when nothing fails, in order. *)
Definition dear_posts (lib : Dear.libs) (today slot : string) (dg : Dear.digits)
    (image_bytes : list byte) : list request :=
  [PostJson (Dear.API_DEAR +:+ "last-digit" +:+ "/") (payload_for today slot (Dear.l1 dg));
   PostJson (Dear.API_DEAR +:+ "last-two-digit" +:+ "/") (payload_for today slot (Dear.l2 dg));
   PostJson (Dear.API_DEAR +:+ "last-three-digit" +:+ "/") (payload_for today slot (Dear.l3 dg))]
  ++ match Dear.recompress lib image_bytes with
     | Ok buf => [PostMultipart Dear.API_FAX
                    [("image", ("result.jpg", buf, "image/jpeg"))]
                    [("type", "dear"); ("date", today); ("time", slot)]]
     | Raise _ => []
     end.

(** A page whose image was uploaded in January 2026. *)
Definition january_page : Dear.libs :=
  {| Dear.readtext := λ _, Ok ["82497"];
     Dear.find_img := λ _, Some (Some "https://lotterysambad.one/wp-content/uploads/2026/01/MD310126.jpg");
     Dear.recompress := λ b, Ok b |}.

Definition html_reply : response :=
  {| status_code := 200; text := "<html></html>"; content := []; json_body := None |}.

(** The character of a decimal digit. *)
Definition digit_char (d : Z) : ascii := Ascii.ascii_of_nat (48 + Z.to_nat d).

(** The request of the existence check. *)
Definition lucky_get (lotto_type today : string) : request :=
  Get Lucky.API_URL [("type", lotto_type); ("date", today)].

(** The existence check found a value for the category: status 200 and a
    dict whose "lucky" is a non-empty value. *)
Definition reports_existing (reply : result response) : Prop :=
  ∃ r m v, reply = Ok r ∧ status_code r = 200%Z ∧ json_body r = Some (JObj m)
           ∧ m !! "lucky" = Some v ∧ truthy v = true.

(** The fields of a [datetime] are in range. *)
Definition valid_datetime (t : datetime) : Prop :=
  (1 ≤ Z.of_nat (year t) ≤ 9999)%Z ∧ (1 ≤ month t ≤ 12)%nat
  ∧ (1 ≤ day t ≤ days_in_month (year t) (month t))%nat
  ∧ (0 ≤ hour t < 24)%Z ∧ (0 ≤ minute t < 60)%Z.

(** Minutes since midnight. *)
Definition minute_of_day (t : datetime) : Z := (hour t * 60 + minute t)%Z.

(** The time windows of [detect_time_slot] read on the UTC clock. *)
Definition slot_at_utc (utc_minute : Z) : option string :=
  if (utc_minute <? 420)%Z then None
  else if (utc_minute <? 660)%Z then Some "mor"
  else if (utc_minute <? 900)%Z then Some "day"
  else if (utc_minute <? 1110)%Z then Some "evn"
  else None.

(** Days from 1970-01-01 to [y]-[m]-[d] in the proleptic Gregorian
    calendar, counted by eras of 400 years (146097 days) with the year
    begun in March; it reads no table of month lengths and makes no
    leap-year test. *)
Definition days_from_civil (y m d : nat) : Z :=
  (let y' := if Z.of_nat m <=? 2 then Z.of_nat y - 1 else Z.of_nat y in
   let era := y' / 400 in
   let yoe := y' - era * 400 in
   let mp := if Z.of_nat m <=? 2 then Z.of_nat m + 9 else Z.of_nat m - 3 in
   let doy := (153 * mp + 2) / 5 + Z.of_nat d - 1 in
   let doe := yoe * 365 + yoe / 4 - yoe / 100 + doy in
   era * 146097 + doe - 719468)%Z.

(** The month that follows month [m] of year [y]. *)
Definition month_after (y m : nat) : nat * nat :=
  if Nat.ltb m 12 then (y, S m) else (S y, 1%nat).

(** A date of the calendar: a month from 1 to 12 and a day from 1 that
    comes, on the day count, before the first day of the month after. *)
Definition civil_date (y m d : nat) : Prop :=
  (1 ≤ m ≤ 12)%nat ∧ (1 ≤ d)%nat
  ∧ (days_from_civil y m d
     < days_from_civil (fst (month_after y m)) (snd (month_after y m)) 1)%Z.

(** A [datetime] that Python can hold: a date of the calendar in the
    years 1 to 9999 and a time of day. *)
Definition civil_datetime (t : datetime) : Prop :=
  (1 ≤ Z.of_nat (year t) ≤ 9999)%Z ∧ civil_date (year t) (month t) (day t)
  ∧ (0 ≤ hour t < 24)%Z ∧ (0 ≤ minute t < 60)%Z.

(** Minutes from 1970-01-01 00:00 to [t]. *)
Definition epoch_minutes (t : datetime) : Z :=
  (days_from_civil (year t) (month t) (day t) * 1440 + hour t * 60 + minute t)%Z.

(** Minutes from 1970-01-01 00:00 to 10000-01-01 00:00, the first instant
    past the years [datetime] can hold. *)
Definition calendar_end : Z := (days_from_civil (Z.to_nat 10000) 1 1 * 1440)%Z.

(** Whether a publisher goes on after a reply: an exception of the
    transport always stops it; an error status stops it only when the
    publisher checks the status. *)
Definition accepted (checked : bool) (reply : result response) : bool :=
  match reply with
  | Ok r => if checked then match raise_for_status r with Ok _ => true | Raise _ => false end
            else true
  | Raise _ => false
  end.

(** The requests of [rqs] that are sent, in order: each is sent, and the
    next one only when the reply to it was accepted. *)
Fixpoint sent_until_failure (checked : bool) (w : world) (tr : trace)
    (rqs : list request) : list request :=
  match rqs with
  | [] => []
  | rq :: rest =>
      rq :: (if accepted checked (w tr rq)
             then sent_until_failure checked w (tr ++ [rq]) rest
             else [])
  end.

(** Everything the PDF crawler posts for a slot when nothing fails. *)
Definition singapore_posts (lib : Singapore.libs) (today slot : string)
    (dg : Singapore.digits) (pdf_bytes : list byte) : list request :=
  [PostJson Singapore.API_LAST_1 (payload_for today slot (Singapore.last_1 dg));
   PostJson Singapore.API_LAST_2 (payload_for today slot (Singapore.last_2 dg));
   PostJson Singapore.API_LAST_3 (payload_for today slot (Singapore.last_3 dg))]
  ++ match Singapore.pdf_jpeg lib pdf_bytes with
     | Ok img => [PostMultipart Singapore.API_FAX
                    [("image", ("result.jpg", img, "image/jpeg"))]
                    [("type", "singapore"); ("date", today); ("time", slot)]]
     | Raise _ => []
     end.

(** What a slot's iteration of the PDF crawler sends after the GET of its
    PDF. *)
Definition after_pdf (w : world) (lib : Singapore.libs) (today slot : string)
    (tr : trace) (pdf_get : request) (posts : list request) : Prop :=
  posts = []
  ∨ ∃ pdf dg,
      w tr pdf_get = Ok pdf ∧ ¬ non_success pdf
      ∧ Singapore.extract_digits_from_pdf_bytes lib (content pdf) = Ok dg
      ∧ posts = sent_until_failure true w (tr ++ [pdf_get])
                  (singapore_posts lib today slot dg (content pdf)).

(** A request that publishes for [slot] on [today]: a digit upsert whose
    payload is built for that slot, or a snapshot tagged with it. *)
Definition publishes_for (kind today slot : string) (rq : request) : Prop :=
  match rq with
  | Get _ _ => False
  | PostJson _ p => ∃ v, p = payload_for today slot v
  | PostMultipart _ _ data => data = [("type", kind); ("date", today); ("time", slot)]
  end.

(** What a slot's iteration sends after the GET of its page. *)
Definition after_page (w : world) (lib : Dear.libs) (ist_now : datetime)
    (today slot : string) (tr : trace) (page : request) (sent : list request) : Prop :=
  sent = []
  ∨ ∃ resp img_url posts,
      w tr page = Ok resp
      ∧ Dear.find_img lib (text resp) = Some (Some img_url)
      ∧ contains (strftime_path ist_now) img_url = true
      ∧ sent = Get img_url [] :: posts
      ∧ (posts = []
         ∨ ∃ img dg,
             w (tr ++ [page]) (Get img_url []) = Ok img
             ∧ Dear.extract_digits lib (content img) = Ok dg
             ∧ posts = sent_until_failure false w ((tr ++ [page]) ++ [Get img_url []])
                         (dear_posts lib today slot dg (content img))).

(** A world that answers every request with the same status and body. *)
Definition always (status : Z) (body : string) : world :=
  λ _ _, Ok {| status_code := status; text := body; content := []; json_body := None |}.

(** A page whose image was uploaded in February 2026 and reads 82497. *)
Definition february_page : Dear.libs :=
  {| Dear.readtext := λ _, Ok ["1st"; "Prize"; "82497"];
     Dear.find_img := λ _, Some (Some "https://lotterysambad.one/wp-content/uploads/2026/02/MD030226.jpg");
     Dear.recompress := λ b, Ok b |}.

(** A PDF library that reads the given text from every document. *)
Definition pdf_reading (text : string) (links : list string) : Singapore.libs :=
  {| Singapore.select_pdf_links := λ _, links;
     Singapore.pdf_text := λ _, Ok text;
     Singapore.pdf_jpeg := λ b, Ok b |}.

(** A world that serves every GET and answers every POST with status 500. *)
Definition rejecting_posts : world :=
  λ _ rq, Ok {| status_code := if is_post rq then 500 else 200;
                text := ""; content := []; json_body := None |}.

(** A string with its ASCII capitals folded, as [re.IGNORECASE] compares. *)
Fixpoint lowered (s : string) : string :=
  match s with
  | EmptyString => EmptyString
  | String c s' => String (lower c) (lowered s')
  end.

Fixpoint all_spaces (s : string) : bool :=
  match s with
  | EmptyString => true
  | String c s' => is_space c && all_spaces s'
  end.

Fixpoint no_newline (s : string) : bool :=
  match s with
  | EmptyString => true
  | String c s' => negb (Ascii.eqb c "010"%char) && no_newline s'
  end.

(** The text holds a "1st Prize" label, in any case and with any white
    space between its two words, followed on the same line by the digits
    [g], four or more. *)
Definition first_prize_at (text g : string) : Prop :=
  ∃ before label1 spaces label2 gap after,
    text = before +:+ label1 +:+ spaces +:+ label2 +:+ gap +:+ g +:+ after
    ∧ lowered label1 = "1st" ∧ all_spaces spaces = true ∧ lowered label2 = "prize"
    ∧ no_newline gap = true ∧ (4 ≤ String.length g)%nat ∧ all_digits g = true.

(** Three published values that fit together: one, two and three decimal
    digits, each the end of the next. *)
Definition consistent_suffixes (d1 d2 d3 : string) : Prop :=
  String.length d1 = 1%nat ∧ String.length d2 = 2%nat ∧ String.length d3 = 3%nat
  ∧ all_digits d3 = true ∧ rightmost 1 d2 d1 ∧ rightmost 2 d3 d2.

(** * Properties *)

#[local] Arguments String.append !_ _ / : simpl nomatch.

(** ** Running the monads *)

Lemma bind_ok {A B : Type} (a : A) (f : A → result B) : (Ok a ≫= f) = f a.
Proof. reflexivity. Qed.

Lemma bind_raise {A B : Type} (e : exn) (f : A → result B) : (Raise e ≫= f) = Raise e.
Proof. reflexivity. Qed.

(** ** The slot planners *)

Lemma eq_str_true (v : json) (s : string) : eq_str v s = true ↔ v = JStr s.
Proof.
  destruct v; simpl; split; try discriminate.
  - intros H. apply bool_decide_eq_true in H. by subst.
  - intros [= ->]. by apply bool_decide_eq_true.
Qed.

Lemma holds_placeholder_lookup (m : gmap string json) (slot : string) :
  holds_placeholder m slot = true ↔ m !! slot = Some (JStr "-").
Proof.
  unfold holds_placeholder, placeholder. rewrite eq_str_true.
  destruct (m !! slot) as [v|]; simpl; split; congruence.
Qed.

Lemma holds_placeholder_absent (m : gmap string json) (slot : string) :
  m !! slot = None → holds_placeholder m slot = false.
Proof. intros H. unfold holds_placeholder. by rewrite H. Qed.

Lemma append_if_placeholder (m : gmap string json) (slot : string) (acc : list string) :
  (if eq_str (default JNull (m !! slot)) "-" then acc ++ [slot] else acc) =
  acc ++ (if holds_placeholder m slot then [slot] else []).
Proof.
  unfold holds_placeholder, placeholder.
  destruct (eq_str _ _); by rewrite ?app_nil_r.
Qed.

Lemma check_slot_obj (m : gmap string json) (h thr : Z) (slot : string)
    (needed : list string) :
  Dear.check_slot (JObj m) h thr slot needed =
  Ok (needed ++ if ((thr <=? h)%Z && holds_placeholder m slot)%bool then [slot] else []).
Proof.
  unfold Dear.check_slot.
  destruct (thr <=? h)%Z; simpl.
  - by rewrite append_if_placeholder.
  - by rewrite app_nil_r.
Qed.

Lemma get_needed_slots_obj (now : datetime) (m : gmap string json) :
  Dear.get_needed_slots now (JObj m) =
  Ok (List.filter
        (λ '(slot, thr), ((thr <=? hour now)%Z && holds_placeholder m slot)%bool)
        eligibility).*1.
Proof.
  unfold Dear.get_needed_slots. rewrite check_slot_obj. simpl.
  rewrite check_slot_obj. simpl. rewrite check_slot_obj.
  destruct (_ && holds_placeholder m "mor")%bool,
           (_ && holds_placeholder m "day")%bool,
           (_ && holds_placeholder m "evn")%bool; reflexivity.
Qed.

Lemma crawl_loop_obj (m : gmap string json) (cur : string)
    (pre : list (string * string)) (label : string) (post : list (string * string))
    (acc : list string) :
  cur ∉ pre.*2 →
  Singapore.crawl_loop (pre ++ (label, cur) :: post) (JObj m) cur acc =
  Ok (acc ++ List.filter (holds_placeholder m) (pre.*2 ++ [cur])).
Proof.
  revert acc. induction pre as [|[l s] pre IH]; intros acc Hnot; simpl.
  - rewrite bool_decide_eq_true_2 by done. by rewrite append_if_placeholder.
  - apply not_elem_of_cons in Hnot as [Hne Hnot].
    simpl in Hne. rewrite bool_decide_eq_false_2 by congruence.
    rewrite IH by done. rewrite append_if_placeholder.
    destruct (holds_placeholder m s); by rewrite <- ?app_assoc, ?app_nil_r.
Qed.

Lemma crawl_loop_total (m : gmap string json) (cur : string)
    (order : list (string * string)) (acc : list string) :
  ∃ out, Singapore.crawl_loop order (JObj m) cur acc = Ok out
    ∧ ∀ s, s ∈ out → s ∈ acc ∨ holds_placeholder m s = true.
Proof.
  revert acc. induction order as [|[l s] order IH]; intros acc; simpl.
  - eauto.
  - rewrite append_if_placeholder.
    assert (∀ x, x ∈ acc ++ (if holds_placeholder m s then [s] else [])
                 → x ∈ acc ∨ holds_placeholder m x = true) as Hacc.
    { intros x [Hx|Hx]%elem_of_app; [by left|].
      destruct (holds_placeholder m s) eqn:E; [|by apply elem_of_nil in Hx].
      apply list_elem_of_singleton in Hx. subst. by right. }
    case_bool_decide.
    + eauto.
    + destruct (IH (acc ++ (if holds_placeholder m s then [s] else [])))
        as (out & -> & Hout).
      eexists; split; [done|]. intros x Hx.
      destruct (Hout x Hx) as [?|?]; [auto|by right].
Qed.

(** C1. The cumulative planner on a day record [m] at hour [hour now]: a
    slot is returned exactly when its eligibility hour (13 for mor, 18 for
    day, 20 for evn) is reached and the record holds the placeholder for it;
    the result follows the declaration order mor, day, evn. *)
Theorem cumulative_planner_needed (now : datetime) (m : gmap string json) :
  ∃ out, Dear.get_needed_slots now (JObj m) = Ok out
    ∧ (∀ slot thr, (slot, thr) ∈ eligibility →
         (slot ∈ out ↔ (thr ≤ hour now)%Z ∧ m !! slot = Some (JStr "-")))
    ∧ out `sublist_of` declared_slots.
Proof.
  rewrite get_needed_slots_obj. eexists; split; [reflexivity|].
  split.
  - intros slot thr Hin.
    rewrite <- (Z.leb_le thr), <- holds_placeholder_lookup, <- andb_true_iff.
    split.
    + intros Hout. apply list_elem_of_fmap in Hout as ([s thr'] & -> & Hf).
      apply list_elem_of_In, filter_In in Hf as [Hin' Hf]. simpl.
      enough (thr' = thr) by (subst; exact Hf).
      apply list_elem_of_In in Hin'. unfold eligibility in *.
      repeat (apply elem_of_cons in Hin as [Hin|Hin]);
        repeat (apply elem_of_cons in Hin' as [Hin'|Hin']);
        try (by apply elem_of_nil in Hin); try (by apply elem_of_nil in Hin');
        by simplify_eq/=.
    + intros Hc. apply list_elem_of_fmap. exists (slot, thr). split; [done|].
      apply list_elem_of_In, filter_In. split; [by apply list_elem_of_In|done].
  - unfold eligibility, declared_slots. simpl.
    destruct (_ && holds_placeholder m "mor")%bool,
             (_ && holds_placeholder m "day")%bool,
             (_ && holds_placeholder m "evn")%bool; simpl;
      repeat first [apply sublist_nil | apply sublist_skip | apply sublist_cons].
Qed.

Lemma cumulative_planner_needed_witness :
  let now := {| year := 2026; month := 2; day := 3; hour := 19; minute := 5 |} in
  let m : gmap string json := <["mor" := JStr "497"]> (fresh "2026-02-03") in
  ∃ out, Dear.get_needed_slots now (JObj m) = Ok out
    ∧ (∀ slot thr, (slot, thr) ∈ eligibility →
         (slot ∈ out ↔ (thr ≤ 19)%Z ∧ m !! slot = Some (JStr "-")))
    ∧ out `sublist_of` declared_slots.
Proof.
  exact (cumulative_planner_needed
           {| year := 2026; month := 2; day := 3; hour := 19; minute := 5 |}
           (<["mor" := JStr "497"]> (fresh "2026-02-03"))).
Defined.

(** C2. The sequential planner with [cur] taken from the declared sequence:
    the result is, in declared order, the slots at or before [cur] for which
    the record holds the placeholder; a slot after [cur] is never in it. *)
Theorem sequential_planner_upto_current (m : gmap string json)
    (pre : list string) (cur : string) (post : list string) :
  declared_slots = pre ++ cur :: post →
  ∃ out, Singapore.slots_to_crawl (JObj m) cur = Ok out
    ∧ out = List.filter (holds_placeholder m) (pre ++ [cur])
    ∧ (∀ s, s ∈ out ↔ s ∈ pre ++ [cur] ∧ m !! s = Some (JStr "-"))
    ∧ (∀ s, s ∈ post → s ∉ out).
Proof.
  intros Hdecl.
  assert (Singapore.slots_to_crawl (JObj m) cur =
          Ok (List.filter (holds_placeholder m) (pre ++ [cur]))) as Hrun.
  { unfold declared_slots in Hdecl. unfold Singapore.slots_to_crawl, Singapore.TIME_ORDER.
    destruct pre as [|a [|b [|c pre]]]; simplify_eq/=.
    - apply (crawl_loop_obj m "mor" [] "12.30" [("16.30", "day"); ("20.30", "evn")] []). simpl. apply not_elem_of_nil.
    - apply (crawl_loop_obj m "day" [("12.30", "mor")] "16.30" [("20.30", "evn")] []).
      simpl. rewrite elem_of_cons, elem_of_nil. intros [?|[]]; discriminate.
    - apply (crawl_loop_obj m "evn" [("12.30", "mor"); ("16.30", "day")] "20.30" [] []).
      simpl. rewrite !elem_of_cons, elem_of_nil. intros [?|[?|[]]]; discriminate.
    - destruct pre; discriminate. }
  eexists; split; [exact Hrun|]. split; [done|].
  assert (∀ s, s ∈ List.filter (holds_placeholder m) (pre ++ [cur])
               ↔ s ∈ pre ++ [cur] ∧ m !! s = Some (JStr "-")) as Hmem.
  { intros s. rewrite !list_elem_of_In, filter_In, holds_placeholder_lookup. done. }
  split; [exact Hmem|].
  intros s Hs Hout. apply Hmem in Hout as [Hin _].
  assert (NoDup declared_slots) as Hnd.
  { unfold declared_slots.
    repeat (apply NoDup_cons_2;
            [rewrite ?elem_of_cons, elem_of_nil; intros Hx; repeat destruct Hx as [Hx|Hx]; done|]).
    apply NoDup_nil_2. }
  rewrite Hdecl in Hnd.
  rewrite (cons_middle cur pre post), (assoc_L (++)) in Hnd.
  apply NoDup_app in Hnd as (_ & Hdisj & _). by apply (Hdisj s).
Qed.

Lemma sequential_planner_upto_current_witness :
  ∃ out, Singapore.slots_to_crawl (JObj (<["day" := JStr "41"]> (fresh "2026-02-03"))) "day" = Ok out
    ∧ out = ["mor"]
    ∧ (∀ s, s ∈ out ↔ s ∈ ["mor"; "day"]
            ∧ (<["day" := JStr "41"]> (fresh "2026-02-03") : gmap string json) !! s = Some (JStr "-"))
    ∧ (∀ s, s ∈ ["evn"] → s ∉ out).
Proof.
  exact (sequential_planner_upto_current
           (<["day" := JStr "41"]> (fresh "2026-02-03")) ["mor"] "day" ["evn"] eq_refl).
Defined.

(** C7, as the code has it. A slot with no key in the record is never
    marked as needed, by either planner and at any hour or current slot:
    [db.get(slot)] is [None], which is not the string "-". *)
Theorem absent_slot_never_needed (m : gmap string json) (slot : string) :
  m !! slot = None →
  (∀ now, ∃ out, Dear.get_needed_slots now (JObj m) = Ok out ∧ slot ∉ out)
  ∧ (∀ cur, ∃ out, Singapore.slots_to_crawl (JObj m) cur = Ok out ∧ slot ∉ out).
Proof.
  intros Habs. pose proof (holds_placeholder_absent m slot Habs) as Hno. split.
  - intros now. rewrite get_needed_slots_obj. eexists; split; [reflexivity|].
    intros Hin. apply list_elem_of_fmap in Hin as ([s thr] & -> & Hin).
    apply list_elem_of_In, filter_In in Hin as [_ Hf]. simpl in *.
    rewrite Hno in Hf. by rewrite andb_false_r in Hf.
  - intros cur. unfold Singapore.slots_to_crawl.
    destruct (crawl_loop_total m cur Singapore.TIME_ORDER []) as (out & Hrun & Hout).
    eexists; split; [exact Hrun|]. intros Hin.
    destruct (Hout slot Hin) as [Hnil|Hp]; [by apply elem_of_nil in Hnil|congruence].
Qed.

Lemma absent_slot_never_needed_witness :
  (<["date" := JStr "2026-02-03"]> ∅ : gmap string json) !! "mor" = None
  ∧ (∀ now, ∃ out, Dear.get_needed_slots now (JObj (<["date" := JStr "2026-02-03"]> ∅)) = Ok out
            ∧ "mor" ∉ out)
  ∧ (∀ cur, ∃ out, Singapore.slots_to_crawl (JObj (<["date" := JStr "2026-02-03"]> ∅)) cur = Ok out
            ∧ "mor" ∉ out).
Proof.
  split; [reflexivity|].
  apply (absent_slot_never_needed (<["date" := JStr "2026-02-03"]> ∅) "mor"). reflexivity.
Defined.

(** C7, as stated, fails: at 21:00 all three slots are eligible, and a record
    without slot keys yields no needed slot, where the record holding the
    placeholder for each yields all three. *)
Lemma missing_slot_not_defaulted :
  let now := {| year := 2026; month := 2; day := 3; hour := 21; minute := 0 |} in
  let bare : gmap string json := <["date" := JStr "2026-02-03"]> ∅ in
  bare !! "mor" = None ∧ bare !! "day" = None ∧ bare !! "evn" = None
  ∧ Dear.get_needed_slots now (JObj bare) = Ok []
  ∧ Dear.get_needed_slots now (JObj (fresh "2026-02-03")) = Ok ["mor"; "day"; "evn"]
  ∧ Singapore.slots_to_crawl (JObj bare) "evn" = Ok []
  ∧ Singapore.slots_to_crawl (JObj (fresh "2026-02-03")) "evn" = Ok ["mor"; "day"; "evn"].
Proof. vm_compute. repeat split. Qed.

(** ** Strings: slices, joins and the two searches *)

Lemma take_drop (n : nat) (s : string) : take n s +:+ drop n s = s.
Proof.
  revert s. induction n as [|n IH]; intros [|c s]; simpl; try done.
  by rewrite IH.
Qed.

Lemma length_app (a b : string) :
  String.length (a +:+ b) = (String.length a + String.length b)%nat.
Proof. induction a as [|c a IH]; simpl; [done|]. by rewrite IH. Qed.

Lemma length_drop (n : nat) (s : string) :
  String.length (drop n s) = (String.length s - n)%nat.
Proof. revert s. induction n as [|n IH]; intros [|c s]; simpl; auto with lia. Qed.

Lemma length_take (n : nat) (s : string) :
  String.length (take n s) = (n `min` String.length s)%nat.
Proof.
  revert s. induction n as [|n IH]; intros [|c s]; simpl; try done.
  by rewrite IH.
Qed.

Lemma take_app_length (g post : string) : take (String.length g) (g +:+ post) = g.
Proof. induction g as [|c g IH]; simpl; [by destruct post|]. by rewrite IH. Qed.

Lemma app_assoc_s (a b c : string) : (a +:+ b) +:+ c = a +:+ (b +:+ c).
Proof. induction a as [|x a IH]; simpl; [done|]. by rewrite IH. Qed.

Lemma app_inv_length (a a' b b' : string) :
  a +:+ b = a' +:+ b' → String.length a = String.length a' → a = a' ∧ b = b'.
Proof.
  revert a'. induction a as [|x a IH]; intros [|x' a']; simpl; try done.
  intros [= -> Heq] [= Hlen]. destruct (IH a' Heq Hlen) as [-> ->]. done.
Qed.

Lemma suffix_rightmost (k : nat) (num : string) :
  (k ≤ String.length num)%nat → rightmost k num (suffix k num).
Proof.
  intros Hk. unfold rightmost, suffix. split.
  - rewrite length_drop. lia.
  - exists (take (String.length num - k) num). by rewrite take_drop.
Qed.

Lemma rightmost_unique (k : nat) (num s s' : string) :
  rightmost k num s → rightmost k num s' → s = s'.
Proof.
  intros [Hl [pre Hp]] [Hl' [pre' Hp']].
  assert (String.length pre = String.length pre') as Hlen.
  { apply (f_equal String.length) in Hp, Hp'. rewrite length_app in Hp, Hp'. lia. }
  rewrite Hp in Hp'. by destruct (app_inv_length _ _ _ _ Hp' Hlen).
Qed.

Lemma last_char_nonempty (num : string) :
  (1 ≤ String.length num)%nat → last_char num = Ok (suffix 1 num).
Proof. destruct num; simpl; [lia|done]. Qed.

Lemma all_digits_span (s : string) : all_digits (span_digits s) = true.
Proof.
  induction s as [|c s IH]; simpl; [done|].
  destruct (is_digit c) eqn:E; simpl; [|done]. by rewrite E.
Qed.

Lemma lazy_then_digits_cons (c : ascii) (s : string) :
  lazy_then_digits (String c s) =
  if Nat.leb 4 (String.length (span_digits (String c s)))
  then Some (span_digits (String c s))
  else if Ascii.eqb c "010"%char then None else lazy_then_digits s.
Proof. reflexivity. Qed.

Lemma lazy_then_digits_some (s g : string) :
  lazy_then_digits s = Some g → (4 ≤ String.length g)%nat ∧ all_digits g = true.
Proof.
  revert g. induction s as [|c s IH]; intros g.
  - discriminate.
  - rewrite lazy_then_digits_cons.
    destruct (Nat.leb 4 _) eqn:E.
    + intros Hg. assert (g = span_digits (String c s)) as -> by congruence.
      split; [by apply Nat.leb_le|apply all_digits_span].
    + destruct (Ascii.eqb c _); [discriminate|apply IH].
Qed.

Lemma search_first_prize_some (text g : string) :
  search_first_prize text = Some g → (4 ≤ String.length g)%nat ∧ all_digits g = true.
Proof.
  assert (∀ s, first_prize_here s = Some g →
               (4 ≤ String.length g)%nat ∧ all_digits g = true) as Hhere.
  { intros s. unfold first_prize_here.
    intros (s1 & _ & H)%bind_Some. apply bind_Some in H as (s2 & _ & H).
    by apply lazy_then_digits_some in H. }
  induction text as [|c text IH]; simpl.
  - discriminate.
  - destruct (first_prize_here (String c text)) eqn:E.
    + intros [= <-]. eauto.
    + exact IH.
Qed.

Lemma digits5_here_iff (s : string) :
  digits5_here s = true ↔ five_digits_at s 0 (take 5 s).
Proof.
  unfold digits5_here, five_digits_at. rewrite andb_true_iff, Nat.eqb_eq. split.
  - intros [Hl Hd]. exists "", (drop 5 s). by rewrite take_drop.
  - intros (pre & post & _ & _ & Hl & Hd). done.
Qed.

Lemma five_digits_at_0 (s g : string) : five_digits_at s 0 g → g = take 5 s.
Proof.
  intros (pre & post & -> & Hpre & Hl & _).
  destruct pre; [|done].
  change ("" +:+ g +:+ post) with (g +:+ post). by rewrite <- Hl, take_app_length.
Qed.

Lemma five_digits_at_S (c : ascii) (s : string) (j : nat) (g : string) :
  five_digits_at (String c s) (S j) g ↔ five_digits_at s j g.
Proof.
  split.
  - intros (pre & post & Heq & Hpre & Hl & Hd).
    destruct pre as [|c' pre]; [done|]. simpl in *. simplify_eq.
    by exists pre, post.
  - intros (pre & post & -> & Hpre & Hl & Hd).
    exists (String c pre), post. simpl. auto.
Qed.

Lemma five_digits_at_empty (j : nat) (g : string) : ¬ five_digits_at "" j g.
Proof.
  intros (pre & post & Heq & _ & Hl & _).
  apply (f_equal String.length) in Heq. rewrite !length_app in Heq. simpl in Heq. lia.
Qed.

Lemma search_d5_cons (c : ascii) (s : string) :
  search_d5 (String c s) =
  if digits5_here (String c s)
  then Some {| m_start := 0; m_group := take 5 (String c s) |}
  else shift <$> search_d5 s.
Proof. reflexivity. Qed.

Lemma search_d5_some (s : string) (m : re_match) :
  search_d5 s = Some m →
  five_digits_at s (m_start m) (m_group m)
  ∧ ∀ j g, five_digits_at s j g → (m_start m ≤ j)%nat.
Proof.
  revert m. induction s as [|c s IH]; intros m.
  - discriminate.
  - rewrite search_d5_cons. destruct (digits5_here (String c s)) eqn:E.
    + intros [= <-]. split; [by apply digits5_here_iff|]. intros; simpl; lia.
    + destruct (search_d5 s) as [m'|]; [|discriminate].
      intros [= <-]. destruct (IH m' eq_refl) as [Hat Hmin]. split.
      * by apply five_digits_at_S.
      * intros [|j] g Hg.
        -- pose proof (five_digits_at_0 _ _ Hg) as ->.
           apply digits5_here_iff in Hg. congruence.
        -- apply five_digits_at_S in Hg. apply Hmin in Hg. simpl. lia.
Qed.

Lemma search_d5_none (s : string) :
  search_d5 s = None → ∀ j g, ¬ five_digits_at s j g.
Proof.
  induction s as [|c s IH].
  - intros _ j g. apply five_digits_at_empty.
  - rewrite search_d5_cons.
    destruct (digits5_here (String c s)) eqn:E; [discriminate|].
    destruct (search_d5 s) as [m'|]; [discriminate|].
    intros _ [|j] g Hg.
    + pose proof (five_digits_at_0 _ _ Hg) as ->.
      apply digits5_here_iff in Hg. congruence.
    + apply five_digits_at_S in Hg. by apply (IH eq_refl j g).
Qed.

Lemma take_prefix (n : nat) (s : string) :
  ∃ rest, s = take n s +:+ rest
          ∧ String.length (take n s) = (n `min` String.length s)%nat.
Proof. exists (drop n s). by rewrite take_drop, length_take. Qed.

(** [contains a b] is Python's [a in b]. *)
Lemma prefix_iff (a b : string) : String.prefix a b = true ↔ ∃ post, b = a +:+ post.
Proof.
  revert b. induction a as [|x a IH]; intros b; simpl.
  - destruct b; split; eauto.
  - destruct b as [|y b]; simpl.
    + split; [discriminate|]. by intros [post ?].
    + destruct (Ascii.ascii_dec x y) as [->|Hne].
      * rewrite IH. split; intros [post Hp]; exists post; congruence.
      * split; [discriminate|]. intros [post [= ? _]]. done.
Qed.

Lemma contains_iff (a b : string) :
  contains a b = true ↔ ∃ pre post, b = pre +:+ a +:+ post.
Proof.
  induction b as [|y b IH].
  - change (contains a "") with (String.prefix a "" || false)%bool.
    rewrite orb_true_iff, prefix_iff. split.
    + intros [[post Hp]|?]; [|done]. by exists "", post.
    + intros (pre & post & Hp). left. destruct pre; [by exists post|done].
  - change (contains a (String y b))
      with (String.prefix a (String y b) || contains a b)%bool.
    rewrite orb_true_iff, prefix_iff, IH. split.
    + intros [[post Hp]|(pre & post & Hp)].
      * by exists "", post.
      * exists (String y pre), post. simpl. by rewrite Hp.
    + intros (pre & post & Hp). destruct pre as [|c pre]; simpl in Hp.
      * left. by exists post.
      * right. exists pre, post. congruence.
Qed.

(** ** The extractors *)

(** C3. Both extractors return exactly the rightmost substrings of lengths
    1, 2 and 3 of the number they located, nothing added: when the search of
    the image extractor on the joined OCR text, or the search of the PDF
    extractor on the PDF's text, locates [num], the extractor returns
    [num]'s last character, last two and last three characters; and whatever
    an extractor returns is built in this way from a located number.  The
    image search yields five digits and the PDF search at least four, so the
    located number always has the three characters asked for; for "82497" the
    values are "7", "97" and "497". *)
Theorem suffix_derivation (num : string) :
  (3 ≤ String.length num)%nat →
  rightmost 1 num (suffix 1 num)
  ∧ rightmost 2 num (suffix 2 num)
  ∧ rightmost 3 num (suffix 3 num)
  ∧ (∀ lib image_bytes results m,
       Dear.readtext lib image_bytes = Ok results →
       search_d5 (join " " results) = Some m → m_group m = num →
       Dear.extract_digits lib image_bytes
       = Ok {| Dear.l1 := suffix 1 num; Dear.l2 := suffix 2 num; Dear.l3 := suffix 3 num |})
  ∧ (∀ lib pdf_bytes text,
       Singapore.pdf_text lib pdf_bytes = Ok text →
       search_first_prize text = Some num →
       Singapore.extract_digits_from_pdf_bytes lib pdf_bytes
       = Ok {| Singapore.last_1 := suffix 1 num; Singapore.last_2 := suffix 2 num;
               Singapore.last_3 := suffix 3 num |})
  ∧ (∀ lib image_bytes dg,
       Dear.extract_digits lib image_bytes = Ok dg →
       ∃ results m,
         Dear.readtext lib image_bytes = Ok results
         ∧ search_d5 (join " " results) = Some m
         ∧ String.length (m_group m) = 5%nat
         ∧ rightmost 1 (m_group m) (Dear.l1 dg)
         ∧ rightmost 2 (m_group m) (Dear.l2 dg)
         ∧ rightmost 3 (m_group m) (Dear.l3 dg))
  ∧ (∀ lib pdf_bytes dg,
       Singapore.extract_digits_from_pdf_bytes lib pdf_bytes = Ok dg →
       ∃ text located,
         Singapore.pdf_text lib pdf_bytes = Ok text
         ∧ search_first_prize text = Some located
         ∧ (4 ≤ String.length located)%nat
         ∧ rightmost 1 located (Singapore.last_1 dg)
         ∧ rightmost 2 located (Singapore.last_2 dg)
         ∧ rightmost 3 located (Singapore.last_3 dg))
  ∧ Dear.digits_of_number num
    = Ok {| Dear.l1 := suffix 1 num; Dear.l2 := suffix 2 num; Dear.l3 := suffix 3 num |}
  ∧ Singapore.digits_of_number num
    = Ok {| Singapore.last_1 := suffix 1 num; Singapore.last_2 := suffix 2 num;
            Singapore.last_3 := suffix 3 num |}.
Proof.
  intros Hlen.
  assert (∀ n, (3 ≤ String.length n)%nat →
            Dear.digits_of_number n
            = Ok {| Dear.l1 := suffix 1 n; Dear.l2 := suffix 2 n; Dear.l3 := suffix 3 n |})
    as Hdear.
  { intros n Hn. unfold Dear.digits_of_number. by rewrite last_char_nonempty by lia. }
  assert (∀ n, (3 ≤ String.length n)%nat →
            Singapore.digits_of_number n
            = Ok {| Singapore.last_1 := suffix 1 n; Singapore.last_2 := suffix 2 n;
                    Singapore.last_3 := suffix 3 n |}) as Hsing.
  { intros n Hn. unfold Singapore.digits_of_number. by rewrite last_char_nonempty by lia. }
  split; [apply suffix_rightmost; lia|].
  split; [apply suffix_rightmost; lia|].
  split; [apply suffix_rightmost; lia|].
  split; [|split; [|split; [|split; [|split; [by apply Hdear|by apply Hsing]]]]].
  - intros lib image_bytes results m Hocr Hm Hnum.
    unfold Dear.extract_digits. rewrite Hocr, bind_ok.
    unfold Dear.digits_of_fragments. rewrite Hm, Hnum. by apply Hdear.
  - intros lib pdf_bytes text Htext Hs.
    unfold Singapore.extract_digits_from_pdf_bytes. rewrite Htext, bind_ok.
    unfold Singapore.digits_of_text. rewrite Hs. by apply Hsing.
  - intros lib image_bytes dg. unfold Dear.extract_digits.
    destruct (Dear.readtext lib image_bytes) as [results|e]; [|discriminate].
    rewrite bind_ok. unfold Dear.digits_of_fragments.
    destruct (search_d5 (join " " results)) as [m|] eqn:Hm; [|discriminate].
    destruct (search_d5_some _ _ Hm) as [(pre & post & _ & _ & Hl & _) _].
    rewrite Hdear by lia. intros Hdg.
    assert (dg = {| Dear.l1 := suffix 1 (m_group m); Dear.l2 := suffix 2 (m_group m);
                    Dear.l3 := suffix 3 (m_group m) |}) as -> by congruence.
    exists results, m. split; [done|]. split; [done|]. split; [done|].
    cbn [Dear.l1 Dear.l2 Dear.l3].
    split; [|split]; apply suffix_rightmost; lia.
  - intros lib pdf_bytes dg. unfold Singapore.extract_digits_from_pdf_bytes.
    destruct (Singapore.pdf_text lib pdf_bytes) as [text|e]; [|discriminate].
    rewrite bind_ok. unfold Singapore.digits_of_text.
    destruct (search_first_prize text) as [located|] eqn:Hs; [|discriminate].
    destruct (search_first_prize_some _ _ Hs) as [Hl _].
    rewrite Hsing by lia. intros Hdg.
    assert (dg = {| Singapore.last_1 := suffix 1 located; Singapore.last_2 := suffix 2 located;
                    Singapore.last_3 := suffix 3 located |}) as -> by congruence.
    exists text, located. split; [done|]. split; [done|]. split; [done|].
    cbn [Singapore.last_1 Singapore.last_2 Singapore.last_3].
    split; [|split]; apply suffix_rightmost; lia.
Qed.

Lemma suffix_derivation_witness :
  (3 ≤ String.length "82497")%nat
  ∧ rightmost 1 "82497" "7"
  ∧ rightmost 2 "82497" "97"
  ∧ rightmost 3 "82497" "497"
  ∧ Dear.extract_digits (ocr_reading ["1st"; "Prize"; "82497"; "Rs"; "1"; "Crore"]) []
    = Ok {| Dear.l1 := "7"; Dear.l2 := "97"; Dear.l3 := "497" |}
  ∧ Singapore.extract_digits_from_pdf_bytes (pdf_reading "1st Prize 82497 2nd Prize 11111" []) []
    = Ok {| Singapore.last_1 := "7"; Singapore.last_2 := "97"; Singapore.last_3 := "497" |}.
Proof.
  assert (3 ≤ String.length "82497")%nat as Hlen by (simpl; lia).
  destruct (suffix_derivation "82497" Hlen) as (H1 & H2 & H3 & Himage & Hpdf & _).
  split; [exact Hlen|]. split; [exact H1|]. split; [exact H2|]. split; [exact H3|].
  split.
  - exact (Himage (ocr_reading ["1st"; "Prize"; "82497"; "Rs"; "1"; "Crore"]) []
             ["1st"; "Prize"; "82497"; "Rs"; "1"; "Crore"]
             {| m_start := 10; m_group := "82497" |} eq_refl eq_refl eq_refl).
  - exact (Hpdf (pdf_reading "1st Prize 82497 2nd Prize 11111" []) []
             "1st Prize 82497 2nd Prize 11111" eq_refl eq_refl).
Defined.

(** C6, as the code has it. The image extractor joins the OCR fragments
    with single spaces and takes the first five consecutive digits of the
    joined text, wherever they stand (also at the head of a longer run of
    digits), and returns their suffixes; when no five consecutive digits
    exist it raises the error whose message ends with the first 50
    characters of the joined text. *)
Theorem image_extraction (lib : Dear.libs) (image_bytes : list byte)
    (results : list string) :
  Dear.readtext lib image_bytes = Ok results →
  let full_text := join " " results in
  ((∃ i g, five_digits_at full_text i g
           ∧ (∀ j g', five_digits_at full_text j g' → (i ≤ j)%nat)
           ∧ Dear.extract_digits lib image_bytes
             = Ok {| Dear.l1 := suffix 1 g; Dear.l2 := suffix 2 g; Dear.l3 := suffix 3 g |})
   ∨ ((∀ j g', ¬ five_digits_at full_text j g')
      ∧ Dear.extract_digits lib image_bytes
        = Raise (ValueError ("1st Prize not detected. OCR saw: " +:+ take 50 full_text))))
  ∧ (∃ rest, full_text = take 50 full_text +:+ rest
             ∧ String.length (take 50 full_text) = (50 `min` String.length full_text)%nat).
Proof.
  intros Hocr full_text. split; [|apply take_prefix].
  unfold Dear.extract_digits. rewrite Hocr, bind_ok.
  unfold Dear.digits_of_fragments. fold full_text.
  destruct (search_d5 full_text) as [m|] eqn:E.
  - left. destruct (search_d5_some _ _ E) as [Hat Hmin].
    exists (m_start m), (m_group m). split; [done|]. split; [done|].
    destruct Hat as (pre & post & _ & _ & Hl & _).
    unfold Dear.digits_of_number. by rewrite last_char_nonempty by lia.
  - right. split; [|done]. by apply search_d5_none.
Qed.

Lemma image_extraction_witness :
  let full_text := "Rs 1 Crore 82497 11111" in
  ((∃ i g, five_digits_at full_text i g
           ∧ (∀ j g', five_digits_at full_text j g' → (i ≤ j)%nat)
           ∧ Dear.extract_digits (ocr_reading ["Rs"; "1"; "Crore"; "82497"; "11111"]) []
             = Ok {| Dear.l1 := suffix 1 g; Dear.l2 := suffix 2 g; Dear.l3 := suffix 3 g |})
   ∨ ((∀ j g', ¬ five_digits_at full_text j g')
      ∧ Dear.extract_digits (ocr_reading ["Rs"; "1"; "Crore"; "82497"; "11111"]) []
        = Raise (ValueError ("1st Prize not detected. OCR saw: " +:+ take 50 full_text))))
  ∧ (∃ rest, full_text = take 50 full_text +:+ rest
             ∧ String.length (take 50 full_text) = (50 `min` String.length full_text)%nat).
Proof.
  exact (image_extraction (ocr_reading ["Rs"; "1"; "Crore"; "82497"; "11111"]) []
           ["Rs"; "1"; "Crore"; "82497"; "11111"] eq_refl).
Defined.

(** C6, as stated, fails: the text "123456" holds no run of exactly five
    digits, yet no error is raised; the suffixes of "12345" are returned. *)
Lemma six_digits_are_matched :
  (∀ i g, ¬ run_of_exactly_five "123456" i g)
  ∧ Dear.extract_digits (ocr_reading ["123456"]) []
    = Ok {| Dear.l1 := "5"; Dear.l2 := "45"; Dear.l3 := "345" |}.
Proof.
  split; [|reflexivity].
  intros i g (pre & post & Heq & _ & Hl & _ & Hbefore & Hafter).
  destruct g as [|g1 [|g2 [|g3 [|g4 [|g5 [|g6 g]]]]]]; simpl in Hl; try lia.
  pose proof (f_equal String.length Heq) as Hlen.
  rewrite !length_app in Hlen. simpl in Hlen.
  destruct pre as [|p1 [|p2 pre]]; simpl in Hlen; [| |lia]; cbn in Heq; simplify_eq.
  - by specialize (Hafter "6"%char "" eq_refl).
  - by specialize (Hbefore "" "1"%char eq_refl).
Qed.

(** ** The state fetcher *)

Lemma run_bind {A B : Type} (m : act A) (f : A → act B) (tr : trace) :
  (m ≫= f) tr = match m tr with
                | (Ok a, tr') => f a tr'
                | (Raise e, tr') => (Raise e, tr')
                end.
Proof. reflexivity. Qed.

Lemma run_catch {A : Type} (body : act A) (h : exn → act A) (tr : trace) :
  catch body h tr = match body tr with
                    | (Ok a, tr') => (Ok a, tr')
                    | (Raise e, tr') => h e tr'
                    end.
Proof. reflexivity. Qed.

Lemma run_send (w : world) (rq : request) (tr : trace) :
  send w rq tr = (w tr rq, tr ++ [rq]).
Proof. reflexivity. Qed.

Lemma run_lift {A : Type} (r : result A) (tr : trace) : lift r tr = (r, tr).
Proof. reflexivity. Qed.

Lemma run_ret {A : Type} (a : A) (tr : trace) : (mret a : act A) tr = (Ok a, tr).
Proof. reflexivity. Qed.

Lemma bind_lift_ok {A B : Type} (a : A) (f : A → act B) (tr : trace) :
  (lift (Ok a) ≫= f) tr = f a tr.
Proof. reflexivity. Qed.

Lemma bind_lift_raise {A B : Type} (e : exn) (f : A → act B) (tr : trace) :
  (lift (Raise e : result A) ≫= f) tr = (Raise e, tr).
Proof. reflexivity. Qed.

Lemma bind_send {B : Type} (w : world) (rq : request) (f : response → act B) (tr : trace) :
  (send w rq ≫= f) tr = match w tr rq with
                        | Ok r => f r (tr ++ [rq])
                        | Raise e => (Raise e, tr ++ [rq])
                        end.
Proof. unfold mbind, act_bind, send. by destruct (w tr rq). Qed.

Ltac run := rewrite ?run_catch, ?run_bind, ?run_send, ?run_lift, ?run_ret.

Lemma raise_for_status_ok (r : response) :
  ¬ non_success r → raise_for_status r = Ok tt.
Proof.
  unfold non_success, raise_for_status. intros H.
  destruct (400 <=? status_code r)%Z eqn:E1, (status_code r <? 600)%Z eqn:E2; simpl; try done.
  apply Z.leb_le in E1. apply Z.ltb_lt in E2. lia.
Qed.

Lemma raise_for_status_raises (r : response) :
  non_success r → raise_for_status r = Raise (HTTPError (status_code r)).
Proof.
  unfold non_success, raise_for_status. intros [H1 H2].
  apply Z.leb_le in H1. apply Z.ltb_lt in H2. by rewrite H1, H2.
Qed.

Lemma find_today_cons (entry : json) (rest : list json) (today : string) :
  find_today (entry :: rest) today =
  (get entry "date" ≫= λ d, if eq_str d today then Ok (Some entry) else find_today rest today).
Proof. reflexivity. Qed.

Lemma get_date_dated (today : string) (entry : json) :
  dated today entry → ∃ d, get entry "date" = Ok d ∧ eq_str d today = true.
Proof.
  intros (m & -> & Hd). exists (JStr today). simpl. rewrite Hd. split; [done|].
  by apply bool_decide_eq_true.
Qed.

Lemma get_date_otherwise (today : string) (entry : json) :
  dated_otherwise today entry → ∃ d, get entry "date" = Ok d ∧ eq_str d today = false.
Proof.
  intros (m & -> & Hd). simpl. eexists; split; [done|].
  destruct (eq_str _ today) eqn:E; [|done].
  apply eq_str_true in E. destruct (m !! "date"); simpl in E; congruence.
Qed.

Lemma find_today_first (today : string) (pre : list json) (entry : json) (post : list json) :
  Forall (dated_otherwise today) pre → dated today entry →
  find_today (pre ++ entry :: post) today = Ok (Some entry).
Proof.
  intros Hpre Hd. induction Hpre as [|x pre Hx _ IH]; simpl app; rewrite find_today_cons.
  - destruct (get_date_dated _ _ Hd) as (d & -> & Hm). by rewrite bind_ok, Hm.
  - destruct (get_date_otherwise _ _ Hx) as (d & -> & Hm). by rewrite bind_ok, Hm.
Qed.

Lemma find_today_malformed (today : string) (pre : list json) (entry : json) (post : list json) :
  Forall (dated_otherwise today) pre → (∀ m, entry ≠ JObj m) →
  find_today (pre ++ entry :: post) today = Raise AttributeError.
Proof.
  intros Hpre Hd. induction Hpre as [|x pre Hx _ IH]; simpl app; rewrite find_today_cons.
  - destruct entry; try done. by destruct (Hd m).
  - destruct (get_date_otherwise _ _ Hx) as (d & -> & Hm). by rewrite bind_ok, Hm.
Qed.

Lemma find_today_no_match (today : string) (entries : list json) :
  Forall (λ e, ¬ dated today e) entries →
  find_today entries today = Ok None ∨ ∃ e, find_today entries today = Raise e.
Proof.
  induction 1 as [|x l Hx _ IH]; [by left|]. rewrite find_today_cons.
  destruct x; try (right; by eexists).
  simpl get. rewrite bind_ok. destruct (eq_str _ today) eqn:E; [|done].
  destruct Hx. exists m. split; [done|]. apply eq_str_true in E.
  destruct (m !! "date"); simpl in E; congruence.
Qed.

Lemma after_status_spec (r : response) (today : string) (tr : trace) :
  ∃ v, catch (after_status r today) (λ _, mret (JObj (fresh today))) tr = (Ok v, tr)
    ∧ (json_body r = None → v = JObj (fresh today))
    ∧ (∀ data, json_body r = Some data →
         (∀ entries, data = JArr entries →
            (∀ pre entry post, entries = pre ++ entry :: post →
               Forall (dated_otherwise today) pre → dated today entry → v = entry)
            ∧ (Forall (λ e, ¬ dated today e) entries → v = JObj (fresh today))
            ∧ (∀ pre entry post, entries = pre ++ entry :: post →
                 Forall (dated_otherwise today) pre → (∀ m, entry ≠ JObj m) →
                 v = JObj (fresh today)))
         ∧ ((∀ entries, data ≠ JArr entries) → v = data)).
Proof.
  unfold after_status, json_of. run.
  destruct (json_body r) as [data|] eqn:Hbody.
  2:{ eexists; split; [reflexivity|]. split; [done|]. intros ? [=]. }
  destruct data as [| | | | |entries|m];
    try (eexists; split; [reflexivity|]; split; [discriminate|];
         intros ? [= <-]; split; [discriminate|done]).
  run. destruct (find_today entries today) as [[entry|]|e] eqn:Hfind; run;
    (eexists; split; [reflexivity|]; split; [discriminate|]);
    intros ? [= <-]; (split; [|intros Hn; by destruct (Hn entries)]);
    intros ? [= <-].
  - split; [|split].
    + intros pre e' post -> Hpre Hd. rewrite find_today_first in Hfind by done. congruence.
    + intros Hno. destruct (find_today_no_match _ _ Hno) as [?|[? ?]]; congruence.
    + intros pre e' post -> Hpre Hd. rewrite find_today_malformed in Hfind by done. congruence.
  - split; [|split]; [|done|done].
    intros pre e' post -> Hpre Hd. rewrite find_today_first in Hfind by done. congruence.
  - split; [|split]; [|done|done].
    intros pre e' post -> Hpre Hd. rewrite find_today_first in Hfind by done. congruence.
Qed.

Lemma dear_fetch_contract : fetch_contract Dear.api_get_today_state Dear.API_GET_STATE.
Proof.
  intros w today tr rq. unfold Dear.api_get_today_state.
  rewrite run_catch, run_bind, run_send. fold rq.
  destruct (w tr rq) as [r|e] eqn:Hw.
  2:{ eexists; split; [reflexivity|]. split; [done|]. repeat split; discriminate. }
  rewrite run_bind, run_lift.
  destruct (raise_for_status r) as [[]|e] eqn:Hst.
  - destruct (after_status_spec r today (tr ++ [rq])) as (v & Hrun & Hnone & Hdata).
    exists v. split; [exact Hrun|]. split; [discriminate|]. split; [|split].
    + intros r' [= <-] Hbad. rewrite raise_for_status_raises in Hst by done. discriminate.
    + intros r' [= <-]. exact Hnone.
    + intros r' data [= <-] _. apply Hdata.
  - eexists; split; [reflexivity|]. split; [done|]. split; [done|]. split; [done|].
    intros r' data [= <-] Hgood. rewrite raise_for_status_ok in Hst by done. discriminate.
Qed.

Lemma singapore_fetch_contract :
  fetch_contract Singapore.api_get_today_state Singapore.API_GET_STATE.
Proof.
  intros w today tr rq. unfold Singapore.api_get_today_state.
  rewrite run_catch, run_bind, run_send. fold rq.
  destruct (w tr rq) as [r|e] eqn:Hw.
  2:{ eexists; split; [reflexivity|]. split; [done|]. repeat split; discriminate. }
  destruct (status_code r =? 404)%Z eqn:H404.
  { apply Z.eqb_eq in H404.
    eexists; split; [reflexivity|]. split; [done|]. split; [done|]. split; [done|].
    intros r' data [= <-] Hgood. destruct Hgood. unfold non_success. lia. }
  rewrite run_bind, run_lift.
  destruct (raise_for_status r) as [[]|e] eqn:Hst.
  - destruct (after_status_spec r today (tr ++ [rq])) as (v & Hrun & Hnone & Hdata).
    exists v. split; [exact Hrun|]. split; [discriminate|]. split; [|split].
    + intros r' [= <-] Hbad. rewrite raise_for_status_raises in Hst by done. discriminate.
    + intros r' [= <-]. exact Hnone.
    + intros r' data [= <-] _. apply Hdata.
  - eexists; split; [reflexivity|]. split; [done|]. split; [done|]. split; [done|].
    intros r' data [= <-] Hgood. rewrite raise_for_status_ok in Hst by done. discriminate.
Qed.

Lemma fresh_shape (today : string) :
  fresh today !! "date" = Some (JStr today)
  ∧ ∀ s, s ∈ declared_slots → fresh today !! s = Some (JStr "-").
Proof.
  split; [done|]. intros s Hs. unfold declared_slots in Hs.
  repeat (apply elem_of_cons in Hs as [->|Hs]); try done.
  by apply elem_of_nil in Hs.
Qed.

(** C5. Both state fetchers, whatever the remote side answers: from a list
    they return the first entry whose "date" is [today]; when no entry
    matches, or an error occurs (the transport raises, the status is an
    error status, the body is not JSON, an entry met before a match is not
    an object), they return the record that holds the date and the
    placeholder for every slot; a response that is not a list is returned
    as it is.  They never raise. *)
Theorem state_fetcher_fail_open :
  fetch_contract Dear.api_get_today_state Dear.API_GET_STATE
  ∧ fetch_contract Singapore.api_get_today_state Singapore.API_GET_STATE
  ∧ ∀ today, fresh today !! "date" = Some (JStr today)
             ∧ ∀ s, s ∈ declared_slots → fresh today !! s = Some (JStr "-").
Proof.
  split; [apply dear_fetch_contract|].
  split; [apply singapore_fetch_contract|apply fresh_shape].
Qed.

Lemma state_fetcher_fail_open_witness :
  Dear.api_get_today_state
    (answering (Ok (json_reply 200 (JArr [entry_yesterday; entry_today])))) "2026-02-03" []
  = (Ok entry_today, [Get Dear.API_GET_STATE [("date", "2026-02-03")]])
  ∧ Singapore.api_get_today_state (answering (Raise ConnectionError)) "2026-02-03" []
    = (Ok (JObj (fresh "2026-02-03")), [Get Singapore.API_GET_STATE [("date", "2026-02-03")]]).
Proof.
  destruct state_fetcher_fail_open as (Hdear & Hsing & _). split.
  - destruct (Hdear (answering (Ok (json_reply 200 (JArr [entry_yesterday; entry_today]))))
                "2026-02-03" []) as (v & Hrun & _ & _ & _ & Hdata).
    destruct (Hdata _ _ eq_refl ltac:(unfold non_success; simpl; lia) eq_refl) as [Hlist _].
    destruct (Hlist _ eq_refl) as (Hfirst & _ & _).
    rewrite (Hfirst [entry_yesterday] entry_today [] eq_refl) in Hrun.
    + exact Hrun.
    + constructor; [|constructor]. eexists; split; [reflexivity|]. by vm_compute.
    + eexists; split; [reflexivity|]. by vm_compute.
  - destruct (Hsing (answering (Raise ConnectionError)) "2026-02-03" [])
      as (v & Hrun & Herr & _).
    rewrite (Herr _ eq_refl) in Hrun. exact Hrun.
Defined.

(** ** The publisher payload *)

Lemma payload_for_target_only (today slot v : string) :
  slot ∈ declared_slots → target_only today slot v (payload_for today slot v).
Proof.
  intros Hslot. unfold target_only, payload_for, fresh. split; [|split; [|split]].
  - apply lookup_insert_eq.
  - intros s Hs Hne. rewrite lookup_insert_ne by done.
    unfold declared_slots in Hs.
    repeat (apply elem_of_cons in Hs as [->|Hs]); try done.
    by apply elem_of_nil in Hs.
  - unfold declared_slots in Hslot.
    repeat (apply elem_of_cons in Hslot as [->|Hslot]); try done.
    by apply elem_of_nil in Hslot.
  - rewrite !dom_insert_L, dom_empty_L.
    unfold declared_slots in Hslot.
    repeat (apply elem_of_cons in Hslot as [->|Hslot]); [set_solver..|].
    by apply elem_of_nil in Hslot.
Qed.

Lemma post_data_sends (w : world) (lib : Dear.libs) (today slot : string)
    (dg : Dear.digits) (image_bytes : list byte) (tr : trace) :
  ∃ sent, (Dear.post_data w lib today slot dg image_bytes tr).2 = tr ++ sent
    ∧ sent `prefix_of` dear_posts lib today slot dg image_bytes
    ∧ ((∀ tr' rq, ∃ r, w tr' rq = Ok r) →
       sent = dear_posts lib today slot dg image_bytes).
Proof.
  unfold Dear.post_data, dear_posts. simpl zip. simpl for_each.
  set (P1 := PostJson _ (payload_for today slot (Dear.l1 dg))).
  set (P2 := PostJson _ (payload_for today slot (Dear.l2 dg))).
  set (P3 := PostJson _ (payload_for today slot (Dear.l3 dg))).
  rewrite !run_bind, run_send.
  destruct (w tr P1) as [r1|e1] eqn:H1.
  2:{ exists [P1]. split; [done|]. split; [by eexists|].
      intros Hall. destruct (Hall tr P1) as [r Hr]. congruence. }
  rewrite run_ret, !run_bind, run_send.
  destruct (w (tr ++ [P1]) P2) as [r2|e2] eqn:H2.
  2:{ exists [P1; P2]. simpl. rewrite <- app_assoc. split; [done|]. split; [by eexists|].
      intros Hall. destruct (Hall (tr ++ [P1]) P2) as [r Hr]. congruence. }
  rewrite run_ret, !run_bind, run_send.
  destruct (w ((tr ++ [P1]) ++ [P2]) P3) as [r3|e3] eqn:H3.
  2:{ exists [P1; P2; P3]. simpl. rewrite <- !app_assoc. split; [done|]. split; [by eexists|].
      intros Hall. destruct (Hall ((tr ++ [P1]) ++ [P2]) P3) as [r Hr]. congruence. }
  rewrite !run_ret, run_bind, run_lift.
  destruct (Dear.recompress lib image_bytes) as [buf|e] eqn:Hbuf.
  2:{ exists [P1; P2; P3]. simpl. rewrite <- !app_assoc. split; [done|]. by split. }
  rewrite run_bind, run_send.
  set (F := PostMultipart _ _ _).
  exists [P1; P2; P3; F]. simpl.
  destruct (w _ F) as [r4|e4]; simpl; rewrite <- !app_assoc; by repeat split.
Qed.

(** C4. For a target slot among mor, day and evn, every payload posted to a
    digit endpoint maps the target slot to the value, both other slot keys
    to the placeholder and "date" to the date, and has no other key; this
    holds for the single upsert of [post_digit] and for the three of
    [post_data]; for slot "mor" and value "97" the payload is
    {"mor": "97", "day": "-", "evn": "-"} plus the date. *)
Theorem publish_payload_shape (today slot : string) :
  slot ∈ declared_slots →
  (∀ v, target_only today slot v (payload_for today slot v))
  ∧ (∀ w api v tr,
       (Singapore.post_digit w api today slot v tr).2
       = tr ++ [PostJson api (payload_for today slot v)])
  ∧ (∀ w lib dg image_bytes tr,
       ∃ sent, (Dear.post_data w lib today slot dg image_bytes tr).2 = tr ++ sent
         ∧ sent `prefix_of` dear_posts lib today slot dg image_bytes
         ∧ ((∀ tr' rq, ∃ r, w tr' rq = Ok r) →
            sent = dear_posts lib today slot dg image_bytes))
  ∧ payload_for today "mor" "97"
    = <["date" := JStr today]> (<["mor" := JStr "97"]> (<["day" := JStr "-"]>
        (<["evn" := JStr "-"]> ∅))).
Proof.
  intros Hslot. split; [|split; [|split]].
  - intros v. by apply payload_for_target_only.
  - intros w api v tr. unfold Singapore.post_digit. rewrite run_bind, run_send.
    by destruct (w tr _).
  - intros. apply post_data_sends.
  - apply map_eq. intros k. unfold payload_for, fresh.
    destruct (decide (k = "mor")) as [->|?]; [done|].
    destruct (decide (k = "day")) as [->|?]; [done|].
    destruct (decide (k = "evn")) as [->|?]; [done|].
    destruct (decide (k = "date")) as [->|?]; [done|].
    by rewrite !lookup_insert_ne by done.
Qed.

Lemma publish_payload_shape_witness :
  "mor" ∈ declared_slots
  ∧ target_only "2026-02-03" "mor" "97" (payload_for "2026-02-03" "mor" "97")
  ∧ payload_for "2026-02-03" "mor" "97"
    = <["date" := JStr "2026-02-03"]> (<["mor" := JStr "97"]> (<["day" := JStr "-"]>
        (<["evn" := JStr "-"]> ∅))).
Proof.
  assert ("mor" ∈ declared_slots) as Hin by (unfold declared_slots; apply elem_of_cons; by left).
  split; [exact Hin|].
  destruct (publish_payload_shape "2026-02-03" "mor" Hin) as (Hshape & _ & _ & Heq).
  split; [apply Hshape|exact Heq].
Defined.

(** ** The date gate of the image crawler *)

Lemma process_slot_total (w : world) (lib : Dear.libs) (ist_now : datetime)
    (today slot : string) (tr : trace) :
  ∃ o tr', Dear.process_slot w lib ist_now today slot tr = (Ok o, tr').
Proof.
  unfold Dear.process_slot. rewrite run_catch.
  match goal with |- context [match ?b with _ => _ end] => destruct b as [[o|e] tr'] end;
    rewrite ?run_ret; eauto.
Qed.

Lemma process_slots_total (w : world) (lib : Dear.libs) (ist_now : datetime)
    (today : string) (needed : list string) (tr : trace) :
  ∃ os tr', Dear.process_slots w lib ist_now today needed tr = (Ok os, tr').
Proof.
  revert tr. induction needed as [|slot rest IH]; intros tr; simpl.
  - run. eauto.
  - rewrite run_bind.
    destruct (process_slot_total w lib ist_now today slot tr) as (o & tr1 & ->).
    rewrite run_bind. destruct (IH tr1) as (os & tr2 & ->). run. eauto.
Qed.

(** C9. A slot whose located image URL does not contain the "/YYYY/MM/" of
    the current IST date is skipped, without an error: the only request made
    for it is the GET of its page, so no digit POST and no snapshot POST,
    and the loop goes on with the slots that follow. *)
Theorem stale_image_skipped (w : world) (lib : Dear.libs) (ist_now : datetime)
    (today slot : string) (rest : list string) (tr : trace)
    (cfg : Dear.slot_config) (resp : response) (img_url : string) :
  Dear.SLOT_CONFIG !! slot = Some cfg →
  w tr (Get (Dear.url cfg) []) = Ok resp →
  Dear.find_img lib (text resp) = Some (Some img_url) →
  (¬ ∃ pre post, img_url = pre +:+ strftime_path ist_now +:+ post) →
  Dear.process_slot w lib ist_now today slot tr
    = (Ok Dear.SkippedOld, tr ++ [Get (Dear.url cfg) []])
  ∧ is_post (Get (Dear.url cfg) []) = false
  ∧ ∃ os tr',
      Dear.process_slots w lib ist_now today rest (tr ++ [Get (Dear.url cfg) []]) = (Ok os, tr')
      ∧ Dear.process_slots w lib ist_now today (slot :: rest) tr
        = (Ok ((slot, Dear.SkippedOld) :: os), tr').
Proof.
  intros Hcfg Hpage Himg Hstale.
  assert (contains (strftime_path ist_now) img_url = false) as Hc.
  { destruct (contains _ _) eqn:E; [|done]. by apply contains_iff in E. }
  assert (Dear.process_slot w lib ist_now today slot tr
          = (Ok Dear.SkippedOld, tr ++ [Get (Dear.url cfg) []])) as Hrun.
  { unfold Dear.process_slot. rewrite Hcfg, run_catch, run_bind, run_lift, run_bind, run_send.
    rewrite Hpage, Himg, Hc. reflexivity. }
  split; [exact Hrun|]. split; [done|].
  destruct (process_slots_total w lib ist_now today rest (tr ++ [Get (Dear.url cfg) []]))
    as (os & tr' & Hrest).
  exists os, tr'. split; [exact Hrest|].
  simpl. rewrite run_bind, Hrun, run_bind, Hrest. reflexivity.
Qed.

Lemma contains_false (a b : string) :
  contains a b = false → ¬ ∃ pre post, b = pre +:+ a +:+ post.
Proof. intros Hc Hsub. apply contains_iff in Hsub. congruence. Qed.

Lemma stale_image_skipped_witness :
  let now := {| year := 2026; month := 2; day := 3; hour := 13; minute := 30 |} in
  let page := Get "https://lotterysambad.one/nagaland-state-lottery-result-1-pm/" [] in
  strftime_path now = "/2026/02/"
  ∧ Dear.process_slot (answering (Ok html_reply)) january_page now "2026-02-03" "mor" []
    = (Ok Dear.SkippedOld, [page])
  ∧ ∃ os tr',
      Dear.process_slots (answering (Ok html_reply)) january_page now "2026-02-03" ["day"] [page]
      = (Ok os, tr')
      ∧ Dear.process_slots (answering (Ok html_reply)) january_page now "2026-02-03"
          ["mor"; "day"] []
        = (Ok (("mor", Dear.SkippedOld) :: os), tr').
Proof.
  intros now page. split; [reflexivity|].
  destruct (stale_image_skipped (answering (Ok html_reply)) january_page now "2026-02-03"
              "mor" ["day"] []
              {| Dear.url := "https://lotterysambad.one/nagaland-state-lottery-result-1-pm/";
                 Dear.cfg_hour := 13 |}
              html_reply
              "https://lotterysambad.one/wp-content/uploads/2026/01/MD310126.jpg"
              eq_refl eq_refl eq_refl
              (contains_false "/2026/02/"
                 "https://lotterysambad.one/wp-content/uploads/2026/01/MD310126.jpg" eq_refl))
    as (Hrun & _ & Hrest).
  split; [exact Hrun|exact Hrest].
Defined.

(** ** The lucky-number backfill *)

Lemma str_int_digit (d : Z) :
  (0 ≤ d ≤ 9)%Z → str_int d = String (digit_char d) "" ∧ is_digit (digit_char d) = true.
Proof.
  intros Hd.
  assert (d = 0 ∨ d = 1 ∨ d = 2 ∨ d = 3 ∨ d = 4 ∨ d = 5 ∨ d = 6 ∨ d = 7 ∨ d = 8 ∨ d = 9)%Z
    as Hcases by lia.
  repeat destruct Hcases as [->|Hcases]; try subst d; by vm_compute.
Qed.

Lemma digit_char_inj (d d' : Z) :
  (0 ≤ d ≤ 9)%Z → (0 ≤ d' ≤ 9)%Z → digit_char d = digit_char d' → d = d'.
Proof.
  intros Hd Hd' Heq. unfold digit_char in Heq.
  apply (f_equal Ascii.nat_of_ascii) in Heq.
  rewrite !Ascii.nat_ascii_embedding in Heq by lia. lia.
Qed.

Lemma generate_lucky_string_run (rand : Lucky.rng) (pos : nat) :
  (∀ k, 0 ≤ rand k ≤ 9)%Z →
  Lucky.generate_lucky_string rand pos
  = (String (digit_char (rand pos)) (", " +:+
     String (digit_char (rand (pos + 1)%nat)) (", " +:+
     String (digit_char (rand (pos + 2)%nat)) (", " +:+
     String (digit_char (rand (pos + 3)%nat)) ""))),
     (pos + 4)%nat).
Proof.
  intros Hr. unfold Lucky.generate_lucky_string. simpl map.
  rewrite Nat.add_0_r.
  destruct (str_int_digit _ (Hr pos)) as [-> _].
  destruct (str_int_digit _ (Hr (pos + 1)%nat)) as [-> _].
  destruct (str_int_digit _ (Hr (pos + 2)%nat)) as [-> _].
  destruct (str_int_digit _ (Hr (pos + 3)%nat)) as [-> _].
  reflexivity.
Qed.

Lemma check_if_exists_true (w : world) (lotto_type today : string) (tr : trace)
    (r : response) (m : gmap string json) (v : json) :
  w tr (lucky_get lotto_type today) = Ok r →
  status_code r = 200%Z →
  json_body r = Some (JObj m) →
  m !! "lucky" = Some v →
  truthy v = true →
  Lucky.check_if_exists w lotto_type today tr = (Ok true, tr ++ [lucky_get lotto_type today]).
Proof.
  intros Hw Hst Hbody Hl Ht. unfold Lucky.check_if_exists, lucky_get in *.
  rewrite run_catch, bind_send, Hw, Hst.
  change (200 =? 200)%Z with true. cbv iota.
  unfold json_of. rewrite Hbody, bind_lift_ok.
  simpl get. rewrite Hl. simpl default. rewrite bind_lift_ok, Ht, bind_lift_ok.
  assert (eq_str v "" = false) as ->.
  { destruct (eq_str v "") eqn:E; [|done]. apply eq_str_true in E. subst v. done. }
  reflexivity.
Qed.


Lemma check_if_exists_total (w : world) (lotto_type today : string) (tr : trace) :
  ∃ b, Lucky.check_if_exists w lotto_type today tr = (Ok b, tr ++ [lucky_get lotto_type today]).
Proof.
  unfold Lucky.check_if_exists, lucky_get.
  rewrite run_catch, run_bind, run_send.
  destruct (w tr _) as [r|e]; [|by eexists].
  destruct (status_code r =? 200)%Z; [|by eexists].
  rewrite run_bind, run_lift. destruct (json_of r) as [data|e]; [|by eexists].
  rewrite run_bind, run_lift. destruct (get data "lucky") as [lucky|e]; [|by eexists].
  destruct (truthy lucky); [|by eexists].
  rewrite bind_lift_ok. destruct (negb _); by eexists.
Qed.

Lemma update_loop_cons (w : world) (rand : Lucky.rng) (today t : string)
    (rest : list string) (pos : nat) :
  Lucky.update_loop w rand today (t :: rest) pos
  = (Lucky.check_if_exists w t today ≫= λ found : bool,
       if found then Lucky.update_loop w rand today rest pos
       else
         catch
           (send w (PostJson Lucky.API_URL
                      (Lucky.lucky_payload t today (Lucky.generate_lucky_string rand pos).1));;
            mret tt)
           (λ _, mret tt);;
         Lucky.update_loop w rand today rest (pos + 4)%nat).
Proof. reflexivity. Qed.


Lemma update_loop_skip (w : world) (rand : Lucky.rng) (today t : string)
    (rest : list string) (pos : nat) (tr : trace) :
  Lucky.check_if_exists w t today tr = (Ok true, tr ++ [lucky_get t today]) →
  Lucky.update_loop w rand today (t :: rest) pos tr
  = Lucky.update_loop w rand today rest pos (tr ++ [lucky_get t today]).
Proof. intros H. by rewrite update_loop_cons, run_bind, H. Qed.

Lemma update_loop_post (w : world) (rand : Lucky.rng) (today t : string)
    (rest : list string) (pos : nat) (tr : trace) :
  Lucky.check_if_exists w t today tr = (Ok false, tr ++ [lucky_get t today]) →
  let post := PostJson Lucky.API_URL
                (Lucky.lucky_payload t today (Lucky.generate_lucky_string rand pos).1) in
  Lucky.update_loop w rand today (t :: rest) pos tr
  = Lucky.update_loop w rand today rest (pos + 4)%nat (tr ++ [lucky_get t today; post]).
Proof.
  intros H post. rewrite update_loop_cons, run_bind, H, run_bind, run_catch, bind_send.
  fold post. rewrite (cons_middle (lucky_get t today) tr [post]), app_assoc.
  by destruct (w _ post).
Qed.

(** C8. With every draw of the generator in 0..9, the generated string is
    four digit characters joined by ", "; the i-th digit is the character of
    the i-th draw, one draw per digit, and distinct draws give distinct
    characters, so the digits are as independent and uniform as the draws.
    When the existence check finds a non-empty "lucky" value for a category,
    the loop goes to the next category with nothing posted and no draw
    consumed; when it does so for every category the whole run only sends
    the two GETs. *)
Theorem lucky_backfill (rand : Lucky.rng) :
  (∀ k, 0 ≤ rand k ≤ 9)%Z →
  (∀ pos,
     Lucky.generate_lucky_string rand pos
     = (String (digit_char (rand pos)) (", " +:+
        String (digit_char (rand (pos + 1)%nat)) (", " +:+
        String (digit_char (rand (pos + 2)%nat)) (", " +:+
        String (digit_char (rand (pos + 3)%nat)) ""))),
        (pos + 4)%nat)
     ∧ ∀ i, is_digit (digit_char (rand (pos + i)%nat)) = true)
  ∧ (∀ d d', (0 ≤ d ≤ 9)%Z → (0 ≤ d' ≤ 9)%Z → digit_char d = digit_char d' → d = d')
  ∧ (∀ w today t rest pos tr,
       reports_existing (w tr (lucky_get t today)) →
       Lucky.check_if_exists w t today tr = (Ok true, tr ++ [lucky_get t today])
       ∧ Lucky.update_loop w rand today (t :: rest) pos tr
         = Lucky.update_loop w rand today rest pos (tr ++ [lucky_get t today]))
  ∧ (∀ w now,
       (∀ tr t, reports_existing (w tr (lucky_get t (strftime_date now)))) →
       Lucky.update_numbers w rand now []
       = (Ok 0%nat, [lucky_get "singapore" (strftime_date now);
                     lucky_get "dear" (strftime_date now)])).
Proof.
  intros Hr.
  assert (∀ w today t rest pos tr,
            reports_existing (w tr (lucky_get t today)) →
            Lucky.check_if_exists w t today tr = (Ok true, tr ++ [lucky_get t today])
            ∧ Lucky.update_loop w rand today (t :: rest) pos tr
              = Lucky.update_loop w rand today rest pos (tr ++ [lucky_get t today])) as Hskip.
  { intros w today t rest pos tr (r & m & v & Hw & Hst & Hbody & Hl & Ht).
    pose proof (check_if_exists_true w t today tr r m v Hw Hst Hbody Hl Ht) as Hc.
    split; [exact Hc|]. by apply update_loop_skip. }
  split; [|split; [|split]].
  - intros pos. split; [by apply generate_lucky_string_run|].
    intros i. by destruct (str_int_digit _ (Hr (pos + i)%nat)).
  - apply digit_char_inj.
  - exact Hskip.
  - intros w now Hall. unfold Lucky.update_numbers, Lucky.TYPES.
    destruct (Hskip w (strftime_date now) "singapore" ["dear"] 0%nat [] (Hall _ _)) as [_ ->].
    destruct (Hskip w (strftime_date now) "dear" [] 0%nat
                ([] ++ [lucky_get "singapore" (strftime_date now)]) (Hall _ _)) as [_ ->].
    reflexivity.
Qed.

Lemma lucky_backfill_witness :
  Lucky.generate_lucky_string (λ k, Z.of_nat (k `mod` 10)) 7
  = ("7, 8, 9, 0", 11%nat)
  ∧ Lucky.update_numbers
      (answering (Ok (json_reply 200 (JObj (<["lucky" := JStr "9, 8, 0, 7"]> ∅)))))
      (λ k, Z.of_nat (k `mod` 10))
      {| year := 2026; month := 2; day := 3; hour := 9; minute := 0 |} []
    = (Ok 0%nat, [lucky_get "singapore" "2026-02-03"; lucky_get "dear" "2026-02-03"]).
Proof.
  assert (∀ k, 0 ≤ Z.of_nat (k `mod` 10) ≤ 9)%Z as Hr.
  { intros k. pose proof (Nat.mod_upper_bound k 10). lia. }
  destruct (lucky_backfill (λ k, Z.of_nat (k `mod` 10)) Hr) as (Hgen & _ & _ & Hrun).
  split.
  - exact (proj1 (Hgen 7%nat)).
  - apply (Hrun (answering (Ok (json_reply 200 (JObj (<["lucky" := JStr "9, 8, 0, 7"]> ∅)))))
             {| year := 2026; month := 2; day := 3; hour := 9; minute := 0 |}).
    intros tr t. eexists _, _, _. repeat split; reflexivity.
Defined.



(** * Further properties of the code *)

(** ** The clock *)

Lemma days_in_month_bounds (y m : nat) : (28 ≤ days_in_month y m ≤ 31)%nat.
Proof.
  unfold days_in_month.
  do 12 (destruct m as [|m]; [try destruct (is_leap y); lia|]). lia.
Qed.

Lemma next_date_valid (y m d : nat) :
  (1 ≤ m ≤ 12)%nat → (1 ≤ d ≤ days_in_month y m)%nat →
  ∀ y' m' d', next_date y m d = (y', m', d') →
    (y ≤ y' ≤ S y)%nat ∧ (1 ≤ m' ≤ 12)%nat ∧ (1 ≤ d' ≤ days_in_month y' m')%nat.
Proof.
  intros Hm Hd y' m' d'. unfold next_date.
  destruct (Nat.ltb_spec d (days_in_month y m)).
  - intros [= <- <- <-]. lia.
  - destruct (Nat.ltb_spec m 12); intros [= <- <- <-];
      pose proof (days_in_month_bounds y (S m));
      pose proof (days_in_month_bounds (S y) 1); lia.
Qed.

Lemma plus_5h30_same_day (utc : datetime) :
  (minute_of_day utc < 1110)%Z →
  plus_5h30 utc
  = Ok {| year := year utc; month := month utc; day := day utc;
          hour := ((minute_of_day utc + 330) / 60)%Z;
          minute := ((minute_of_day utc + 330) mod 60)%Z |}.
Proof.
  unfold plus_5h30, minute_of_day. intros H.
  destruct (Z.ltb_spec (hour utc * 60 + minute utc + 330) 1440); [done|lia].
Qed.

Lemma plus_5h30_next_day (utc : datetime) (y m d : nat) :
  (1110 ≤ minute_of_day utc)%Z →
  next_date (year utc) (month utc) (day utc) = (y, m, d) →
  plus_5h30 utc
  = if (9999 <? Z.of_nat y)%Z then Raise (OtherError "date value out of range")
    else Ok {| year := y; month := m; day := d;
               hour := ((minute_of_day utc - 1110) / 60)%Z;
               minute := ((minute_of_day utc - 1110) mod 60)%Z |}.
Proof.
  unfold plus_5h30, minute_of_day. intros H Hn.
  destruct (Z.ltb_spec (hour utc * 60 + minute utc + 330) 1440); [lia|].
  rewrite Hn.
  by replace (hour utc * 60 + minute utc + 330 - 1440)%Z
    with (hour utc * 60 + minute utc - 1110)%Z by lia.
Qed.

Lemma minute_of_day_split (n : Z) :
  (0 ≤ n < 1440)%Z →
  (0 ≤ n / 60 < 24)%Z ∧ (0 ≤ n mod 60 < 60)%Z ∧ (n / 60 * 60 + n mod 60 = n)%Z.
Proof.
  intros Hn. pose proof (Z.div_mod n 60 ltac:(lia)).
  pose proof (Z.mod_pos_bound n 60 ltac:(lia)).
  assert (0 ≤ n / 60)%Z by (apply Z.div_pos; lia).
  assert (n / 60 < 24)%Z by (apply Z.div_lt_upper_bound; lia).
  lia.
Qed.

Lemma era_form (x : Z) :
  (0 ≤ x)%Z →
  ((x - x / 400 * 400) / 4 = x / 4 - 100 * (x / 400))%Z
  ∧ ((x - x / 400 * 400) / 100 = x / 100 - 4 * (x / 400))%Z.
Proof. intros Hx. Z.div_mod_to_equations. lia. Qed.

Lemma leap_step (y : nat) :
  (1 ≤ y)%nat →
  (Z.of_nat y / 4 - (Z.of_nat y - 1) / 4 = if Nat.eqb (y mod 4) 0 then 1 else 0)%Z
  ∧ (Z.of_nat y / 100 - (Z.of_nat y - 1) / 100
     = if Nat.eqb (y mod 100) 0 then 1 else 0)%Z
  ∧ (Z.of_nat y / 400 - (Z.of_nat y - 1) / 400
     = if Nat.eqb (y mod 400) 0 then 1 else 0)%Z.
Proof.
  intros Hy.
  assert (Z.of_nat (y mod 4) = Z.of_nat y mod 4)%Z as E4 by apply (Nat2Z.inj_mod y 4).
  assert (Z.of_nat (y mod 100) = Z.of_nat y mod 100)%Z as E100
    by apply (Nat2Z.inj_mod y 100).
  assert (Z.of_nat (y mod 400) = Z.of_nat y mod 400)%Z as E400
    by apply (Nat2Z.inj_mod y 400).
  assert (1 ≤ Z.of_nat y)%Z as HY by lia.
  generalize dependent (Z.of_nat y). intros Y E4 E100 E400 HY.
  split; [|split].
  - destruct (Nat.eqb_spec (y mod 4) 0) as [e|e];
      [rewrite e in E4|assert (Z.of_nat (y mod 4) ≠ 0%Z) by lia];
      clear e; Z.div_mod_to_equations; lia.
  - destruct (Nat.eqb_spec (y mod 100) 0) as [e|e];
      [rewrite e in E100|assert (Z.of_nat (y mod 100) ≠ 0%Z) by lia];
      clear e; Z.div_mod_to_equations; lia.
  - destruct (Nat.eqb_spec (y mod 400) 0) as [e|e];
      [rewrite e in E400|assert (Z.of_nat (y mod 400) ≠ 0%Z) by lia];
      clear e; Z.div_mod_to_equations; lia.
Qed.

Lemma leap_divides (y : nat) :
  (Nat.eqb (y mod 400) 0 = true → Nat.eqb (y mod 100) 0 = true)
  ∧ (Nat.eqb (y mod 100) 0 = true → Nat.eqb (y mod 4) 0 = true).
Proof.
  assert (Z.of_nat (y mod 4) = Z.of_nat y mod 4)%Z as E4 by apply (Nat2Z.inj_mod y 4).
  assert (Z.of_nat (y mod 100) = Z.of_nat y mod 100)%Z as E100
    by apply (Nat2Z.inj_mod y 100).
  assert (Z.of_nat (y mod 400) = Z.of_nat y mod 400)%Z as E400
    by apply (Nat2Z.inj_mod y 400).
  split; intros H%Nat.eqb_eq; apply Nat.eqb_eq.
  - rewrite H in E400. apply Nat2Z.inj. rewrite E100. clear H E4 E100.
    Z.div_mod_to_equations. lia.
  - rewrite H in E100. apply Nat2Z.inj. rewrite E4. clear H E4 E400.
    Z.div_mod_to_equations. lia.
Qed.

(** On the day count a month is as long as the calendar of [plus_5h30]
    takes it to be. *)
Lemma month_length (y m : nat) :
  (1 ≤ m ≤ 12)%nat → (1 ≤ y)%nat →
  (days_from_civil (fst (month_after y m)) (snd (month_after y m)) 1
   - days_from_civil y m 1 = Z.of_nat (days_in_month y m))%Z.
Proof.
  intros Hm Hy.
  assert (m = 1 ∨ m = 2 ∨ m = 3 ∨ m = 4 ∨ m = 5 ∨ m = 6 ∨ m = 7 ∨ m = 8 ∨ m = 9
          ∨ m = 10 ∨ m = 11 ∨ m = 12)%nat as Hc by lia.
  unfold days_in_month, month_after, days_from_civil.
  repeat destruct Hc as [->|Hc]; try subst m;
    cbv [Nat.ltb Nat.leb fst snd];
    change (Z.of_nat 1) with 1%Z; change (Z.of_nat 2) with 2%Z;
    change (Z.of_nat 3) with 3%Z; change (Z.of_nat 4) with 4%Z;
    change (Z.of_nat 5) with 5%Z; change (Z.of_nat 6) with 6%Z;
    change (Z.of_nat 7) with 7%Z; change (Z.of_nat 8) with 8%Z;
    change (Z.of_nat 9) with 9%Z; change (Z.of_nat 10) with 10%Z;
    change (Z.of_nat 11) with 11%Z; change (Z.of_nat 12) with 12%Z;
    cbv [Z.leb Z.compare Pos.compare Pos.compare_cont].
  all: try (Z.div_mod_to_equations; lia).
  unfold is_leap.
  destruct (era_form (Z.of_nat y) ltac:(lia)) as [-> ->].
  destruct (era_form (Z.of_nat y - 1) ltac:(lia)) as [-> ->].
  destruct (leap_step y Hy) as (H4 & H100 & H400).
  destruct (leap_divides y) as [D400 D100].
  change ((153 * (3 - 3) + 2) / 5)%Z with 0%Z.
  change ((153 * (2 + 9) + 2) / 5)%Z with 337%Z.
  destruct (Nat.eqb (y mod 4) 0), (Nat.eqb (y mod 100) 0), (Nat.eqb (y mod 400) 0);
    cbn [andb orb negb]; try lia.
  all: try (specialize (D400 eq_refl); discriminate).
  all: try (specialize (D100 eq_refl); discriminate).
Qed.

Lemma day_offset (y m d : nat) :
  (days_from_civil y m d = days_from_civil y m 1 + Z.of_nat d - 1)%Z.
Proof. unfold days_from_civil. cbv zeta. lia. Qed.

Lemma civil_date_days (y m d : nat) :
  (1 ≤ y)%nat →
  civil_date y m d ↔ (1 ≤ m ≤ 12)%nat ∧ (1 ≤ d ≤ days_in_month y m)%nat.
Proof.
  intros Hy. unfold civil_date. rewrite (day_offset y m d).
  split.
  - intros (Hm & Hd & Hlt). pose proof (month_length y m Hm Hy). lia.
  - intros (Hm & Hd). pose proof (month_length y m Hm Hy). lia.
Qed.

Lemma civil_valid (t : datetime) : civil_datetime t ↔ valid_datetime t.
Proof.
  unfold civil_datetime, valid_datetime. split.
  - intros (Hy & Hd & Hh & Hm). apply civil_date_days in Hd; [|lia].
    destruct Hd. done.
  - intros (Hy & Hm & Hd & Hh & Hmin). split; [done|].
    split; [|done]. apply civil_date_days; [lia|done].
Qed.

(** The date [next_date] steps to is the next one on the day count. *)
Lemma next_date_count (y m d y' m' d' : nat) :
  (1 ≤ y)%nat → (1 ≤ m ≤ 12)%nat → (1 ≤ d ≤ days_in_month y m)%nat →
  next_date y m d = (y', m', d') →
  (days_from_civil y' m' d' = days_from_civil y m d + 1)%Z.
Proof.
  intros Hy Hm Hd. unfold next_date.
  pose proof (month_length y m Hm Hy) as Hlen. unfold month_after in Hlen.
  rewrite (day_offset y m d).
  destruct (Nat.ltb_spec d (days_in_month y m)).
  - intros [= <- <- <-]. rewrite (day_offset y m (S d)). lia.
  - destruct (Nat.ltb m 12); simpl in Hlen; intros [= <- <- <-]; lia.
Qed.

Lemma months_ascend (y : nat) (k m : nat) :
  (1 ≤ y)%nat → (1 ≤ m)%nat → (m + k ≤ 12)%nat →
  (days_from_civil y m 1 + 28 * Z.of_nat k ≤ days_from_civil y (m + k) 1)%Z.
Proof.
  intros Hy Hm. induction k as [|k IH]; intros Hk.
  - replace (m + 0)%nat with m by lia. lia.
  - pose proof (month_length y (m + k) ltac:(lia) Hy) as Hlen.
    pose proof (days_in_month_bounds y (m + k)).
    unfold month_after in Hlen.
    destruct (Nat.ltb_spec (m + k) 12); [|lia]. simpl in Hlen.
    replace (m + S k)%nat with (S (m + k)) by lia.
    specialize (IH ltac:(lia)). lia.
Qed.

Lemma years_ascend (y k : nat) :
  (1 ≤ y)%nat →
  (days_from_civil y 1 1 + 300 * Z.of_nat k ≤ days_from_civil (y + k) 1 1)%Z.
Proof.
  intros Hy. induction k as [|k IH].
  - replace (y + 0)%nat with y by lia. lia.
  - pose proof (months_ascend (y + k) 11 1 ltac:(lia) ltac:(lia) ltac:(lia)) as H11.
    pose proof (month_length (y + k) 12 ltac:(lia) ltac:(lia)) as H12.
    change (1 + 11)%nat with 12%nat in H11.
    change (fst (month_after (y + k) 12)) with (S (y + k)) in H12.
    change (snd (month_after (y + k) 12)) with 1%nat in H12.
    change (days_in_month (y + k) 12) with 31%nat in H12.
    replace (y + S k)%nat with (S (y + k)) by lia. lia.
Qed.

Lemma month_start_before (y m y' m' : nat) :
  (1 ≤ y)%nat → (1 ≤ m ≤ 12)%nat → (1 ≤ m' ≤ 12)%nat →
  (y < y')%nat ∨ (y = y' ∧ m < m')%nat →
  (days_from_civil (fst (month_after y m)) (snd (month_after y m)) 1
   ≤ days_from_civil y' m' 1)%Z.
Proof.
  intros Hy Hm Hm' Hlt.
  assert (days_from_civil (fst (month_after y m)) (snd (month_after y m)) 1
          ≤ days_from_civil (S y) 1 1)%Z as Hend.
  { unfold month_after. destruct (Nat.ltb_spec m 12); simpl; [|lia].
    pose proof (months_ascend y (12 - S m) (S m) Hy ltac:(lia) ltac:(lia)) as Ha.
    replace (S m + (12 - S m))%nat with 12%nat in Ha by lia.
    pose proof (month_length y 12 ltac:(lia) Hy) as H12. simpl in H12. lia. }
  destruct Hlt as [Hlt|[<- Hlt]].
  - pose proof (years_ascend (S y) (y' - S y) ltac:(lia)) as Hyr.
    replace (S y + (y' - S y))%nat with y' in Hyr by lia.
    pose proof (months_ascend y' (m' - 1) 1 ltac:(lia) ltac:(lia) ltac:(lia)) as Hmo.
    replace (1 + (m' - 1))%nat with m' in Hmo by lia. lia.
  - unfold month_after. destruct (Nat.ltb_spec m 12); simpl; [|lia].
    pose proof (months_ascend y (m' - S m) (S m) Hy ltac:(lia) ltac:(lia)) as Ha.
    replace (S m + (m' - S m))%nat with m' in Ha by lia. lia.
Qed.

(** Dates of the calendar are counted in their order. *)
Lemma civil_date_order (y m d y' m' d' : nat) :
  (1 ≤ y)%nat → civil_date y m d → civil_date y' m' d' →
  (y < y')%nat ∨ (y = y' ∧ m < m')%nat →
  (days_from_civil y m d < days_from_civil y' m' d')%Z.
Proof.
  intros Hy (Hm & Hd & Hlt) (Hm' & Hd' & _) Hord.
  pose proof (month_start_before y m y' m' Hy Hm Hm' Hord).
  rewrite (day_offset y' m' d'). lia.
Qed.

Lemma civil_date_inj (y m d y' m' d' : nat) :
  (1 ≤ y)%nat → (1 ≤ y')%nat → civil_date y m d → civil_date y' m' d' →
  days_from_civil y m d = days_from_civil y' m' d' →
  y = y' ∧ m = m' ∧ d = d'.
Proof.
  intros Hy Hy' Hc Hc' Heq.
  destruct (lt_eq_lt_dec y y') as [[Hlt| ->]|Hlt].
  - pose proof (civil_date_order y m d y' m' d' Hy Hc Hc' ltac:(lia)). lia.
  - destruct (lt_eq_lt_dec m m') as [[Hlt| ->]|Hlt].
    + pose proof (civil_date_order y' m d y' m' d' Hy Hc Hc' ltac:(lia)). lia.
    + rewrite (day_offset y' m' d), (day_offset y' m' d') in Heq. lia.
    + pose proof (civil_date_order y' m' d' y' m d Hy Hc' Hc ltac:(lia)). lia.
  - pose proof (civil_date_order y' m' d' y m d Hy' Hc' Hc ltac:(lia)). lia.
Qed.

Lemma epoch_minutes_inj (a b : datetime) :
  civil_datetime a → civil_datetime b → epoch_minutes a = epoch_minutes b → a = b.
Proof.
  intros (Hya & Hda & Hha & Hma) (Hyb & Hdb & Hhb & Hmb). unfold epoch_minutes.
  intros Heq.
  assert (days_from_civil (year a) (month a) (day a)
          = days_from_civil (year b) (month b) (day b)) as HD by lia.
  destruct (civil_date_inj (year a) (month a) (day a) (year b) (month b) (day b)
              ltac:(lia) ltac:(lia) Hda Hdb HD) as (Hy & Hm & Hd).
  destruct a, b. simpl in *. f_equal; lia.
Qed.

(** The last day [datetime] can hold ends where the year 10000 begins. *)
Lemma civil_date_ceiling (y m d : nat) :
  (1 ≤ Z.of_nat y ≤ 9999)%Z → civil_date y m d →
  (days_from_civil y m d * 1440 + 1440 ≤ calendar_end)%Z.
Proof.
  intros Hy Hc. unfold calendar_end.
  assert (civil_date (Z.to_nat 10000) 1 1) as Hend
    by (unfold civil_date; vm_compute; repeat split; lia || reflexivity).
  pose proof (civil_date_order y m d (Z.to_nat 10000) 1 1
                ltac:(lia) Hc Hend ltac:(lia)).
  lia.
Qed.

(** The day count at some known dates: its origin, a leap day in a year
    divisible by 400, and Februaries of 29 and of 28 days. *)
Lemma days_from_civil_anchors :
  days_from_civil 1970 1 1 = 0%Z
  ∧ days_from_civil 2000 2 29 = 11016%Z ∧ days_from_civil 2000 3 1 = 11017%Z
  ∧ (days_from_civil 2024 3 1 - days_from_civil 2024 2 1 = 29)%Z
  ∧ (days_from_civil 2100 3 1 - days_from_civil 2100 2 1 = 28)%Z
  ∧ (days_from_civil 2027 1 1 - days_from_civil 2026 1 1 = 365)%Z.
Proof. vm_compute. done. Qed.

(** X1. The IST clock of all three scripts, against the day count of the
    calendar. From a time [datetime] can hold, the sum is the one such
    time that lies 330 minutes later, whatever month end, leap day or
    year end is crossed; when that instant is past the year 9999 (18:30
    or later on 9999-12-31) the sum raises instead. The three scripts
    compute the same clock. *)
Theorem ist_clock_shift (utc : datetime) :
  civil_datetime utc →
  ((epoch_minutes utc + 330 < calendar_end)%Z →
   ∃ ist, Dear.get_now_ist utc = Ok ist ∧ civil_datetime ist
     ∧ epoch_minutes ist = (epoch_minutes utc + 330)%Z
     ∧ ∀ t, civil_datetime t → epoch_minutes t = (epoch_minutes utc + 330)%Z →
         t = ist)
  ∧ ((calendar_end ≤ epoch_minutes utc + 330)%Z →
     Dear.get_now_ist utc = Raise (OtherError "date value out of range"))
  ∧ Singapore.get_now_ist utc = Dear.get_now_ist utc
  ∧ Lucky.get_now_ist utc = Dear.get_now_ist utc.
Proof.
  intros Hciv.
  pose proof Hciv as (Hy & Hm & Hd & Hh & Hmin)%civil_valid.
  pose proof Hciv as (_ & Hdate & _).
  pose proof (civil_date_ceiling _ _ _ Hy Hdate) as Hceil.
  unfold Dear.get_now_ist, Singapore.get_now_ist, Lucky.get_now_ist.
  assert (0 ≤ minute_of_day utc < 1440)%Z as Hmod by (unfold minute_of_day; lia).
  assert (epoch_minutes utc
          = days_from_civil (year utc) (month utc) (day utc) * 1440
            + minute_of_day utc)%Z as Hep
    by (unfold epoch_minutes, minute_of_day; lia).
  assert (∀ ist, civil_datetime ist →
            epoch_minutes ist = (epoch_minutes utc + 330)%Z →
            ∀ t, civil_datetime t →
              epoch_minutes t = (epoch_minutes utc + 330)%Z → t = ist) as Huniq.
  { intros ist Hi Hie t Ht Hte. apply epoch_minutes_inj; [done|done|lia]. }
  destruct (Z.lt_ge_cases (minute_of_day utc) 1110) as [Hearly|Hlate].
  - rewrite plus_5h30_same_day by done.
    destruct (minute_of_day_split (minute_of_day utc + 330)) as (? & ? & ?); [lia|].
    set (ist := {| year := year utc |}).
    assert (civil_datetime ist) as Hi.
    { apply civil_valid. unfold valid_datetime, ist. simpl. lia. }
    assert (epoch_minutes ist = (epoch_minutes utc + 330)%Z) as Hie.
    { rewrite Hep. unfold epoch_minutes, ist. simpl. lia. }
    split; [|split; [|done]].
    + intros _. exists ist. eauto.
    + intros Hover. lia.
  - destruct (next_date (year utc) (month utc) (day utc)) as [[y m] d] eqn:Hn.
    rewrite (plus_5h30_next_day utc y m d) by done.
    destruct (next_date_valid _ _ _ Hm Hd _ _ _ Hn) as (Hy' & Hm' & Hd').
    pose proof (next_date_count (year utc) (month utc) (day utc) y m d
                  ltac:(lia) Hm Hd Hn) as Hcount.
    destruct (minute_of_day_split (minute_of_day utc - 1110)) as (? & ? & ?); [lia|].
    destruct (Z.ltb_spec 9999 (Z.of_nat y)) as [Hbig|Hfit].
    + assert (y = Z.to_nat 10000 ∧ m = 1 ∧ d = 1)%nat as (-> & -> & ->).
      { unfold next_date in Hn.
        destruct (Nat.ltb_spec (day utc) (days_in_month (year utc) (month utc)));
          [simplify_eq; lia|].
        destruct (Nat.ltb_spec (month utc) 12); simplify_eq; lia. }
      split; [|split; [|done]]; [intros Hroom; unfold calendar_end in Hroom; lia|done].
    + set (ist := {| year := y |}).
      assert (civil_datetime ist) as Hi.
      { apply civil_valid. unfold valid_datetime, ist. simpl. lia. }
      assert (epoch_minutes ist = (epoch_minutes utc + 330)%Z) as Hie.
      { rewrite Hep. unfold epoch_minutes, ist. simpl. lia. }
      split; [|split; [|done]].
      * intros _. exists ist. eauto.
      * intros Hover. destruct Hi as (_ & Hidate & _).
        pose proof (civil_date_ceiling y m d ltac:(lia) Hidate).
        unfold epoch_minutes, ist in Hie. simpl in Hie. lia.
Qed.

Lemma ist_clock_shift_witness :
  let utc := {| year := 2028; month := 2; day := 28; hour := 19; minute := 0 |} in
  civil_datetime utc
  ∧ (epoch_minutes utc + 330 < calendar_end)%Z
  ∧ Dear.get_now_ist utc
    = Ok {| year := 2028; month := 2; day := 29; hour := 0; minute := 30 |}.
Proof.
  intros utc.
  assert (civil_datetime utc) as Hv.
  { unfold civil_datetime, civil_date. vm_compute.
    repeat split; lia || discriminate || reflexivity. }
  assert (epoch_minutes utc + 330 < calendar_end)%Z as Hroom
    by (vm_compute; reflexivity).
  split; [exact Hv|]. split; [exact Hroom|].
  destruct (ist_clock_shift utc Hv) as (Hin & _).
  destruct (Hin Hroom) as (ist & -> & _ & _ & Huniq).
  f_equal. symmetry. apply Huniq.
  - unfold civil_datetime, civil_date. vm_compute.
    repeat split; lia || discriminate || reflexivity.
  - vm_compute. reflexivity.
Defined.

Lemma get_now_ist_minute (utc ist : datetime) :
  valid_datetime utc → plus_5h30 utc = Ok ist →
  minute_of_day ist
  = (if (minute_of_day utc <? 1110)%Z then minute_of_day utc + 330
     else minute_of_day utc - 1110)%Z
  ∧ (0 ≤ hour ist < 24)%Z ∧ (0 ≤ minute ist < 60)%Z.
Proof.
  intros (Hy & Hm & Hd & Hh & Hmin) Hrun.
  assert (0 ≤ minute_of_day utc < 1440)%Z as Hmod by (unfold minute_of_day; lia).
  destruct (Z.ltb_spec (minute_of_day utc) 1110) as [Hearly|Hlate].
  - rewrite plus_5h30_same_day in Hrun by done. injection Hrun as <-.
    destruct (minute_of_day_split (minute_of_day utc + 330)) as (? & ? & ?); [lia|].
    unfold minute_of_day at 1. simpl. lia.
  - destruct (next_date (year utc) (month utc) (day utc)) as [[y m] d] eqn:Hn.
    rewrite (plus_5h30_next_day utc y m d) in Hrun by done.
    destruct (9999 <? Z.of_nat y)%Z; [discriminate|]. injection Hrun as <-.
    destruct (minute_of_day_split (minute_of_day utc - 1110)) as (? & ? & ?); [lia|].
    unfold minute_of_day at 1. simpl. lia.
Qed.

(** X2. The window of the PDF crawler on the UTC clock: with the IST time
    computed from a valid UTC time, the detected slot is mor from 07:00,
    day from 11:00 and evn from 15:00 UTC; from 18:30 UTC on, when IST is
    past midnight, and before 07:00 UTC, no slot is detected. *)
Theorem time_slot_on_utc_clock (utc ist : datetime) :
  valid_datetime utc →
  Singapore.get_now_ist utc = Ok ist →
  Singapore.detect_time_slot ist = slot_at_utc (minute_of_day utc).
Proof.
  intros Hv Hrun. destruct (get_now_ist_minute utc ist Hv Hrun) as (Hmod & _ & _).
  destruct Hv as (_ & _ & _ & Hh & Hmin).
  assert (0 ≤ minute_of_day utc < 1440)%Z as Hrange by (unfold minute_of_day; lia).
  unfold Singapore.detect_time_slot, slot_at_utc.
  fold (minute_of_day ist). rewrite Hmod.
  destruct (Z.ltb_spec (minute_of_day utc) 1110);
    repeat match goal with
           | |- context [(?a <? ?b)%Z] => destruct (Z.ltb_spec a b)
           end; try done; lia.
Qed.

Lemma time_slot_on_utc_clock_witness :
  let utc := {| year := 2026; month := 2; day := 3; hour := 18; minute := 45 |} in
  valid_datetime utc
  ∧ Singapore.get_now_ist utc
    = Ok {| year := 2026; month := 2; day := 4; hour := 0; minute := 15 |}
  ∧ Singapore.detect_time_slot
      {| year := 2026; month := 2; day := 4; hour := 0; minute := 15 |} = None.
Proof.
  intros utc.
  assert (valid_datetime utc) as Hv by (unfold valid_datetime; simpl; lia).
  split; [exact Hv|]. split; [reflexivity|].
  exact (time_slot_on_utc_clock utc _ Hv eq_refl).
Defined.

(** ** The publishers and the PDF crawler's loop *)

Lemma sent_until_failure_prefix (checked : bool) (w : world) (tr : trace)
    (rqs : list request) :
  sent_until_failure checked w tr rqs `prefix_of` rqs.
Proof.
  revert tr. induction rqs as [|rq rest IH]; intros tr; simpl; [done|].
  destruct (accepted checked (w tr rq)).
  - by apply prefix_cons.
  - by exists rest.
Qed.

Lemma post_digit_run (w : world) (api today slot v : string) (tr : trace) :
  let rq := PostJson api (payload_for today slot v) in
  Singapore.post_digit w api today slot v tr
  = (match w tr rq with Ok r => raise_for_status r | Raise e => Raise e end, tr ++ [rq]).
Proof.
  intros rq. unfold Singapore.post_digit. rewrite bind_send. fold rq.
  by destruct (w tr rq).
Qed.

Lemma accepted_checked (reply : result response) :
  accepted true reply
  = match (match reply with Ok r => raise_for_status r | Raise e => Raise e end) with
    | Ok _ => true
    | Raise _ => false
    end.
Proof. by destruct reply. Qed.

Lemma singapore_publish_run (w : world) (lib : Singapore.libs) (today slot : string)
    (dg : Singapore.digits) (pdf_bytes : list byte) (tr : trace) :
  ∃ r,
    (Singapore.post_digit w Singapore.API_LAST_1 today slot (Singapore.last_1 dg);;
     Singapore.post_digit w Singapore.API_LAST_2 today slot (Singapore.last_2 dg);;
     Singapore.post_digit w Singapore.API_LAST_3 today slot (Singapore.last_3 dg);;
     Singapore.post_image w lib pdf_bytes today slot) tr
    = (r, tr ++ sent_until_failure true w tr (singapore_posts lib today slot dg pdf_bytes)).
Proof.
  unfold singapore_posts. cbn [app sent_until_failure].
  set (P1 := PostJson _ (payload_for today slot (Singapore.last_1 dg))).
  set (P2 := PostJson _ (payload_for today slot (Singapore.last_2 dg))).
  set (P3 := PostJson _ (payload_for today slot (Singapore.last_3 dg))).
  rewrite run_bind, post_digit_run, (accepted_checked (w tr P1)). fold P1.
  destruct (match w tr P1 with Ok r => raise_for_status r | Raise e => Raise e end)
    as [[]|e1]; [|by eexists].
  rewrite run_bind, post_digit_run, (accepted_checked (w (tr ++ [P1]) P2)). fold P2.
  destruct (match w (tr ++ [P1]) P2 with Ok r => raise_for_status r | Raise e => Raise e end)
    as [[]|e2]; [|eexists; by rewrite <- app_assoc].
  rewrite run_bind, post_digit_run, (accepted_checked (w ((tr ++ [P1]) ++ [P2]) P3)). fold P3.
  destruct (match w ((tr ++ [P1]) ++ [P2]) P3 with
            | Ok r => raise_for_status r | Raise e => Raise e end)
    as [[]|e3]; [|eexists; by rewrite <- !app_assoc].
  unfold Singapore.post_image.
  destruct (Singapore.pdf_jpeg lib pdf_bytes) as [img|e].
  - rewrite bind_lift_ok, bind_send. cbn [sent_until_failure].
    set (F := PostMultipart _ _ _).
    destruct (w (((tr ++ [P1]) ++ [P2]) ++ [P3]) F) as [r4|e4]; simpl accepted;
      [destruct (raise_for_status r4) as [[]|?]|];
      eexists; rewrite run_lift || idtac; by rewrite <- !app_assoc.
  - rewrite bind_lift_raise. eexists. by rewrite <- !app_assoc.
Qed.

(** ** The image crawler's loop *)

Lemma post_data_run (w : world) (lib : Dear.libs) (today slot : string)
    (dg : Dear.digits) (image_bytes : list byte) (tr : trace) :
  ∃ r sent, Dear.post_data w lib today slot dg image_bytes tr = (r, tr ++ sent)
    ∧ sent `prefix_of` dear_posts lib today slot dg image_bytes
    ∧ (r = Ok tt → sent = dear_posts lib today slot dg image_bytes
                   ∧ ∃ buf, Dear.recompress lib image_bytes = Ok buf)
    ∧ ((∀ tr' rq, is_post rq = true → ∃ resp, w tr' rq = Ok resp) →
       (∃ buf, Dear.recompress lib image_bytes = Ok buf) → r = Ok tt)
    ∧ sent = sent_until_failure false w tr (dear_posts lib today slot dg image_bytes).
Proof.
  unfold Dear.post_data, dear_posts. simpl zip. simpl for_each.
  cbn [app sent_until_failure].
  set (P1 := PostJson _ (payload_for today slot (Dear.l1 dg))).
  set (P2 := PostJson _ (payload_for today slot (Dear.l2 dg))).
  set (P3 := PostJson _ (payload_for today slot (Dear.l3 dg))).
  rewrite !run_bind, run_send.
  destruct (w tr P1) as [r1|e1] eqn:H1.
  2:{ exists (Raise e1), [P1]. split; [done|]. split; [by eexists|]. split; [done|].
      split; [|done]. intros Hall. destruct (Hall tr P1 eq_refl) as [r Hr]. congruence. }
  cbn [accepted].
  rewrite run_ret, !run_bind, run_send.
  destruct (w (tr ++ [P1]) P2) as [r2|e2] eqn:H2.
  2:{ exists (Raise e2), [P1; P2]. rewrite <- app_assoc. split; [done|].
      split; [by eexists|]. split; [done|]. split; [|done].
      intros Hall. destruct (Hall (tr ++ [P1]) P2 eq_refl) as [r Hr]. congruence. }
  cbn [accepted].
  rewrite run_ret, !run_bind, run_send.
  destruct (w ((tr ++ [P1]) ++ [P2]) P3) as [r3|e3] eqn:H3.
  2:{ exists (Raise e3), [P1; P2; P3]. rewrite <- !app_assoc. split; [done|].
      split; [by eexists|]. split; [done|]. split; [|done].
      intros Hall. destruct (Hall ((tr ++ [P1]) ++ [P2]) P3 eq_refl) as [r Hr]. congruence. }
  cbn [accepted].
  rewrite !run_ret, run_bind, run_lift.
  destruct (Dear.recompress lib image_bytes) as [buf|e] eqn:Hbuf.
  2:{ exists (Raise e), [P1; P2; P3]. rewrite <- !app_assoc. split; [done|].
      split; [by exists []|]. split; [done|]. split; [|done].
      by intros _ [buf [=]]. }
  cbn [sent_until_failure].
  rewrite run_bind, run_send.
  set (F := PostMultipart _ _ _).
  destruct (w (((tr ++ [P1]) ++ [P2]) ++ [P3]) F) as [r4|e4] eqn:H4.
  - exists (Ok tt), [P1; P2; P3; F]. rewrite run_ret, <- !app_assoc.
    split; [done|]. split; [done|]. split; [|done]. intros _. split; [done|by exists buf].
  - exists (Raise e4), [P1; P2; P3; F]. rewrite <- !app_assoc.
    split; [done|]. split; [done|]. split; [done|]. split; [|done].
    intros Hall. destruct (Hall (((tr ++ [P1]) ++ [P2]) ++ [P3]) F eq_refl) as [r Hr]. congruence.
Qed.

Lemma dear_posts_publish (lib : Dear.libs) (today slot : string) (dg : Dear.digits)
    (image_bytes : list byte) :
  Forall (publishes_for "dear" today slot) (dear_posts lib today slot dg image_bytes).
Proof.
  unfold dear_posts. apply Forall_app. split.
  - repeat (apply Forall_cons; split; [simpl; by eexists|]). by apply Forall_nil.
  - destruct (Dear.recompress lib image_bytes); [|by apply Forall_nil].
    apply Forall_cons. split; [done|by apply Forall_nil].
Qed.

Lemma process_slot_run (w : world) (lib : Dear.libs) (ist_now : datetime)
    (today slot : string) (tr : trace) (cfg : Dear.slot_config) :
  Dear.SLOT_CONFIG !! slot = Some cfg →
  ∃ o sent,
    Dear.process_slot w lib ist_now today slot tr
    = (Ok o, tr ++ Get (Dear.url cfg) [] :: sent)
    ∧ after_page w lib ist_now today slot tr (Get (Dear.url cfg) []) sent
    ∧ (o = Dear.Uploaded →
       ∃ img_url img dg,
         sent = Get img_url [] :: dear_posts lib today slot dg (content img)
         ∧ Dear.extract_digits lib (content img) = Ok dg
         ∧ ∃ buf, Dear.recompress lib (content img) = Ok buf).
Proof.
  intros Hcfg. unfold Dear.process_slot, after_page.
  rewrite Hcfg, run_catch, bind_lift_ok, bind_send.
  set (page := Get (Dear.url cfg) []).
  destruct (w tr page) as [resp|e] eqn:Hpage.
  2:{ exists (Dear.Failed e), []. split; [done|]. split; [by left|done]. }
  destruct (Dear.find_img lib (text resp)) as [[img_url|]|] eqn:Himg.
  3:{ exists Dear.NoImage, []. split; [done|]. split; [by left|done]. }
  2:{ exists (Dear.Failed TypeError), []. split; [done|]. split; [by left|done]. }
  destruct (contains (strftime_path ist_now) img_url) eqn:Hc; cbn [negb]; cbv iota.
  2:{ exists Dear.SkippedOld, []. split; [done|]. split; [by left|done]. }
  rewrite bind_send.
  destruct (w (tr ++ [page]) (Get img_url [])) as [img|e] eqn:Hget.
  2:{ exists (Dear.Failed e), [Get img_url []].
      rewrite <- app_assoc. split; [done|]. split; [|done].
      right. exists resp, img_url, []. auto 10. }
  destruct (Dear.extract_digits lib (content img)) as [dg|e] eqn:Hdg.
  2:{ rewrite bind_lift_raise. exists (Dear.Failed e), [Get img_url []].
      rewrite <- app_assoc. split; [done|]. split; [|done].
      right. exists resp, img_url, []. auto 10. }
  rewrite bind_lift_ok, run_bind.
  destruct (post_data_run w lib today slot dg (content img) ((tr ++ [page]) ++ [Get img_url []]))
    as (r & posts & -> & Hprefix & Hok & _ & Hsent).
  destruct r as [[]|e].
  - destruct (Hok eq_refl) as [-> Hbuf].
    exists Dear.Uploaded, (Get img_url [] :: dear_posts lib today slot dg (content img)).
    rewrite run_ret, <- !app_assoc. split; [done|]. split.
    + right. exists resp, img_url, (dear_posts lib today slot dg (content img)).
      repeat split; try done. right. by exists img, dg.
    + intros _. by exists img_url, img, dg.
  - exists (Dear.Failed e), (Get img_url [] :: posts).
    rewrite <- !app_assoc. split; [done|]. split; [|done].
    right. exists resp, img_url, posts. repeat split; try done. right. by exists img, dg.
Qed.

Lemma get_needed_slots_early (now : datetime) (db : json) :
  (hour now < 13)%Z → Dear.get_needed_slots now db = Ok [].
Proof.
  unfold Dear.get_needed_slots, Dear.check_slot. intros H.
  destruct (Z.leb_spec 13 (hour now)); [lia|].
  destruct (Z.leb_spec 18 (hour now)); [lia|].
  destruct (Z.leb_spec 20 (hour now)); [lia|]. reflexivity.
Qed.

Lemma get_needed_slots_not_dict (now : datetime) (db : json) :
  (13 ≤ hour now)%Z → (∀ m, db ≠ JObj m) →
  Dear.get_needed_slots now db = Raise AttributeError.
Proof.
  unfold Dear.get_needed_slots, Dear.check_slot. intros H Hdb.
  destruct (Z.leb_spec 13 (hour now)); [|lia].
  destruct db; try reflexivity. by destruct (Hdb m).
Qed.

Lemma get_needed_slots_member (now : datetime) (db : json) (needed : list string)
    (slot : string) :
  Dear.get_needed_slots now db = Ok needed → slot ∈ needed →
  ∃ m thr, db = JObj m ∧ (slot, thr) ∈ eligibility ∧ (thr ≤ hour now)%Z
           ∧ m !! slot = Some (JStr "-").
Proof.
  intros Hrun Hin.
  destruct (Z.lt_ge_cases (hour now) 13) as [Hearly|Hlate].
  { rewrite get_needed_slots_early in Hrun by done. injection Hrun as <-.
    by apply elem_of_nil in Hin. }
  destruct db as [| | | | | |m];
    try (rewrite get_needed_slots_not_dict in Hrun by done; discriminate).
  rewrite get_needed_slots_obj in Hrun.
  apply (f_equal (λ r, match r with Ok l => l | Raise _ => [] end)) in Hrun.
  rewrite <- Hrun in Hin.
  apply list_elem_of_fmap in Hin as ([s thr] & -> & Hf).
  apply list_elem_of_In, filter_In in Hf as [Hel Hc]. simpl in *.
  apply andb_true_iff in Hc as [Hthr Hp].
  exists m, thr. split; [done|]. split; [by apply list_elem_of_In|].
  split; [by apply Z.leb_le|by apply holds_placeholder_lookup].
Qed.

Lemma dear_state_run (w : world) (today : string) (tr : trace) :
  ∃ db, Dear.api_get_today_state w today tr
        = (Ok db, tr ++ [Get Dear.API_GET_STATE [("date", today)]]).
Proof. destruct (dear_fetch_contract w today tr) as (v & Hrun & _). by exists v. Qed.

Lemma process_slot_posts (w : world) (lib : Dear.libs) (ist_now : datetime)
    (today slot : string) (tr : trace) :
  ∃ o sent, Dear.process_slot w lib ist_now today slot tr = (Ok o, tr ++ sent)
    ∧ ∀ rq, rq ∈ sent → is_post rq = true → publishes_for "dear" today slot rq.
Proof.
  destruct (Dear.SLOT_CONFIG !! slot) as [cfg|] eqn:Hcfg.
  - destruct (process_slot_run w lib ist_now today slot tr cfg Hcfg)
      as (o & sent & Hrun & Hafter & _).
    exists o, (Get (Dear.url cfg) [] :: sent). split; [done|].
    intros rq [->|Hin]%elem_of_cons Hpost; [done|].
    destruct Hafter as [->|(resp & img_url & posts & _ & _ & _ & -> & Hposts)];
      [by apply elem_of_nil in Hin|].
    apply elem_of_cons in Hin as [->|Hin]; [done|].
    destruct Hposts as [->|(img & dg & _ & _ & ->)]; [by apply elem_of_nil in Hin|].
    pose proof (dear_posts_publish lib today slot dg (content img)) as Hall.
    rewrite Forall_forall in Hall. apply Hall.
    destruct (sent_until_failure_prefix false w ((tr ++ [Get (Dear.url cfg) []])
                ++ [Get img_url []]) (dear_posts lib today slot dg (content img)))
      as [rest Hrest].
    rewrite Hrest. apply elem_of_app. by left.
  - exists (Dear.Failed (KeyError slot)), []. split.
    + unfold Dear.process_slot. rewrite Hcfg, run_catch, bind_lift_raise, app_nil_r. done.
    + intros rq Hin. by apply elem_of_nil in Hin.
Qed.

Lemma process_slots_posts (w : world) (lib : Dear.libs) (ist_now : datetime)
    (today : string) (needed : list string) (tr : trace) :
  ∃ os sent, Dear.process_slots w lib ist_now today needed tr = (Ok os, tr ++ sent)
    ∧ os.*1 = needed
    ∧ ∀ rq, rq ∈ sent → is_post rq = true →
        ∃ slot, slot ∈ needed ∧ publishes_for "dear" today slot rq.
Proof.
  revert tr. induction needed as [|slot rest IH]; intros tr.
  - exists [], []. rewrite app_nil_r. split; [done|]. split; [done|].
    intros rq Hin. by apply elem_of_nil in Hin.
  - destruct (process_slot_posts w lib ist_now today slot tr) as (o & s1 & Hrun & Hs1).
    destruct (IH (tr ++ s1)) as (os & s2 & Hrest & Hfst & Hs2).
    exists ((slot, o) :: os), (s1 ++ s2). split; [|split].
    + simpl. rewrite run_bind, Hrun, run_bind, Hrest, run_ret, app_assoc. done.
    + rewrite fmap_cons. simpl. by rewrite Hfst.
    + intros rq [Hin|Hin]%elem_of_app Hpost.
      * exists slot. split; [apply elem_of_cons; by left|by apply Hs1].
      * destruct (Hs2 rq Hin Hpost) as (s & Hs & Hpub).
        exists s. split; [apply elem_of_cons; by right|done].
Qed.

(** X3. The image crawler's planner does not touch the record before its
    hour test passes: before 13:00 it returns the empty list for any value
    of [db], a dict or not, and the whole run is then the one GET of the
    state; from 13:00 on a [db] that is not a dict (the state fetcher
    returns a non-list response unchanged) makes the planner raise
    AttributeError. *)
Theorem cumulative_planner_short_circuit (now : datetime) (db : json) :
  ((hour now < 13)%Z →
   Dear.get_needed_slots now db = Ok []
   ∧ ∀ w lib ist_now tr,
       Dear.main w lib ist_now now tr
       = (Ok [], tr ++ [Get Dear.API_GET_STATE [("date", strftime_date ist_now)]]))
  ∧ ((13 ≤ hour now)%Z → (∀ m, db ≠ JObj m) →
     Dear.get_needed_slots now db = Raise AttributeError).
Proof.
  split.
  - intros H. split; [by apply get_needed_slots_early|].
    intros w lib ist_now tr. unfold Dear.main. rewrite run_bind.
    destruct (dear_state_run w (strftime_date ist_now) tr) as [db' ->].
    by rewrite get_needed_slots_early, bind_lift_ok by done.
  - apply get_needed_slots_not_dict.
Qed.

Lemma cumulative_planner_short_circuit_witness :
  Dear.get_needed_slots
    {| year := 2026; month := 2; day := 3; hour := 12; minute := 59 |} (JStr "maintenance")
  = Ok []
  ∧ Dear.get_needed_slots
      {| year := 2026; month := 2; day := 3; hour := 13; minute := 0 |} (JStr "maintenance")
    = Raise AttributeError.
Proof.
  split.
  - apply (cumulative_planner_short_circuit
             {| year := 2026; month := 2; day := 3; hour := 12; minute := 59 |}
             (JStr "maintenance")). simpl. lia.
  - apply (cumulative_planner_short_circuit
             {| year := 2026; month := 2; day := 3; hour := 13; minute := 0 |}
             (JStr "maintenance")); [simpl; lia|discriminate].
Defined.



(** X5. The image crawler reports a slot as uploaded exactly when all four
    posts were sent without an exception, and never looks at the status of
    their responses.  An outcome Uploaded means the three digit upserts and
    the snapshot were all sent.  And when the slot's page and image were
    fetched, the image passes the date gate and yields a number, then a
    remote side that answers every POST, with whatever status code, makes
    the slot end as Uploaded: the posts are sent with [requests.post],
    outside the session and its retries, so an error status such as 500
    comes back as a plain response and nothing inspects it. *)
Theorem uploaded_whatever_the_status (w : world) (lib : Dear.libs) (ist_now : datetime)
    (today slot : string) (tr : trace) (cfg : Dear.slot_config) :
  Dear.SLOT_CONFIG !! slot = Some cfg →
  (∀ tr', Dear.process_slot w lib ist_now today slot tr = (Ok Dear.Uploaded, tr') →
     ∃ img_url img dg buf,
       tr' = tr ++ [Get (Dear.url cfg) []; Get img_url []]
                ++ dear_posts lib today slot dg (content img)
       ∧ Dear.extract_digits lib (content img) = Ok dg
       ∧ Dear.recompress lib (content img) = Ok buf)
  ∧ ((∀ tr' rq, is_post rq = true → ∃ resp, w tr' rq = Ok resp) →
     ∀ resp img_url img dg buf,
       w tr (Get (Dear.url cfg) []) = Ok resp →
       Dear.find_img lib (text resp) = Some (Some img_url) →
       contains (strftime_path ist_now) img_url = true →
       w (tr ++ [Get (Dear.url cfg) []]) (Get img_url []) = Ok img →
       Dear.extract_digits lib (content img) = Ok dg →
       Dear.recompress lib (content img) = Ok buf →
       Dear.process_slot w lib ist_now today slot tr
       = (Ok Dear.Uploaded,
          tr ++ [Get (Dear.url cfg) []; Get img_url []]
             ++ dear_posts lib today slot dg (content img))).
Proof.
  intros Hcfg. split.
  - intros tr' Hrun.
    destruct (process_slot_run w lib ist_now today slot tr cfg Hcfg)
      as (o & sent & Hrun' & _ & Hup).
    rewrite Hrun in Hrun'. injection Hrun' as <- ->.
    destruct (Hup eq_refl) as (img_url & img & dg & -> & Hdg & buf & Hbuf).
    by exists img_url, img, dg, buf.
  - intros Hall resp img_url img dg buf Hpage Himg Hc Hget Hdg Hbuf.
    unfold Dear.process_slot.
    rewrite Hcfg, run_catch, bind_lift_ok, bind_send, Hpage, Himg, Hc.
    cbn [negb]. cbv iota. rewrite bind_send, Hget, Hdg, bind_lift_ok, run_bind.
    destruct (post_data_run w lib today slot dg (content img)
                ((tr ++ [Get (Dear.url cfg) []]) ++ [Get img_url []]))
      as (r & posts & -> & _ & Hok & Hgood & _).
    rewrite (Hgood Hall) in * by by exists buf.
    destruct (Hok eq_refl) as [-> _]. rewrite run_ret, <- !app_assoc. done.
Qed.

Lemma uploaded_whatever_the_status_witness :
  let now := {| year := 2026; month := 2; day := 3; hour := 13; minute := 30 |} in
  let payload v : gmap string json := payload_for "2026-02-03" "mor" v in
  (∀ tr rq, is_post rq = true →
     rejecting_posts tr rq
     = Ok {| status_code := 500; text := ""; content := []; json_body := None |})
  ∧ Dear.process_slot rejecting_posts february_page now "2026-02-03" "mor" []
    = (Ok Dear.Uploaded,
       [Get "https://lotterysambad.one/nagaland-state-lottery-result-1-pm/" [];
        Get "https://lotterysambad.one/wp-content/uploads/2026/02/MD030226.jpg" [];
        PostJson "https://supervillain.pythonanywhere.com/api/dear/last-digit/" (payload "7");
        PostJson "https://supervillain.pythonanywhere.com/api/dear/last-two-digit/" (payload "97");
        PostJson "https://supervillain.pythonanywhere.com/api/dear/last-three-digit/" (payload "497");
        PostMultipart "https://supervillain.pythonanywhere.com/api/fax/"
          [("image", ("result.jpg", [], "image/jpeg"))]
          [("type", "dear"); ("date", "2026-02-03"); ("time", "mor")]]).
Proof.
  intros now payload.
  assert (∀ tr rq, is_post rq = true →
            rejecting_posts tr rq
            = Ok {| status_code := 500; text := ""; content := []; json_body := None |})
    as Hposts.
  { intros tr rq Hpost. unfold rejecting_posts. by rewrite Hpost. }
  split; [exact Hposts|].
  apply (proj2 (uploaded_whatever_the_status rejecting_posts
                  february_page now "2026-02-03" "mor" []
                  {| Dear.url := "https://lotterysambad.one/nagaland-state-lottery-result-1-pm/";
                     Dear.cfg_hour := 13 |} eq_refl)
           ltac:(intros tr rq Hpost; eexists; by apply Hposts)
           {| status_code := 200; text := ""; content := []; json_body := None |}
           "https://lotterysambad.one/wp-content/uploads/2026/02/MD030226.jpg"
           {| status_code := 200; text := ""; content := []; json_body := None |}
           {| Dear.l1 := "7"; Dear.l2 := "97"; Dear.l3 := "497" |} []);
    reflexivity.
Defined.

(** X6. A whole run of the image crawler publishes only for slots the
    planner found needed: after the GET of the state, every POST sent is a
    digit upsert or a snapshot for a slot whose hour is reached on the
    planner's clock and for which the fetched record holds the placeholder;
    a slot already recorded is never posted again.  When the planner returns
    a list, every slot of it gets its outcome, in order, whatever failed
    before it. *)
Theorem main_publishes_only_needed (w : world) (lib : Dear.libs)
    (ist_now planner_now : datetime) (tr : trace) :
  let today := strftime_date ist_now in
  let state := Get Dear.API_GET_STATE [("date", today)] in
  ∃ db r sent,
    Dear.api_get_today_state w today tr = (Ok db, tr ++ [state])
    ∧ Dear.main w lib ist_now planner_now tr = (r, (tr ++ [state]) ++ sent)
    ∧ (∀ rq, rq ∈ sent → is_post rq = true →
         ∃ slot thr m, db = JObj m ∧ (slot, thr) ∈ eligibility
           ∧ (thr ≤ hour planner_now)%Z ∧ m !! slot = Some (JStr "-")
           ∧ publishes_for "dear" today slot rq)
    ∧ (∀ needed, Dear.get_needed_slots planner_now db = Ok needed →
         ∃ os, r = Ok os ∧ os.*1 = needed)
    ∧ (∀ e, Dear.get_needed_slots planner_now db = Raise e → r = Raise e ∧ sent = []).
Proof.
  intros today state. unfold Dear.main. fold today.
  destruct (dear_state_run w today tr) as [db Hdb]. fold state in Hdb.
  exists db. rewrite run_bind, Hdb.
  destruct (Dear.get_needed_slots planner_now db) as [needed|e] eqn:Hplan.
  - rewrite bind_lift_ok.
    destruct (process_slots_posts w lib ist_now today needed (tr ++ [state]))
      as (os & sent & -> & Hfst & Hposts).
    exists (Ok os), sent. split; [done|]. split; [done|]. split; [|split].
    + intros rq Hin Hpost. destruct (Hposts rq Hin Hpost) as (slot & Hslot & Hpub).
      destruct (get_needed_slots_member _ _ _ _ Hplan Hslot) as (m & thr & -> & ? & ? & ?).
      by exists slot, thr, m.
    + intros ? [= <-]. by exists os.
    + discriminate.
  - rewrite bind_lift_raise. exists (Raise e), []. rewrite app_nil_r.
    split; [done|]. split; [done|]. split; [|split].
    + intros rq Hin. by apply elem_of_nil in Hin.
    + discriminate.
    + by intros ? [= <-].
Qed.

Lemma crawl_slot_run (w : world) (lib : Singapore.libs) (today : string)
    (needed links : list string) (i : nat) (slot : string) (tr : trace) :
  ∃ sent,
    Singapore.crawl_slot w lib today needed links i slot tr = (Ok tt, tr ++ sent)
    ∧ (slot ∉ needed → sent = [])
    ∧ (links !! i = None → sent = [])
    ∧ (slot ∈ needed → ∀ pdf_url, links !! i = Some pdf_url →
       ∃ posts, sent = Get pdf_url [] :: posts
                ∧ after_pdf w lib today slot tr (Get pdf_url []) posts).
Proof.
  unfold Singapore.crawl_slot, after_pdf.
  destruct (decide (slot ∈ needed)) as [Hin|Hout].
  2:{ rewrite bool_decide_eq_false_2 by done. exists []. rewrite app_nil_r.
      repeat split; done. }
  rewrite bool_decide_eq_true_2 by done. cbn [negb].
  destruct (links !! i) as [pdf_url|] eqn:Hlink.
  2:{ exists []. rewrite app_nil_r. repeat split; done. }
  rewrite run_catch, bind_send.
  set (G := Get pdf_url []).
  assert (∀ posts, after_pdf w lib today slot tr G posts →
            ∃ sent, (Ok tt, tr ++ G :: posts) = (Ok tt : result unit, tr ++ sent)
              ∧ (slot ∉ needed → sent = [])
              ∧ (Some pdf_url = None → sent = [])
              ∧ (slot ∈ needed → ∀ u, Some pdf_url = Some u →
                 ∃ posts', sent = Get u [] :: posts'
                           ∧ after_pdf w lib today slot tr (Get u []) posts')) as Hdone.
  { intros posts Hposts. exists (G :: posts). split; [done|]. split; [done|].
    split; [done|]. intros _ u [= <-]. by exists posts. }
  unfold after_pdf in Hdone.
  destruct (w tr G) as [pdf|e] eqn:Hget.
  2:{ apply (Hdone []). by left. }
  destruct (raise_for_status pdf) as [[]|e] eqn:Hst.
  2:{ rewrite bind_lift_raise. apply (Hdone []). by left. }
  rewrite bind_lift_ok.
  destruct (Singapore.extract_digits_from_pdf_bytes lib (content pdf)) as [dg|e] eqn:Hdg.
  2:{ rewrite bind_lift_raise. apply (Hdone []). by left. }
  rewrite bind_lift_ok.
  destruct (singapore_publish_run w lib today slot dg (content pdf) (tr ++ [G])) as [r ->].
  assert (¬ non_success pdf) as Hgood.
  { intros Hbad. rewrite raise_for_status_raises in Hst by done. discriminate. }
  rewrite <- app_assoc.
  destruct r as [[]|e]; rewrite ?run_ret; apply Hdone; right; by exists pdf, dg.
Qed.

Lemma singapore_posts_publish (lib : Singapore.libs) (today slot : string)
    (dg : Singapore.digits) (pdf_bytes : list byte) :
  Forall (publishes_for "singapore" today slot) (singapore_posts lib today slot dg pdf_bytes).
Proof.
  unfold singapore_posts. apply Forall_app. split.
  - repeat (apply Forall_cons; split; [simpl; by eexists|]). by apply Forall_nil.
  - destruct (Singapore.pdf_jpeg lib pdf_bytes); [|by apply Forall_nil].
    apply Forall_cons. split; [done|by apply Forall_nil].
Qed.

Lemma crawl_slot_posts (w : world) (lib : Singapore.libs) (today : string)
    (needed links : list string) (i : nat) (slot : string) (tr : trace) :
  ∃ sent,
    Singapore.crawl_slot w lib today needed links i slot tr = (Ok tt, tr ++ sent)
    ∧ ∀ rq, rq ∈ sent → is_post rq = true →
        slot ∈ needed ∧ publishes_for "singapore" today slot rq.
Proof.
  destruct (crawl_slot_run w lib today needed links i slot tr)
    as (sent & Hrun & Hout & Hnone & Hsome).
  exists sent. split; [done|]. intros rq Hin Hpost.
  destruct (decide (slot ∈ needed)) as [Hneeded|Hnot].
  2:{ rewrite (Hout Hnot) in Hin. by apply elem_of_nil in Hin. }
  split; [done|].
  destruct (links !! i) as [pdf_url|] eqn:Hlink.
  2:{ rewrite (Hnone eq_refl) in Hin. by apply elem_of_nil in Hin. }
  destruct (Hsome Hneeded pdf_url eq_refl) as (posts & -> & Hposts).
  apply elem_of_cons in Hin as [->|Hin]; [done|].
  destruct Hposts as [->|(pdf & dg & _ & _ & _ & ->)]; [by apply elem_of_nil in Hin|].
  pose proof (singapore_posts_publish lib today slot dg (content pdf)) as Hall.
  rewrite Forall_forall in Hall. apply Hall.
  destruct (sent_until_failure_prefix true w (tr ++ [Get pdf_url []])
              (singapore_posts lib today slot dg (content pdf))) as [rest Hrest].
  rewrite Hrest. apply elem_of_app. by left.
Qed.



Lemma singapore_state_run (w : world) (today : string) (tr : trace) :
  ∃ db, Singapore.api_get_today_state w today tr
        = (Ok db, tr ++ [Get Singapore.API_GET_STATE [("date", today)]]).
Proof. destruct (singapore_fetch_contract w today tr) as (v & Hrun & _). by exists v. Qed.

Lemma slots_to_crawl_not_dict (db : json) (cur : string) :
  (∀ m, db ≠ JObj m) → Singapore.slots_to_crawl db cur = Raise AttributeError.
Proof. intros Hdb. destruct db; try reflexivity. by destruct (Hdb m). Qed.

Lemma crawl_loop_members (m : gmap string json) (cur : string)
    (order : list (string * string)) (acc out : list string) :
  Singapore.crawl_loop order (JObj m) cur acc = Ok out →
  ∀ s, s ∈ out → s ∈ acc ∨ (s ∈ order.*2 ∧ m !! s = Some (JStr "-")).
Proof.
  revert acc. induction order as [|[l s'] order IH]; intros acc; simpl.
  - intros [= <-] s Hs. by left.
  - rewrite append_if_placeholder.
    assert (∀ x, x ∈ acc ++ (if holds_placeholder m s' then [s'] else [])
                 → x ∈ acc ∨ (x ∈ s' :: order.*2 ∧ m !! x = Some (JStr "-"))) as Hacc.
    { intros x [Hx|Hx]%elem_of_app; [by left|].
      destruct (holds_placeholder m s') eqn:E; [|by apply elem_of_nil in Hx].
      apply list_elem_of_singleton in Hx. subst. right.
      split; [apply elem_of_cons; by left|by apply holds_placeholder_lookup]. }
    case_bool_decide.
    + intros [= <-]. exact Hacc.
    + intros Hrun s Hs. destruct (IH _ Hrun s Hs) as [Hin|[Hin Hp]].
      * by apply Hacc.
      * right. split; [apply elem_of_cons; by right|done].
Qed.

Lemma slots_to_crawl_upto (m : gmap string json) (pre : list string) (cur : string)
    (post : list string) :
  declared_slots = pre ++ cur :: post →
  Singapore.slots_to_crawl (JObj m) cur
  = Ok (List.filter (holds_placeholder m) (pre ++ [cur])).
Proof.
  intros Hdecl. unfold declared_slots in Hdecl.
  unfold Singapore.slots_to_crawl, Singapore.TIME_ORDER.
  destruct pre as [|a [|b [|c pre]]]; simplify_eq/=.
  - apply (crawl_loop_obj m "mor" [] "12.30" [("16.30", "day"); ("20.30", "evn")] []).
    simpl. apply not_elem_of_nil.
  - apply (crawl_loop_obj m "day" [("12.30", "mor")] "16.30" [("20.30", "evn")] []).
    simpl. rewrite elem_of_cons, elem_of_nil. intros [?|[]]; discriminate.
  - apply (crawl_loop_obj m "evn" [("12.30", "mor"); ("16.30", "day")] "20.30" [] []).
    simpl. rewrite !elem_of_cons, elem_of_nil. intros [?|[?|[]]]; discriminate.
  - destruct pre; discriminate.
Qed.

Lemma slots_to_crawl_member (db : json) (cur : string) (needed : list string)
    (slot : string) :
  Singapore.slots_to_crawl db cur = Ok needed → slot ∈ needed →
  ∃ m, db = JObj m ∧ m !! slot = Some (JStr "-") ∧ slot ∈ declared_slots
       ∧ ∀ pre post, declared_slots = pre ++ cur :: post → slot ∈ pre ++ [cur].
Proof.
  intros Hrun Hin.
  destruct db as [| | | | | |m];
    try (rewrite slots_to_crawl_not_dict in Hrun by done; discriminate).
  exists m. split; [done|].
  destruct (crawl_loop_members m cur _ _ _ Hrun slot Hin) as [Hnil|[Hdecl Hp]];
    [by apply elem_of_nil in Hnil|].
  split; [done|]. split; [exact Hdecl|].
  intros pre post Hsplit. rewrite (slots_to_crawl_upto m pre cur post Hsplit) in Hrun.
  apply (f_equal (λ r, match r with Ok l => l | Raise _ => [] end)) in Hrun.
  rewrite <- Hrun in Hin. apply list_elem_of_In, filter_In in Hin as [Hin _].
  by apply list_elem_of_In.
Qed.

Lemma for_each_posts {A : Type} (xs : list A) (body : A → act unit)
    (P : request → Prop) :
  (∀ x tr, ∃ sent, body x tr = (Ok tt, tr ++ sent) ∧ ∀ rq, rq ∈ sent → P rq) →
  ∀ tr, ∃ sent, for_each xs body tr = (Ok tt, tr ++ sent) ∧ ∀ rq, rq ∈ sent → P rq.
Proof.
  intros Hbody. induction xs as [|x rest IH]; intros tr; simpl.
  - exists []. rewrite app_nil_r. split; [done|]. intros rq Hin. by apply elem_of_nil in Hin.
  - rewrite run_bind. destruct (Hbody x tr) as (s1 & -> & H1).
    destruct (IH (tr ++ s1)) as (s2 & -> & H2).
    exists (s1 ++ s2). rewrite app_assoc. split; [done|].
    intros rq [?|?]%elem_of_app; auto.
Qed.

Lemma listing_run (w : world) (lib : Singapore.libs) (tr : trace) :
  let page_get := Get Singapore.BASE_URL [] in
  ∃ links,
    catch
      (page ← send w page_get;
       lift (raise_for_status page);;
       mret (Some (Singapore.select_pdf_links lib (text page))))
      (λ _, mret None) tr
    = (Ok links, tr ++ [page_get])
    ∧ ((∃ e, w tr page_get = Raise e)
       ∨ (∃ page, w tr page_get = Ok page ∧ non_success page) → links = None).
Proof.
  intros page_get. rewrite run_catch, bind_send.
  destruct (w tr page_get) as [page|e].
  2:{ exists None. split; [done|]. done. }
  destruct (raise_for_status page) as [[]|e] eqn:Hst.
  - rewrite bind_lift_ok, run_ret. eexists. split; [done|].
    intros [[e [=]]|(p & [= <-] & Hbad)].
    rewrite raise_for_status_raises in Hst by done. discriminate.
  - rewrite bind_lift_raise. exists None. done.
Qed.

(** X8. The early exits of a run of the PDF crawler, each after the GET of
    the state: with nothing to crawl the run ends there; a fetched state
    that is not a dict makes the run raise AttributeError; and when the
    listing page raises or answers with an error status, the run ends after
    that second GET with nothing fetched or posted for any slot. *)
Theorem pdf_run_early_exits (w : world) (lib : Singapore.libs) (ist_now : datetime)
    (current_slot : string) (tr : trace) :
  let today := strftime_date ist_now in
  let state := Get Singapore.API_GET_STATE [("date", today)] in
  let listing := Get Singapore.BASE_URL [] in
  ∃ db,
    Singapore.api_get_today_state w today tr = (Ok db, tr ++ [state])
    ∧ (Singapore.slots_to_crawl db current_slot = Ok [] →
       Singapore.crawl_and_process w lib ist_now current_slot tr = (Ok tt, tr ++ [state]))
    ∧ ((∀ m, db ≠ JObj m) →
       Singapore.crawl_and_process w lib ist_now current_slot tr
       = (Raise AttributeError, tr ++ [state]))
    ∧ (∀ slot rest, Singapore.slots_to_crawl db current_slot = Ok (slot :: rest) →
       (∃ e, w (tr ++ [state]) listing = Raise e)
       ∨ (∃ page, w (tr ++ [state]) listing = Ok page ∧ non_success page) →
       Singapore.crawl_and_process w lib ist_now current_slot tr
       = (Ok tt, tr ++ [state; listing])).
Proof.
  intros today state listing. unfold Singapore.crawl_and_process. fold today.
  destruct (singapore_state_run w today tr) as [db Hdb]. fold state in Hdb.
  exists db. split; [done|]. rewrite run_bind, Hdb. split; [|split].
  - intros ->. by rewrite bind_lift_ok.
  - intros Hdb'. by rewrite slots_to_crawl_not_dict, bind_lift_raise by done.
  - intros slot rest -> Hfail. rewrite bind_lift_ok, run_bind.
    destruct (listing_run w lib (tr ++ [state])) as (links & -> & Hnone).
    fold listing in Hnone. rewrite (Hnone Hfail), run_ret, <- app_assoc. done.
Qed.

(** X9. A whole run of the PDF crawler publishes only for slots its planner
    returned: every POST sent after the GET of the state is a digit upsert
    or a snapshot for a declared slot for which the fetched record holds the
    placeholder and which is not after the current slot; a slot already
    recorded is never posted again. *)
Theorem pdf_run_publishes_only_needed (w : world) (lib : Singapore.libs)
    (ist_now : datetime) (current_slot : string) (tr : trace) :
  let today := strftime_date ist_now in
  let state := Get Singapore.API_GET_STATE [("date", today)] in
  ∃ db r sent,
    Singapore.api_get_today_state w today tr = (Ok db, tr ++ [state])
    ∧ Singapore.crawl_and_process w lib ist_now current_slot tr
      = (r, (tr ++ [state]) ++ sent)
    ∧ ∀ rq, rq ∈ sent → is_post rq = true →
        ∃ slot m, db = JObj m ∧ m !! slot = Some (JStr "-") ∧ slot ∈ declared_slots
          ∧ (∀ pre post, declared_slots = pre ++ current_slot :: post →
               slot ∈ pre ++ [current_slot])
          ∧ publishes_for "singapore" today slot rq.
Proof.
  intros today state. unfold Singapore.crawl_and_process. fold today.
  destruct (singapore_state_run w today tr) as [db Hdb]. fold state in Hdb.
  exists db. rewrite run_bind, Hdb.
  destruct (Singapore.slots_to_crawl db current_slot) as [needed|e] eqn:Hplan.
  2:{ rewrite bind_lift_raise. exists (Raise e), []. rewrite app_nil_r.
      split; [done|]. split; [done|]. intros rq Hin. by apply elem_of_nil in Hin. }
  rewrite bind_lift_ok. destruct needed as [|slot0 rest].
  { exists (Ok tt), []. rewrite app_nil_r, run_ret.
    split; [done|]. split; [done|]. intros rq Hin. by apply elem_of_nil in Hin. }
  set (needed := slot0 :: rest) in *.
  rewrite run_bind.
  destruct (listing_run w lib (tr ++ [state])) as ([links|] & -> & _).
  2:{ exists (Ok tt), [Get Singapore.BASE_URL []]. rewrite run_ret.
      split; [done|]. split; [done|].
      intros rq Hin. apply list_elem_of_singleton in Hin. by subst. }
  destruct (for_each_posts
              (zip (seq 0 (length Singapore.TIME_ORDER)) Singapore.TIME_ORDER)
              (λ '(i, (_, slot)), Singapore.crawl_slot w lib today needed links i slot)
              (λ rq, is_post rq = true →
                     ∃ slot, slot ∈ needed ∧ publishes_for "singapore" today slot rq))
    with ((tr ++ [state]) ++ [Get Singapore.BASE_URL []]) as (sent & -> & Hsent).
  { intros [i [l slot]] tr0.
    destruct (crawl_slot_posts w lib today needed links i slot tr0) as (s & Hrun & Hs).
    exists s. split; [done|]. intros rq Hin Hpost. exists slot. by apply Hs. }
  exists (Ok tt), (Get Singapore.BASE_URL [] :: sent). rewrite <- app_assoc.
  split; [done|]. split; [done|].
  intros rq [->|Hin]%elem_of_cons Hpost; [done|].
  destruct (Hsent rq Hin Hpost) as (slot & Hslot & Hpub).
  destruct (slots_to_crawl_member _ _ _ _ Hplan Hslot) as (m & -> & Hp & Hd & Hupto).
  by exists slot, m.
Qed.

(** X10. Outside its windows the PDF crawler's script does nothing: with
    the IST time of [detect_time_slot] computed from a valid UTC time before
    07:00 or from 18:30 on, the entry point returns without sending any
    request. *)
Theorem entry_outside_windows (w : world) (lib : Singapore.libs)
    (utc now_detect now_crawl : datetime) (tr : trace) :
  valid_datetime utc →
  Singapore.get_now_ist utc = Ok now_detect →
  (minute_of_day utc < 420 ∨ 1110 ≤ minute_of_day utc)%Z →
  Singapore.entry w lib now_detect now_crawl tr = (Ok tt, tr).
Proof.
  intros Hv Hist Hout. destruct (get_now_ist_minute utc now_detect Hv Hist) as (Hmod & _ & _).
  destruct Hv as (_ & _ & _ & Hh & Hmin).
  assert (0 ≤ minute_of_day utc < 1440)%Z as Hrange by (unfold minute_of_day; lia).
  unfold Singapore.entry, Singapore.detect_time_slot. fold (minute_of_day now_detect).
  rewrite Hmod.
  destruct (Z.ltb_spec (minute_of_day utc) 1110);
    match goal with
    | |- context [(?a <? 750)%Z] => destruct (Z.ltb_spec a 750); [done|lia]
    end.
Qed.

Lemma entry_outside_windows_witness :
  let utc := {| year := 2026; month := 2; day := 3; hour := 6; minute := 59 |} in
  let ist := {| year := 2026; month := 2; day := 3; hour := 12; minute := 29 |} in
  Singapore.get_now_ist utc = Ok ist
  ∧ Singapore.entry rejecting_posts (pdf_reading "" []) ist ist [] = (Ok tt, []).
Proof.
  intros utc ist. split; [reflexivity|].
  apply (entry_outside_windows rejecting_posts (pdf_reading "" []) utc ist ist []).
  - unfold valid_datetime. simpl. lia.
  - reflexivity.
  - left. unfold minute_of_day. simpl. lia.
Defined.

(** ** The backfill's check and run *)

Lemma check_if_exists_sound (w : world) (lotto_type today : string) (tr : trace) :
  Lucky.check_if_exists w lotto_type today tr
  = (Ok true, tr ++ [lucky_get lotto_type today]) →
  reports_existing (w tr (lucky_get lotto_type today)).
Proof.
  unfold Lucky.check_if_exists, lucky_get, reports_existing, json_of.
  rewrite run_catch, bind_send.
  destruct (w tr _) as [r|e]; [|discriminate].
  destruct (Z.eqb_spec (status_code r) 200) as [Hst|]; [|discriminate].
  destruct (json_body r) as [data|] eqn:Hbody; [|discriminate].
  rewrite bind_lift_ok.
  destruct data as [| | | | | |m]; try discriminate.
  simpl get. rewrite bind_lift_ok.
  destruct (truthy (default JNull (m !! "lucky"))) eqn:Ht; [|discriminate].
  intros _. destruct (m !! "lucky") as [v|] eqn:Hl; [|discriminate].
  by exists r, m, v.
Qed.

(** X11. The existence check never raises, always sends exactly its one
    GET, and answers True exactly when the response has status 200 and a
    dict body whose "lucky" entry is a non-empty value: a missing key, null,
    the empty string, 0, a body that is not a dict or not JSON, another
    status and an exception all give False. *)
Theorem existence_check_exact (w : world) (lotto_type today : string) (tr : trace) :
  ∃ b, Lucky.check_if_exists w lotto_type today tr
       = (Ok b, tr ++ [lucky_get lotto_type today])
    ∧ (b = true ↔ reports_existing (w tr (lucky_get lotto_type today))).
Proof.
  destruct (check_if_exists_total w lotto_type today tr) as [b Hrun].
  exists b. split; [exact Hrun|]. split.
  - intros ->. by apply check_if_exists_sound.
  - intros (r & m & v & Hw & Hst & Hbody & Hl & Ht).
    rewrite (check_if_exists_true w lotto_type today tr r m v Hw Hst Hbody Hl Ht) in Hrun.
    congruence.
Qed.

Lemma check_if_exists_decide (w : world) (lotto_type today : string) (tr : trace) :
  (Lucky.check_if_exists w lotto_type today tr = (Ok true, tr ++ [lucky_get lotto_type today])
   ∧ reports_existing (w tr (lucky_get lotto_type today)))
  ∨ (Lucky.check_if_exists w lotto_type today tr = (Ok false, tr ++ [lucky_get lotto_type today])
     ∧ ¬ reports_existing (w tr (lucky_get lotto_type today))).
Proof.
  destruct (check_if_exists_total w lotto_type today tr) as [[] Hrun].
  - left. split; [done|]. by apply check_if_exists_sound.
  - right. split; [done|].
    intros (r & m & v & Hw & Hst & Hbody & Hl & Ht).
    rewrite (check_if_exists_true w lotto_type today tr r m v Hw Hst Hbody Hl Ht) in Hrun.
    congruence.
Qed.

(** X12. A whole run of the backfill never raises, whatever the remote side
    does, and has one shape: the check of "singapore", at most one POST for
    it, the check of "dear", at most one POST for it.  A category is posted
    exactly when its check did not find a value, also when the POST of the
    category before it failed; the first value posted uses the draws 0..3
    and a second one the draws 4..7; the run returns the number of draws
    used. *)
Theorem backfill_run_shape (w : world) (rand : Lucky.rng) (now : datetime) (tr : trace) :
  let today := strftime_date now in
  let post t pos :=
    PostJson Lucky.API_URL
      (Lucky.lucky_payload t today (Lucky.generate_lucky_string rand pos).1) in
  ∃ sent_s sent_d,
    Lucky.update_numbers w rand now tr
    = (Ok (4 * (length sent_s + length sent_d))%nat,
       tr ++ [lucky_get "singapore" today] ++ sent_s
          ++ [lucky_get "dear" today] ++ sent_d)
    ∧ (reports_existing (w tr (lucky_get "singapore" today)) ∧ sent_s = []
       ∨ ¬ reports_existing (w tr (lucky_get "singapore" today))
         ∧ sent_s = [post "singapore" 0%nat])
    ∧ let tr_d := tr ++ [lucky_get "singapore" today] ++ sent_s in
      (reports_existing (w tr_d (lucky_get "dear" today)) ∧ sent_d = []
       ∨ ¬ reports_existing (w tr_d (lucky_get "dear" today))
         ∧ sent_d = [post "dear" (4 * length sent_s)%nat]).
Proof.
  intros today post. unfold Lucky.update_numbers, Lucky.TYPES. fold today.
  destruct (check_if_exists_decide w "singapore" today tr) as [[Hc Hs]|[Hc Hs]].
  - rewrite (update_loop_skip w rand today "singapore" ["dear"] 0 tr Hc).
    set (tr1 := tr ++ [lucky_get "singapore" today]).
    destruct (check_if_exists_decide w "dear" today tr1) as [[Hc' Hd]|[Hc' Hd]].
    + rewrite (update_loop_skip w rand today "dear" [] 0 tr1 Hc').
      exists [], []. unfold tr1 in *. simpl. rewrite run_ret, <- ?app_assoc.
      split; [done|]. split; [by left|by left].
    + rewrite (update_loop_post w rand today "dear" [] 0 tr1 Hc').
      exists [], [post "dear" 0%nat]. unfold tr1 in *. simpl. rewrite run_ret, <- ?app_assoc.
      split; [done|]. split; [by left|by right].
  - rewrite (update_loop_post w rand today "singapore" ["dear"] 0 tr Hc).
    fold (post "singapore" 0%nat).
    set (tr1 := tr ++ [lucky_get "singapore" today; post "singapore" 0%nat]).
    destruct (check_if_exists_decide w "dear" today tr1) as [[Hc' Hd]|[Hc' Hd]].
    + rewrite (update_loop_skip w rand today "dear" [] _ tr1 Hc').
      exists [post "singapore" 0%nat], []. unfold tr1 in *. simpl.
      rewrite run_ret, <- ?app_assoc. split; [done|]. split; [by right|by left].
    + rewrite (update_loop_post w rand today "dear" [] _ tr1 Hc').
      exists [post "singapore" 0%nat], [post "dear" 4%nat]. unfold tr1 in *. simpl.
      rewrite run_ret, <- ?app_assoc. split; [done|]. split; [by right|by right].
Qed.

(** ** The search of the PDF extractor *)

Lemma match_literal_sound (lit s s' : string) :
  match_literal lit s = Some s' → ∃ pre, s = pre +:+ s' ∧ lowered pre = lowered lit.
Proof.
  revert s. induction lit as [|a lit IH]; intros s; simpl.
  - intros [= ->]. by exists "".
  - destruct s as [|b s]; [discriminate|].
    destruct (Ascii.eqb_spec (lower a) (lower b)) as [Heq|]; [|discriminate].
    intros Hm. destruct (IH s Hm) as (pre & -> & Hl).
    exists (String b pre). simpl. by rewrite Hl, Heq.
Qed.

Lemma match_literal_complete (lit pre s' : string) :
  lowered pre = lowered lit → match_literal lit (pre +:+ s') = Some s'.
Proof.
  revert pre. induction lit as [|a lit IH]; intros [|b pre]; simpl; try done.
  intros [= Hb Hl]. rewrite Hb, Ascii.eqb_refl. by apply IH.
Qed.

Lemma skip_spaces_sound (s : string) :
  ∃ sp, s = sp +:+ skip_spaces s ∧ all_spaces sp = true.
Proof.
  induction s as [|c s (sp & Hs & Hsp)]; simpl.
  - by exists "".
  - destruct (is_space c) eqn:E.
    + exists (String c sp). simpl. rewrite E, Hsp. by rewrite <- Hs.
    + by exists "".
Qed.

Lemma skip_spaces_complete (sp : string) (c : ascii) (s : string) :
  all_spaces sp = true → is_space c = false →
  skip_spaces (sp +:+ String c s) = String c s.
Proof.
  intros Hsp Hc. induction sp as [|x sp IH]; simpl in *.
  - by rewrite Hc.
  - apply andb_true_iff in Hsp as [-> Hsp]. by apply IH.
Qed.

Lemma lower_p_not_space (c : ascii) : lower c = "p"%char → is_space c = false.
Proof. destruct c as [[] [] [] [] [] [] [] []]; by vm_compute. Qed.

Lemma span_digits_split (s : string) :
  ∃ rest, s = span_digits s +:+ rest ∧ span_digits rest = "".
Proof.
  induction s as [|c s (rest & Hs & Hr)]; simpl.
  - by exists "".
  - destruct (is_digit c) eqn:E.
    + exists rest. simpl. by rewrite <- Hs.
    + exists (String c s). simpl. by rewrite E.
Qed.

Lemma span_digits_app (g after : string) :
  all_digits g = true → span_digits (g +:+ after) = g +:+ span_digits after.
Proof.
  induction g as [|c g IH]; simpl; [done|].
  intros [-> Hg]%andb_true_iff. by rewrite IH.
Qed.

Lemma lazy_then_digits_sound (s g : string) :
  lazy_then_digits s = Some g →
  ∃ gap after, s = gap +:+ g +:+ after ∧ no_newline gap = true
               ∧ span_digits after = "".
Proof.
  revert g. induction s as [|c s IH]; intros g.
  - discriminate.
  - rewrite lazy_then_digits_cons. destruct (Nat.leb 4 _).
    + intros Hg. assert (g = span_digits (String c s)) as -> by congruence.
      destruct (span_digits_split (String c s)) as (rest & Hs & Hr).
      by exists "", rest.
    + destruct (Ascii.eqb c "010"%char) eqn:E; [discriminate|].
      intros Hg. destruct (IH g Hg) as (gap & after & -> & Hgap & Hafter).
      exists (String c gap), after. simpl. by rewrite E, Hgap.
Qed.

Lemma lazy_then_digits_complete (gap g after : string) :
  no_newline gap = true → (4 ≤ String.length g)%nat → all_digits g = true →
  ∃ g', lazy_then_digits (gap +:+ g +:+ after) = Some g'.
Proof.
  intros Hgap Hlen Hg. induction gap as [|c gap IH].
  - change ("" +:+ g +:+ after) with (g +:+ after).
    destruct g as [|c g]; [simpl in Hlen; lia|].
    change (String c g +:+ after) with (String c (g +:+ after)).
    rewrite lazy_then_digits_cons.
    change (String c (g +:+ after)) with (String c g +:+ after).
    rewrite span_digits_app, length_app by done.
    destruct (Nat.leb_spec 4 (String.length (String c g) + String.length (span_digits after)));
      [by eexists|lia].
  - simpl in Hgap. apply andb_true_iff in Hgap as [Hc Hgap].
    change (String c gap +:+ g +:+ after) with (String c (gap +:+ g +:+ after)).
    rewrite lazy_then_digits_cons. destruct (Nat.leb 4 _); [by eexists|].
    apply negb_true_iff in Hc. rewrite Hc. by apply IH.
Qed.

Lemma first_prize_here_sound (s g : string) :
  first_prize_here s = Some g →
  ∃ label1 spaces label2 gap after,
    s = label1 +:+ spaces +:+ label2 +:+ gap +:+ g +:+ after
    ∧ lowered label1 = "1st" ∧ all_spaces spaces = true ∧ lowered label2 = "prize"
    ∧ no_newline gap = true ∧ span_digits after = "".
Proof.
  unfold first_prize_here.
  intros (s1 & H1 & H)%bind_Some. apply bind_Some in H as (s2 & H2 & H3).
  destruct (match_literal_sound _ _ _ H1) as (label1 & -> & Hl1).
  destruct (skip_spaces_sound s1) as (spaces & Hs1 & Hsp).
  destruct (match_literal_sound _ _ _ H2) as (label2 & Hs2 & Hl2).
  destruct (lazy_then_digits_sound _ _ H3) as (gap & after & -> & Hgap & Hafter).
  exists label1, spaces, label2, gap, after.
  rewrite Hs1 at 1. rewrite Hs2. done.
Qed.

Lemma first_prize_here_complete (label1 spaces label2 gap g after : string) :
  lowered label1 = "1st" → all_spaces spaces = true → lowered label2 = "prize" →
  no_newline gap = true → (4 ≤ String.length g)%nat → all_digits g = true →
  ∃ g', first_prize_here (label1 +:+ spaces +:+ label2 +:+ gap +:+ g +:+ after) = Some g'.
Proof.
  intros Hl1 Hsp Hl2 Hgap Hlen Hg.
  destruct (lazy_then_digits_complete gap g after Hgap Hlen Hg) as [g' Hlazy].
  exists g'. unfold first_prize_here.
  rewrite (match_literal_complete "1st" label1) by done.
  change (Some (spaces +:+ label2 +:+ gap +:+ g +:+ after) ≫= _)
    with (match_literal "Prize" (skip_spaces (spaces +:+ label2 +:+ gap +:+ g +:+ after))
          ≫= lazy_then_digits).
  destruct label2 as [|c label2]; [discriminate|].
  change (String c label2 +:+ gap +:+ g +:+ after)
    with (String c (label2 +:+ gap +:+ g +:+ after)).
  rewrite skip_spaces_complete; [|done|].
  2:{ apply lower_p_not_space. by injection Hl2. }
  change (String c (label2 +:+ gap +:+ g +:+ after))
    with (String c label2 +:+ gap +:+ g +:+ after).
  rewrite (match_literal_complete "Prize" (String c label2)) by done.
  exact Hlazy.
Qed.

Lemma search_first_prize_cons (c : ascii) (s : string) :
  search_first_prize (String c s)
  = match first_prize_here (String c s) with
    | Some g => Some g
    | None => search_first_prize s
    end.
Proof. reflexivity. Qed.

Lemma search_first_prize_sound (text g : string) :
  search_first_prize text = Some g → first_prize_at text g.
Proof.
  induction text as [|c text IH].
  - discriminate.
  - rewrite search_first_prize_cons.
    destruct (first_prize_here (String c text)) as [g'|] eqn:Hhere.
    + intros [= ->]. pose proof (f_equal id Hhere) as Hkeep.
      destruct (first_prize_here_sound _ _ Hhere)
        as (l1 & sp & l2 & gap & after & Heq & ? & ? & ? & ? & ?).
      assert ((4 ≤ String.length g)%nat ∧ all_digits g = true) as [? ?].
      { apply (search_first_prize_some (String c text)).
        by rewrite search_first_prize_cons, Hhere. }
      exists "", l1, sp, l2, gap, after. by rewrite Heq.
    + intros Hs.
      destruct (IH Hs) as (before & l1 & sp & l2 & gap & after & -> & Hrest).
      by exists (String c before), l1, sp, l2, gap, after.
Qed.

Lemma search_first_prize_complete (text g : string) :
  first_prize_at text g → ∃ g', search_first_prize text = Some g'.
Proof.
  intros (before & l1 & sp & l2 & gap & after & -> & Hl1 & Hsp & Hl2 & Hgap & Hlen & Hg).
  destruct (first_prize_here_complete l1 sp l2 gap g after Hl1 Hsp Hl2 Hgap Hlen Hg)
    as [g' Hhere].
  induction before as [|c before IH].
  - change ("" +:+ l1 +:+ sp +:+ l2 +:+ gap +:+ g +:+ after)
      with (l1 +:+ sp +:+ l2 +:+ gap +:+ g +:+ after).
    destruct l1 as [|c l1]; [discriminate|].
    change (String c l1 +:+ sp +:+ l2 +:+ gap +:+ g +:+ after)
      with (String c (l1 +:+ sp +:+ l2 +:+ gap +:+ g +:+ after)) in *.
    rewrite search_first_prize_cons, Hhere. by eexists.
  - change (String c before +:+ l1 +:+ sp +:+ l2 +:+ gap +:+ g +:+ after)
      with (String c (before +:+ l1 +:+ sp +:+ l2 +:+ gap +:+ g +:+ after)).
    rewrite search_first_prize_cons.
    destruct (first_prize_here (String c _)); [by eexists|exact IH].
Qed.

(** X13. The PDF extractor succeeds exactly when the text holds a
    "1st Prize" label (any case, any white space between the words) followed
    on the same line by four or more digits, and then returns the suffixes
    of such a number from the text; otherwise it raises the error "1st Prize
    number not found in PDF". *)
Theorem pdf_number_found_exactly (text : string) :
  (∀ dg, Singapore.digits_of_text text = Ok dg →
     ∃ num, first_prize_at text num
       ∧ dg = {| Singapore.last_1 := suffix 1 num; Singapore.last_2 := suffix 2 num;
                 Singapore.last_3 := suffix 3 num |})
  ∧ ((∃ num, first_prize_at text num) → ∃ dg, Singapore.digits_of_text text = Ok dg)
  ∧ ((∀ num, ¬ first_prize_at text num) →
     Singapore.digits_of_text text = Raise (ValueError "1st Prize number not found in PDF"))
  ∧ ∀ lib pdf_bytes, Singapore.pdf_text lib pdf_bytes = Ok text →
      Singapore.extract_digits_from_pdf_bytes lib pdf_bytes = Singapore.digits_of_text text.
Proof.
  assert (∀ num, search_first_prize text = Some num →
            Singapore.digits_of_text text
            = Ok {| Singapore.last_1 := suffix 1 num; Singapore.last_2 := suffix 2 num;
                    Singapore.last_3 := suffix 3 num |}) as Hfound.
  { intros num Hs. unfold Singapore.digits_of_text, Singapore.digits_of_number. rewrite Hs.
    destruct (search_first_prize_some _ _ Hs) as [Hlen _].
    by rewrite last_char_nonempty by lia. }
  split; [|split; [|split]].
  - intros dg Hrun.
    destruct (search_first_prize text) as [num|] eqn:Hs.
    + rewrite (Hfound num eq_refl) in Hrun. injection Hrun as <-.
      exists num. split; [by apply search_first_prize_sound|done].
    + unfold Singapore.digits_of_text in Hrun. rewrite Hs in Hrun. discriminate.
  - intros [num Hat]. destruct (search_first_prize_complete _ _ Hat) as [g' Hs].
    eexists. by apply Hfound.
  - intros Hnone. unfold Singapore.digits_of_text.
    destruct (search_first_prize text) as [num|] eqn:Hs; [|done].
    destruct (Hnone num). by apply search_first_prize_sound.
  - intros lib pdf_bytes Htext. unfold Singapore.extract_digits_from_pdf_bytes.
    by rewrite Htext.
Qed.

Lemma pdf_number_found_exactly_witness :
  Singapore.extract_digits_from_pdf_bytes
    (pdf_reading "Draw 41 - 1ST  PRIZE: 82497 2nd Prize: 11111" []) []
  = Singapore.digits_of_text "Draw 41 - 1ST  PRIZE: 82497 2nd Prize: 11111"
  ∧ Singapore.digits_of_text "Draw 41 - 1ST  PRIZE: 82497 2nd Prize: 11111"
    = Ok {| Singapore.last_1 := "7"; Singapore.last_2 := "97"; Singapore.last_3 := "497" |}.
Proof.
  destruct (pdf_number_found_exactly "Draw 41 - 1ST  PRIZE: 82497 2nd Prize: 11111")
    as (_ & _ & _ & Hlib).
  split; [by apply Hlib|reflexivity].
Defined.

(** ** The values the extractors return *)

Lemma all_digits_drop (n : nat) (s : string) :
  all_digits s = true → all_digits (drop n s) = true.
Proof.
  revert s. induction n as [|n IH]; intros [|c s]; simpl; try done.
  intros [_ Hs]%andb_true_iff. by apply IH.
Qed.

Lemma rightmost_nested (k k' : nat) (num : string) :
  (k ≤ k')%nat → (k' ≤ String.length num)%nat →
  rightmost k (suffix k' num) (suffix k num).
Proof.
  intros Hk Hk'.
  destruct (suffix_rightmost k' num Hk') as [Hlen' [pre' Hnum]].
  destruct (suffix_rightmost k (suffix k' num)) as [Hlen [p Hs']]; [lia|].
  assert (rightmost k num (suffix k (suffix k' num))) as Hc.
  { split; [done|]. exists (pre' +:+ p). by rewrite app_assoc_s, <- Hs'. }
  rewrite (rightmost_unique k num _ _ (suffix_rightmost k num ltac:(lia)) Hc).
  split; [done|by exists p].
Qed.

Lemma suffixes_consistent (num : string) :
  (3 ≤ String.length num)%nat → all_digits num = true →
  consistent_suffixes (suffix 1 num) (suffix 2 num) (suffix 3 num).
Proof.
  intros Hlen Hd. unfold consistent_suffixes.
  destruct (suffix_rightmost 1 num) as [H1 _]; [lia|].
  destruct (suffix_rightmost 2 num) as [H2 _]; [lia|].
  destruct (suffix_rightmost 3 num) as [H3 _]; [lia|].
  split; [done|]. split; [done|]. split; [done|].
  split; [by apply all_digits_drop|].
  split; [apply (rightmost_nested 1 2 num); lia|apply (rightmost_nested 2 3 num); lia].
Qed.

(** X14. Whenever an extractor returns, the three values it returns fit
    together: they are one, two and three decimal digits, the first the last
    character of the second and the second the last two of the third. *)
Theorem published_values_consistent :
  (∀ lib image_bytes dg, Dear.extract_digits lib image_bytes = Ok dg →
     consistent_suffixes (Dear.l1 dg) (Dear.l2 dg) (Dear.l3 dg))
  ∧ (∀ lib pdf_bytes dg, Singapore.extract_digits_from_pdf_bytes lib pdf_bytes = Ok dg →
       consistent_suffixes (Singapore.last_1 dg) (Singapore.last_2 dg)
         (Singapore.last_3 dg)).
Proof.
  split.
  - intros lib image_bytes dg. unfold Dear.extract_digits.
    destruct (Dear.readtext lib image_bytes) as [results|e]; [|discriminate].
    rewrite bind_ok. unfold Dear.digits_of_fragments.
    destruct (search_d5 (join " " results)) as [m|] eqn:Hs; [|discriminate].
    destruct (search_d5_some _ _ Hs) as [(pre & post & _ & _ & Hl & Hd) _].
    unfold Dear.digits_of_number. rewrite last_char_nonempty by lia.
    intros [= <-]. simpl. apply suffixes_consistent; [lia|done].
  - intros lib pdf_bytes dg. unfold Singapore.extract_digits_from_pdf_bytes.
    destruct (Singapore.pdf_text lib pdf_bytes) as [text|e]; [|discriminate].
    rewrite bind_ok. unfold Singapore.digits_of_text.
    destruct (search_first_prize text) as [num|] eqn:Hs; [|discriminate].
    destruct (search_first_prize_some _ _ Hs) as [Hl Hd].
    unfold Singapore.digits_of_number. rewrite last_char_nonempty by lia.
    intros [= <-]. simpl. apply suffixes_consistent; [lia|done].
Qed.

Lemma published_values_consistent_witness :
  consistent_suffixes "7" "97" "497".
Proof.
  exact (proj1 published_values_consistent (ocr_reading ["82497"]) []
           {| Dear.l1 := "7"; Dear.l2 := "97"; Dear.l3 := "497" |} eq_refl).
Defined.

(** X15. The edges of the sequential planner: a current slot that is not
    one of the declared slots never stops the scan, so every declared slot
    holding the placeholder is returned; and a state that is not a dict
    makes the planner raise AttributeError at the first slot. *)
Theorem sequential_planner_edges (cur : string) :
  (cur ∉ declared_slots →
   ∀ m, Singapore.slots_to_crawl (JObj m) cur
        = Ok (List.filter (holds_placeholder m) declared_slots))
  ∧ (∀ db, (∀ m, db ≠ JObj m) →
       Singapore.slots_to_crawl db cur = Raise AttributeError).
Proof.
  split; [|intros db; apply slots_to_crawl_not_dict].
  intros Hcur m. unfold declared_slots in *.
  unfold Singapore.slots_to_crawl, Singapore.TIME_ORDER. simpl.
  assert (cur ≠ "mor" ∧ cur ≠ "day" ∧ cur ≠ "evn") as (? & ? & ?).
  { rewrite !not_elem_of_cons in Hcur. destruct Hcur as (? & ? & ? & _). done. }
  rewrite !bool_decide_eq_false_2 by congruence.
  fold (holds_placeholder m "mor") (holds_placeholder m "day") (holds_placeholder m "evn").
  unfold holds_placeholder, placeholder.
  by destruct (eq_str _ _), (eq_str _ _), (eq_str _ _).
Qed.

Lemma sequential_planner_edges_witness :
  Singapore.slots_to_crawl (JObj (<["day" := JStr "904"]> (fresh "2026-02-03"))) "night"
  = Ok ["mor"; "evn"]
  ∧ Singapore.slots_to_crawl (JArr []) "mor" = Raise AttributeError.
Proof.
  destruct (sequential_planner_edges "night") as [Hall _].
  destruct (sequential_planner_edges "mor") as [_ Hraise].
  split.
  - apply Hall. unfold declared_slots. rewrite !not_elem_of_cons.
    repeat split; try discriminate. apply not_elem_of_nil.
  - apply Hraise. discriminate.
Defined.

(** ** The OCR fragments *)

Lemma take_before_space (n : nat) (a b : string) :
  all_digits (take n (a +:+ " " +:+ b)) = true →
  String.length (take n (a +:+ " " +:+ b)) = n →
  take n (a +:+ " " +:+ b) = take n a ∧ String.length (take n a) = n.
Proof.
  revert a. induction n as [|n IH]; intros a; [by destruct a|].
  destruct a as [|c a].
  - change ("" +:+ " " +:+ b) with (String " " b). simpl. discriminate.
  - change (String c a +:+ " " +:+ b) with (String c (a +:+ " " +:+ b)).
    cbn [take all_digits String.length].
    intros [Hc Hd]%andb_true_iff [= Hl]. destruct (IH a Hd Hl) as [-> ->]. done.
Qed.

Lemma five_digits_at_join2 (a b : string) (i : nat) (g : string) :
  five_digits_at (a +:+ " " +:+ b) i g →
  (∃ j, five_digits_at a j g) ∨ (∃ j, five_digits_at b j g).
Proof.
  revert i. induction a as [|c a IH]; intros i Hat.
  - change ("" +:+ " " +:+ b) with (String " " b) in Hat. destruct i as [|i].
    + pose proof (five_digits_at_0 _ _ Hat) as ->.
      destruct Hat as (_ & _ & _ & _ & _ & Hd). simpl in Hd. discriminate.
    + apply five_digits_at_S in Hat. right. by exists i.
  - change (String c a +:+ " " +:+ b) with (String c (a +:+ " " +:+ b)) in Hat.
    destruct i as [|i].
    + pose proof (five_digits_at_0 _ _ Hat) as ->.
      destruct Hat as (_ & _ & _ & _ & Hl & Hd).
      change (String c (a +:+ " " +:+ b)) with (String c a +:+ " " +:+ b) in Hl, Hd.
      destruct (take_before_space 5 (String c a) b Hd Hl) as [Heq Hl'].
      rewrite Heq in Hd.
      change (String c a +:+ " " +:+ b) with (String c (a +:+ " " +:+ b)) in Heq.
      rewrite Heq. left. exists 0%nat.
      exists "", (drop 5 (String c a)).
      change ("" +:+ take 5 (String c a) +:+ drop 5 (String c a))
        with (take 5 (String c a) +:+ drop 5 (String c a)).
      by rewrite take_drop.
    + apply five_digits_at_S in Hat. destruct (IH i Hat) as [[j Hj]|[j Hj]].
      * left. exists (S j). by apply five_digits_at_S.
      * right. by exists j.
Qed.

Lemma five_digits_at_join (results : list string) (i : nat) (g : string) :
  five_digits_at (join " " results) i g →
  ∃ frag j, frag ∈ results ∧ five_digits_at frag j g.
Proof.
  revert i. induction results as [|x [|y rest] IH]; intros i Hat.
  - by destruct (five_digits_at_empty i g).
  - exists x, i. split; [apply elem_of_cons; by left|done].
  - change (join " " (x :: y :: rest)) with (x +:+ " " +:+ join " " (y :: rest)) in Hat.
    destruct (five_digits_at_join2 _ _ _ _ Hat) as [[j Hj]|[j Hj]].
    + exists x, j. split; [apply elem_of_cons; by left|done].
    + destruct (IH j Hj) as (frag & j' & Hin & Hf).
      exists frag, j'. split; [apply elem_of_cons; by right|done].
Qed.

Lemma five_digits_at_inside (pre s post : string) (i : nat) (g : string) :
  five_digits_at s i g → ∃ j, five_digits_at (pre +:+ s +:+ post) j g.
Proof.
  intros (p & q & -> & Hp & Hl & Hd).
  exists (String.length (pre +:+ p)), (pre +:+ p), (q +:+ post).
  rewrite !app_assoc_s. done.
Qed.

Lemma join_holds_fragment (results : list string) (frag : string) :
  frag ∈ results → ∃ pre post, join " " results = pre +:+ frag +:+ post.
Proof.
  induction results as [|x [|y rest] IH]; intros Hin.
  - by apply elem_of_nil in Hin.
  - apply list_elem_of_singleton in Hin as ->. exists "", "". simpl.
    clear. induction x as [|c x IHx]; simpl; [done|]. by rewrite <- IHx.
  - change (join " " (x :: y :: rest)) with (x +:+ " " +:+ join " " (y :: rest)).
    apply elem_of_cons in Hin as [->|Hin].
    + by exists "", (" " +:+ join " " (y :: rest)).
    + destruct (IH Hin) as (pre & post & ->).
      exists (x +:+ " " +:+ pre), post. by rewrite !app_assoc_s.
Qed.

(** X16. The image extractor reads a number only inside one OCR fragment:
    because the fragments are joined with a space, it returns digits exactly
    when some single fragment holds five consecutive digits; digits that the
    OCR split over two fragments are not found and the extraction raises. *)
Theorem digits_within_one_fragment (lib : Dear.libs) (image_bytes : list byte)
    (results : list string) :
  Dear.readtext lib image_bytes = Ok results →
  ((∃ frag i g, frag ∈ results ∧ five_digits_at frag i g) →
   ∃ dg, Dear.extract_digits lib image_bytes = Ok dg)
  ∧ ((∀ frag, frag ∈ results → ∀ i g, ¬ five_digits_at frag i g) →
     Dear.extract_digits lib image_bytes
     = Raise (ValueError ("1st Prize not detected. OCR saw: " +:+ take 50 (join " " results)))).
Proof.
  intros Hocr. unfold Dear.extract_digits. rewrite Hocr, bind_ok.
  unfold Dear.digits_of_fragments. split.
  - intros (frag & i & g & Hin & Hat).
    destruct (join_holds_fragment results frag Hin) as (pre & post & Hjoin).
    destruct (five_digits_at_inside pre frag post i g Hat) as [j Hj].
    rewrite <- Hjoin in Hj.
    destruct (search_d5 (join " " results)) as [m|] eqn:Hs.
    + destruct (search_d5_some _ _ Hs) as [(p & q & _ & _ & Hl & _) _].
      unfold Dear.digits_of_number. rewrite last_char_nonempty by lia. by eexists.
    + by destruct (search_d5_none _ Hs j g).
  - intros Hnone.
    destruct (search_d5 (join " " results)) as [m|] eqn:Hs; [|done].
    destruct (search_d5_some _ _ Hs) as [Hat _].
    destruct (five_digits_at_join _ _ _ Hat) as (frag & j & Hin & Hf).
    by destruct (Hnone frag Hin j (m_group m)).
Qed.

Lemma digits_within_one_fragment_witness :
  Dear.extract_digits (ocr_reading ["1st Prize"; "824"; "97"]) []
  = Raise (ValueError "1st Prize not detected. OCR saw: 1st Prize 824 97")
  ∧ ∃ dg, Dear.extract_digits (ocr_reading ["1st Prize"; "82497"]) [] = Ok dg.
Proof.
  split.
  - apply (digits_within_one_fragment (ocr_reading ["1st Prize"; "824"; "97"]) []
             ["1st Prize"; "824"; "97"] eq_refl).
    intros frag Hin. repeat (apply elem_of_cons in Hin as [->|Hin]);
      [by apply search_d5_none..|by apply elem_of_nil in Hin].
  - apply (digits_within_one_fragment (ocr_reading ["1st Prize"; "82497"]) []
             ["1st Prize"; "82497"] eq_refl).
    exists "82497", 0%nat, "82497". split.
    + apply elem_of_cons. right. apply elem_of_cons. by left.
    + by exists "", "".
Defined.

(** ** Concrete runs *)

Lemma main_publishes_only_needed_witness :
  let now := {| year := 2026; month := 2; day := 3; hour := 13; minute := 30 |} in
  let today := strftime_date now in
  let state := Get Dear.API_GET_STATE [("date", today)] in
  ∃ db r sent,
    Dear.api_get_today_state (always 200 "") today [] = (Ok db, [] ++ [state])
    ∧ Dear.main (always 200 "") february_page now now [] = (r, ([] ++ [state]) ++ sent)
    ∧ (∀ rq, rq ∈ sent → is_post rq = true →
         ∃ slot thr m, db = JObj m ∧ (slot, thr) ∈ eligibility
           ∧ (thr ≤ hour now)%Z ∧ m !! slot = Some (JStr "-")
           ∧ publishes_for "dear" today slot rq)
    ∧ (∀ needed, Dear.get_needed_slots now db = Ok needed →
         ∃ os, r = Ok os ∧ os.*1 = needed)
    ∧ (∀ e, Dear.get_needed_slots now db = Raise e → r = Raise e ∧ sent = []).
Proof.
  exact (main_publishes_only_needed (always 200 "") february_page
           {| year := 2026; month := 2; day := 3; hour := 13; minute := 30 |}
           {| year := 2026; month := 2; day := 3; hour := 13; minute := 30 |} []).
Defined.

Lemma pdf_run_early_exits_witness :
  let now := {| year := 2026; month := 2; day := 3; hour := 13; minute := 0 |} in
  let w := answering (Ok (json_reply 200 (JObj (<["mor" := JStr "497"]> (fresh "2026-02-03"))))) in
  Singapore.crawl_and_process w (pdf_reading "" []) now "mor" []
  = (Ok tt, [Get Singapore.API_GET_STATE [("date", "2026-02-03")]]).
Proof.
  intros now w.
  destruct (pdf_run_early_exits w (pdf_reading "" []) now "mor" []) as (db & Hdb & Hnone & _).
  apply Hnone. vm_compute in Hdb. injection Hdb as <-. reflexivity.
Defined.

Lemma pdf_run_publishes_only_needed_witness :
  let now := {| year := 2026; month := 2; day := 3; hour := 17; minute := 0 |} in
  let today := strftime_date now in
  let state := Get Singapore.API_GET_STATE [("date", today)] in
  ∃ db r sent,
    Singapore.api_get_today_state rejecting_posts today [] = (Ok db, [] ++ [state])
    ∧ Singapore.crawl_and_process rejecting_posts
        (pdf_reading "1st Prize 82497" ["https://pxwell.co/a.pdf"]) now "day" []
      = (r, ([] ++ [state]) ++ sent)
    ∧ ∀ rq, rq ∈ sent → is_post rq = true →
        ∃ slot m, db = JObj m ∧ m !! slot = Some (JStr "-") ∧ slot ∈ declared_slots
          ∧ (∀ pre post, declared_slots = pre ++ "day" :: post → slot ∈ pre ++ ["day"])
          ∧ publishes_for "singapore" today slot rq.
Proof.
  exact (pdf_run_publishes_only_needed rejecting_posts
           (pdf_reading "1st Prize 82497" ["https://pxwell.co/a.pdf"])
           {| year := 2026; month := 2; day := 3; hour := 17; minute := 0 |} "day" []).
Defined.

Lemma existence_check_exact_witness :
  let w := answering (Ok (json_reply 200 (JObj (<["lucky" := JStr ""]> ∅)))) in
  ∃ b, Lucky.check_if_exists w "dear" "2026-02-03" []
       = (Ok b, [] ++ [lucky_get "dear" "2026-02-03"])
    ∧ (b = true ↔ reports_existing (w [] (lucky_get "dear" "2026-02-03"))).
Proof.
  exact (existence_check_exact
           (answering (Ok (json_reply 200 (JObj (<["lucky" := JStr ""]> ∅)))))
           "dear" "2026-02-03" []).
Defined.

Lemma backfill_run_shape_witness :
  let now := {| year := 2026; month := 2; day := 3; hour := 9; minute := 0 |} in
  let today := strftime_date now in
  let w := answering (Raise ConnectionError) in
  let rand : Lucky.rng := λ k, Z.of_nat (k `mod` 10) in
  let post t pos :=
    PostJson Lucky.API_URL
      (Lucky.lucky_payload t today (Lucky.generate_lucky_string rand pos).1) in
  ∃ sent_s sent_d,
    Lucky.update_numbers w rand now []
    = (Ok (4 * (length sent_s + length sent_d))%nat,
       [] ++ [lucky_get "singapore" today] ++ sent_s
          ++ [lucky_get "dear" today] ++ sent_d)
    ∧ (reports_existing (w [] (lucky_get "singapore" today)) ∧ sent_s = []
       ∨ ¬ reports_existing (w [] (lucky_get "singapore" today))
         ∧ sent_s = [post "singapore" 0%nat])
    ∧ let tr_d := [] ++ [lucky_get "singapore" today] ++ sent_s in
      (reports_existing (w tr_d (lucky_get "dear" today)) ∧ sent_d = []
       ∨ ¬ reports_existing (w tr_d (lucky_get "dear" today))
         ∧ sent_d = [post "dear" (4 * length sent_s)%nat]).
Proof.
  exact (backfill_run_shape (answering (Raise ConnectionError))
           (λ k, Z.of_nat (k `mod` 10))
           {| year := 2026; month := 2; day := 3; hour := 9; minute := 0 |} []).
Defined.
